(** * bookstack-cli: the directory import engine and the export mirror

    A shallow embedding of [src/commands/import.ts] (class [ImportCommand]),
    of the parts of [src/bookstack-client.ts] it calls, and of the
    [book export-contents] action of [src/bookstack-cli.ts], followed by the
    properties of the specification that concern them.

    Conventions of the embedding.
    - A JavaScript string is a [string]; a character stands for one code
      unit below 256.  Numbers that the program uses as identifiers and
      depths are integers ([Z]).
    - [undefined]/[null] are [None]; the truthiness tests of the source
      ([a || b], [if (!x)]) are written out with [truthy].
    - Regular expressions of the source are transcribed one by one into the
      [regex] type and run by a backtracking matcher that follows the
      ECMAScript rules (leftmost match, greedy and lazy quantifiers,
      multiline anchors, numbered groups).
    - [await] is sequencing in a state-and-exception monad whose state is
      the remote store, the schedule of transport failures and the trace of
      what the run did. *)

From Stdlib Require Import String Ascii List ZArith Bool Arith Lia.
Import ListNotations.

Set Warnings "-register-all".

Local Open Scope string_scope.
Local Open Scope list_scope.

(** ** Characters and strings as the runtime sees them *)

Module Js.

Definition chars (s : string) : list ascii := list_ascii_of_string s.
Definition str (l : list ascii) : string := string_of_list_ascii l.

Definition code (c : ascii) : nat := nat_of_ascii c.

Definition in_range (lo hi : nat) (c : ascii) : bool :=
  (lo <=? code c)%nat && (code c <=? hi)%nat.

(** [\d] *)
Definition is_digit (c : ascii) : bool := in_range 48 57 c.

(** Line terminators below 256: LF and CR. *)
Definition is_line_terminator (c : ascii) : bool :=
  (code c =? 10)%nat || (code c =? 13)%nat.

(** [\s], and the characters removed by [trim]: TAB, LF, VT, FF, CR, SP, NBSP. *)
Definition is_space (c : ascii) : bool :=
  in_range 9 13 c || (code c =? 32)%nat || (code c =? 160)%nat.

(** [.] *)
Definition dot (c : ascii) : bool := negb (is_line_terminator c).

Definition is_char (a c : ascii) : bool := Ascii.eqb a c.

Definition lower_char (c : ascii) : ascii :=
  if in_range 65 90 c then ascii_of_nat (code c + 32)
  else if in_range 192 222 c && negb (code c =? 215)%nat
       then ascii_of_nat (code c + 32)
  else c.

Definition toLowerCase (s : string) : string := str (map lower_char (chars s)).

Fixpoint drop_spaces (l : list ascii) : list ascii :=
  match l with
  | c :: tl => if is_space c then drop_spaces tl else l
  | [] => []
  end.

Definition trim (s : string) : string :=
  str (rev (drop_spaces (rev (drop_spaces (chars s))))).

(** [s.slice(0, n)] for [0 <= n]. *)
Definition slice0 (n : nat) (s : string) : string := str (firstn n (chars s)).

(** [s.includes(t)] *)
Fixpoint is_prefix (p l : list ascii) : bool :=
  match p, l with
  | [], _ => true
  | a :: p', b :: l' => Ascii.eqb a b && is_prefix p' l'
  | _ :: _, [] => false
  end.

Fixpoint includes_chars (t l : list ascii) : bool :=
  is_prefix t l ||
  match l with
  | [] => false
  | _ :: tl => includes_chars t tl
  end.

Definition includes (s t : string) : bool := includes_chars (chars t) (chars s).

(** A value used as a condition: [undefined] and the empty string are false. *)
Definition truthy (o : option string) : option string :=
  match o with
  | Some s => if String.eqb s "" then None else Some s
  | None => None
  end.

(** [a || b] where [b] is a string. *)
Definition or_else (a : option string) (b : string) : string :=
  match truthy a with
  | Some s => s
  | None => b
  end.

(** [a || b] where [b] may itself be undefined. *)
Definition or_opt (a b : option string) : option string :=
  match truthy a with
  | Some s => Some s
  | None => b
  end.

(** Decimal value of a string of digits. *)
Definition digit_value (c : ascii) : Z := Z.of_nat (code c) - 48.

Definition decimal_value (s : string) : Z :=
  fold_left (fun acc c => 10 * acc + digit_value c)%Z (chars s) 0%Z.

(** The Number nearest to a non-negative integer: the integer itself below
    2^53, else the integer rounded to 53 significant bits, a tie going to
    the even significand. *)
Definition nearest_double (n : Z) : Z :=
  if (n <? 2 ^ 53)%Z then n
  else
    let e := (Z.log2 n - 52)%Z in
    let unit := (2 ^ e)%Z in
    let q := (n / unit)%Z in
    let r := (n mod unit)%Z in
    let up :=
      if (unit <? 2 * r)%Z then true
      else if (2 * r =? unit)%Z then Z.odd q
      else false in
    ((if up then q + 1 else q) * unit)%Z.

(** [parseInt(s, 10)] on a string that matched [/^\d+$/]: the Number
    nearest to its decimal value.  The language fixes that Number for up to
    20 significant digits and lets an implementation neglect the digits
    after the 20th; past the largest Number the runtime answers Infinity,
    which has no counterpart here.  The properties that name the value
    bound the length of the string. *)
Definition parseInt (s : string) : Z := nearest_double (decimal_value s).

(** Decimal rendering of an integer inside a template string. *)
Fixpoint digits_of (fuel : nat) (n : nat) (acc : list ascii) : list ascii :=
  match fuel with
  | O => acc
  | S f =>
      let d := ascii_of_nat (48 + n mod 10) in
      if (n <? 10)%nat then d :: acc else digits_of f (n / 10) (d :: acc)
  end.

Definition show_Z (z : Z) : string :=
  let n := Z.abs_nat z in
  let ds := str (digits_of (S n) n []) in
  if (z <? 0)%Z then "-" ++ ds else ds.

End Js.

(** ** Regular expressions

    The expressions of the program use literals, character classes,
    sequences, [?], greedy and lazy [*] and [+], numbered groups and the
    anchors [^] and [$], with or without the [m] flag.  None has a group
    under a quantifier, a back-reference or a look-around. *)

Module Regex.

Inductive regex : Type :=
| Eps
| Chr (p : ascii -> bool)
| Cat (r1 r2 : regex)
| Alt (r1 r2 : regex)
| Star (greedy : bool) (r : regex)
| Grp (i : nat) (r : regex)
| Bol
| Eol.

(** [r+], [r+?] and [r?] *)
Definition Plus (greedy : bool) (r : regex) : regex := Cat r (Star greedy r).
Definition Opt (r : regex) : regex := Alt r Eps.

Fixpoint lit_chars (l : list ascii) : regex :=
  match l with
  | [] => Eps
  | c :: tl => Cat (Chr (Js.is_char c)) (lit_chars tl)
  end.

(** A literal run of characters. *)
Definition Lit (s : string) : regex := lit_chars (Js.chars s).

Fixpoint Seq (rs : list regex) : regex :=
  match rs with
  | [] => Eps
  | [r] => r
  | r :: tl => Cat r (Seq tl)
  end.

(** Position of the matcher: the character just before the cursor, the
    input that remains, and the groups captured so far. *)
Record mstate : Type := MState {
  ms_prev : option ascii;
  ms_rest : list ascii;
  ms_caps : list (nat * list ascii)
}.

Definition consumed (before after : mstate) : nat :=
  length (ms_rest before) - length (ms_rest after).

Definition at_bol (multiline : bool) (st : mstate) : bool :=
  match ms_prev st with
  | None => true
  | Some c => multiline && Js.is_line_terminator c
  end.

Definition at_eol (multiline : bool) (st : mstate) : bool :=
  match ms_rest st with
  | [] => true
  | c :: _ => multiline && Js.is_line_terminator c
  end.

Definition or_try {A} (a : option A) (b : option A) : option A :=
  match a with
  | Some x => Some x
  | None => b
  end.

(** The iterations of a quantifier: [step] runs the quantified expression
    once.  An iteration that consumes nothing is rejected, as in ECMAScript;
    the bound [n] exceeds the length of the remaining input. *)
Fixpoint star_loop (step : mstate -> (mstate -> option mstate) -> option mstate)
                   (greedy : bool) (k : mstate -> option mstate)
                   (n : nat) (st : mstate) {struct n} : option mstate :=
  match n with
  | O => k st
  | S n' =>
      let more :=
        step st (fun st' =>
                   if (length (ms_rest st') <? length (ms_rest st))%nat
                   then star_loop step greedy k n' st' else None) in
      if greedy then or_try more (k st) else or_try (k st) more
  end.

(** Backtracking matcher in continuation-passing style. *)
Fixpoint run (multiline : bool) (r : regex) (st : mstate)
             (k : mstate -> option mstate) {struct r} : option mstate :=
  match r with
  | Eps => k st
  | Chr p =>
      match ms_rest st with
      | c :: tl => if p c then k (MState (Some c) tl (ms_caps st)) else None
      | [] => None
      end
  | Cat r1 r2 => run multiline r1 st (fun st' => run multiline r2 st' k)
  | Alt r1 r2 => or_try (run multiline r1 st k) (run multiline r2 st k)
  | Star greedy r1 =>
      star_loop (run multiline r1) greedy k (S (length (ms_rest st))) st
  | Grp i r1 =>
      run multiline r1 st
          (fun st' =>
             k (MState (ms_prev st') (ms_rest st')
                       ((i, firstn (consumed st st') (ms_rest st)) :: ms_caps st')))
  | Bol => if at_bol multiline st then k st else None
  | Eol => if at_eol multiline st then k st else None
  end.

(** One attempt at the current position. *)
Definition attempt (multiline : bool) (r : regex) (prev : option ascii)
                   (l : list ascii) : option mstate :=
  run multiline r (MState prev l []) Some.

Fixpoint lookup_cap (i : nat) (caps : list (nat * list ascii)) : option (list ascii) :=
  match caps with
  | [] => None
  | (j, v) :: tl => if (i =? j)%nat then Some v else lookup_cap i tl
  end.

(** The result of a successful match: the matched text and the groups. *)
Record match_result : Type := MatchResult {
  m_index : nat;
  m_text : string;
  m_caps : list (nat * list ascii)
}.

Definition group (i : nat) (m : match_result) : option string :=
  match i with
  | O => Some (m_text m)
  | _ => option_map Js.str (lookup_cap i (m_caps m))
  end.

Fixpoint search (multiline : bool) (r : regex) (prev : option ascii)
                (l : list ascii) (idx : nat) : option match_result :=
  match attempt multiline r prev l with
  | Some st =>
      Some (MatchResult idx (Js.str (firstn (length l - length (ms_rest st)) l))
                        (ms_caps st))
  | None =>
      match l with
      | [] => None
      | c :: tl => search multiline r (Some c) tl (S idx)
      end
  end.

(** [s.match(re)] for a regular expression without the [g] flag. *)
Definition exec (multiline : bool) (r : regex) (s : string) : option match_result :=
  search multiline r None (Js.chars s) 0.

(** [re.test(s)] *)
Definition test (multiline : bool) (r : regex) (s : string) : bool :=
  match exec multiline r s with
  | Some _ => true
  | None => false
  end.

(** Replacement patterns: literal text and [$n]. *)
Inductive piece : Type :=
| Text (s : string)
| Ref (i : nat).

Definition expand_piece (caps : list (nat * list ascii)) (p : piece) : list ascii :=
  match p with
  | Text s => Js.chars s
  | Ref i =>
      match lookup_cap i caps with
      | Some v => v
      | None => []
      end
  end.

Definition expand (tpl : list piece) (caps : list (nat * list ascii)) : list ascii :=
  flat_map (expand_piece caps) tpl.

(** [s.replace(re, tpl)] with the [g] flag: scan left to right, restart
    after each match, step over one character after an empty match. *)
Fixpoint replace_from (fuel : nat) (multiline : bool) (r : regex) (tpl : list piece)
                      (prev : option ascii) (l : list ascii) : list ascii :=
  match fuel with
  | O => l
  | S fuel' =>
      match attempt multiline r prev l with
      | Some st =>
          let out := expand tpl (ms_caps st) in
          if (length (ms_rest st) <? length l)%nat
          then out ++ replace_from fuel' multiline r tpl (ms_prev st) (ms_rest st)
          else
            match l with
            | [] => out
            | c :: tl => out ++ c :: replace_from fuel' multiline r tpl (Some c) tl
            end
      | None =>
          match l with
          | [] => []
          | c :: tl => c :: replace_from fuel' multiline r tpl (Some c) tl
          end
      end
  end.

Definition replace_all (multiline : bool) (r : regex) (tpl : list piece) (s : string)
  : string :=
  Js.str (replace_from (S (length (Js.chars s))) multiline r tpl None (Js.chars s)).

(** [s.split(re)] *)
Fixpoint split_from (fuel : nat) (r : regex) (prev : option ascii)
                    (cur : list ascii) (l : list ascii) : list (list ascii) :=
  match fuel with
  | O => [rev cur ++ l]
  | S fuel' =>
      match l with
      | [] => [rev cur]
      | c :: tl =>
          match attempt false r prev l with
          | Some st =>
              if ((length (ms_rest st) =? length l)%nat && match cur with [] => true | _ => false end)%bool
              then split_from fuel' r (Some c) (c :: cur) tl
              else rev cur :: split_from fuel' r (ms_prev st) [] (ms_rest st)
          | None => split_from fuel' r (Some c) (c :: cur) tl
          end
      end
  end.

Definition split (r : regex) (s : string) : list string :=
  match Js.chars s with
  | [] => match attempt false r None [] with
          | Some _ => []
          | None => [""]
          end
  | l => map Js.str (split_from (2 * length l + 2) r None [] l)
  end.

End Regex.

Import Regex.

(** ** Paths ([path.posix] of the runtime) *)

Module Path.

Definition slash : ascii := "/"%char.
Definition is_slash (c : ascii) : bool := Ascii.eqb c slash.

(** The pieces of a path between slashes, in order. *)
Fixpoint segments_from (cur : list ascii) (l : list ascii) : list (list ascii) :=
  match l with
  | [] => [rev cur]
  | c :: tl =>
      if is_slash c then rev cur :: segments_from [] tl
      else segments_from (c :: cur) tl
  end.

Definition segments (p : string) : list string :=
  map Js.str (segments_from [] (Js.chars p)).

Definition nonempty (s : string) : bool := negb (String.eqb s "").

(** The last portion of a path, trailing slashes ignored. *)
Definition last_segment (p : string) : string :=
  last (filter nonempty (segments p)) "".

(** [path.basename(p)] *)
Definition basename (p : string) : string := last_segment p.

Fixpoint last_dot (l : list ascii) (i : nat) (found : option nat) : option nat :=
  match l with
  | [] => found
  | c :: tl => last_dot tl (S i) (if Ascii.eqb c "."%char then Some i else found)
  end.

(** [path.extname(p)]: from the last dot of the last portion to its end;
    empty when there is no dot, when the only dot starts the portion, and
    for the portion [..]. *)
Definition extname (p : string) : string :=
  let b := last_segment p in
  match last_dot (Js.chars b) 0 None with
  | None => ""
  | Some O => ""
  | Some i => if String.eqb b ".." then "" else Js.str (skipn i (Js.chars b))
  end.

Definition ends_with (s suffix : string) : bool :=
  Js.is_prefix (rev (Js.chars suffix)) (rev (Js.chars s)).

(** [path.basename(p, ext)] *)
Definition basename_ext (p ext : string) : string :=
  let b := last_segment p in
  if String.eqb ext "" then b
  else if (String.length p <? String.length ext)%nat then b
  else if String.eqb ext p then ""
  else if ends_with b ext && negb (String.eqb b ext)
       then Js.str (firstn (String.length b - String.length ext) (Js.chars b))
  else b.

(** [normalizeString]: resolve [.] and [..] over the pieces; the stack holds
    the kept pieces, last one first. *)
Definition push_segment (allowAboveRoot : bool) (stack : list string) (seg : string)
  : list string :=
  if String.eqb seg "" || String.eqb seg "." then stack
  else if String.eqb seg ".." then
    match stack with
    | top :: below =>
        if String.eqb top ".." then
          (if allowAboveRoot then seg :: stack else stack)
        else below
    | [] => if allowAboveRoot then [seg] else []
    end
  else seg :: stack.

Definition normalizeString (p : string) (allowAboveRoot : bool) : string :=
  String.concat "/" (rev (fold_left (push_segment allowAboveRoot) (segments p) [])).

Definition starts_with_slash (p : string) : bool :=
  match p with
  | String c _ => is_slash c
  | EmptyString => false
  end.

Definition ends_with_slash (p : string) : bool :=
  match rev (Js.chars p) with
  | c :: _ => is_slash c
  | [] => false
  end.

(** [path.normalize(p)] *)
Definition normalize (p : string) : string :=
  if String.eqb p "" then "."
  else
    let isAbsolute := starts_with_slash p in
    let trailingSeparator := ends_with_slash p in
    let body := normalizeString p (negb isAbsolute) in
    if String.eqb body "" then
      (if isAbsolute then "/" else if trailingSeparator then "./" else ".")
    else
      let body' := if trailingSeparator then (body ++ "/")%string else body in
      if isAbsolute then "/" ++ body' else body'.

(** [path.join(a, b)] *)
Definition join (a b : string) : string :=
  match String.eqb a "", String.eqb b "" with
  | true, true => "."
  | true, false => normalize b
  | false, true => normalize a
  | false, false => normalize (a ++ "/" ++ b)%string
  end.

End Path.

(** ** Format converter ([isSupportedFile], [detectFormat], [convertToHtml]) *)

Definition dquote : string := String "034"%char EmptyString.
Definition squote : string := String "039"%char EmptyString.
Definition LF : ascii := "010"%char.
Definition CR : ascii := "013"%char.

Definition newline : string := String LF EmptyString.

Definition any_char (c : ascii) : bool := true.
Definition not_char (a c : ascii) : bool := negb (Ascii.eqb a c).

Definition string_in (s : string) (l : list string) : bool :=
  existsb (String.eqb s) l.

Definition isSupportedFile (fileName : string) : bool :=
  let ext := Js.toLowerCase (Path.extname fileName) in
  string_in ext [".md"; ".markdown"; ".html"; ".htm"; ".txt"].

Definition detectFormat (fileName : string) : string :=
  let ext := Js.toLowerCase (Path.extname fileName) in
  if string_in ext [".md"; ".markdown"] then "markdown"
  else if string_in ext [".html"; ".htm"] then "html"
  else "markdown".

(** [/^### (.*$)/gm], [/^## (.*$)/gm], [/^# (.*$)/gm] *)
Definition re_header (marks : string) : regex :=
  Seq [Bol; Lit marks; Grp 1 (Cat (Star true (Chr Js.dot)) Eol)].

(** [/\*\*\*(.*?)\*\*\*/g], [/\*\*(.*?)\*\*/g], [/\*(.*?)\*/g] *)
Definition re_emphasis (stars : string) : regex :=
  Seq [Lit stars; Grp 1 (Star false (Chr Js.dot)); Lit stars].

(** [/\[([^\]]+)\]\(([^)]+)\)/g] *)
Definition re_link : regex :=
  Seq [Lit "["; Grp 1 (Plus true (Chr (not_char "]"%char))); Lit "]"; Lit "(";
       Grp 2 (Plus true (Chr (not_char ")"%char))); Lit ")"].

(** [/```([\s\S]*?)```/g] and [/`([^`]+)`/g] *)
Definition re_fence : regex :=
  Seq [Lit "```"; Grp 1 (Star false (Chr any_char)); Lit "```"].

Definition re_code : regex :=
  Seq [Lit "`"; Grp 1 (Plus true (Chr (not_char "`"%char))); Lit "`"].

Definition wrap (open close : string) : list piece := [Text open; Ref 1; Text close].

Definition simpleMarkdownToHtml (markdown : string) : string :=
  let html := markdown in
  (* Headers *)
  let html := replace_all true (re_header "### ") (wrap "<h3>" "</h3>") html in
  let html := replace_all true (re_header "## ") (wrap "<h2>" "</h2>") html in
  let html := replace_all true (re_header "# ") (wrap "<h1>" "</h1>") html in
  (* Bold and italic *)
  let html := replace_all false (re_emphasis "***")
                          (wrap "<strong><em>" "</em></strong>") html in
  let html := replace_all false (re_emphasis "**") (wrap "<strong>" "</strong>") html in
  let html := replace_all false (re_emphasis "*") (wrap "<em>" "</em>") html in
  (* Links *)
  let html := replace_all false re_link
                          [Text "<a href="; Text dquote; Ref 2; Text dquote; Text ">";
                           Ref 1; Text "</a>"] html in
  (* Code blocks *)
  let html := replace_all false re_fence (wrap "<pre><code>" "</code></pre>") html in
  let html := replace_all false re_code (wrap "<code>" "</code>") html in
  (* Line breaks *)
  let html := replace_all false (Cat (Chr (Js.is_char LF)) (Chr (Js.is_char LF)))
                          [Text "</p><p>"] html in
  let html := replace_all false (Chr (Js.is_char LF)) [Text "<br>"] html in
  (* Wrap in paragraphs if not already wrapped *)
  if negb (Js.includes html "<p>") && negb (Js.includes html "<h1>")
     && negb (Js.includes html "<h2>") && negb (Js.includes html "<h3>")
  then ("<p>" ++ html ++ "</p>")%string
  else html.

Definition escapeHtml (text : string) : string :=
  let t := replace_all false (Lit "&") [Text "&amp;"] text in
  let t := replace_all false (Lit "<") [Text "&lt;"] t in
  let t := replace_all false (Lit ">") [Text "&gt;"] t in
  let t := replace_all false (Lit dquote) [Text "&quot;"] t in
  replace_all false (Lit squote) [Text "&#39;"] t.

Definition convertToHtml (content format : string) : string :=
  if String.eqb format "html" then content
  else if String.eqb format "markdown" then simpleMarkdownToHtml content
  else ("<pre>" ++ escapeHtml content ++ "</pre>")%string.

(** ** The local file system

    The source tree as [fs.readdir] and [fs.stat] present it: a directory
    lists its entries in listing order; an entry is a regular file, a
    directory, or something else (socket, device).  The tree does not
    change during a run and is read without I/O error, except that reading
    a path that is not a regular file fails. *)

Inductive node : Type :=
| File (name : string) (content : string)
| Dir (name : string) (entries : list node)
| Special (name : string).

Definition node_name (n : node) : string :=
  match n with
  | File name _ => name
  | Dir name _ => name
  | Special name => name
  end.

(** What [fs.stat(path.resolve(source))] finds. *)
Inductive source : Type :=
| SrcMissing
| SrcFile (content : string)
| SrcDir (entries : list node)
| SrcOther.

(** The entry that [path.join(dir, name)] designates. *)
Definition lookup (name : string) (entries : list node) : option node :=
  find (fun n => String.eqb (node_name n) name) entries.

(** ** Runs: state, exceptions, trace *)

(** What the program throws, or exits on: the connectivity check failed;
    the source path is missing, or is neither file nor directory; a request
    failed in transport; the remote store answered "not found"; a read
    failed; the export found no Book, or was asked for an unknown format. *)
Inductive exn : Type :=
| ConnectFailed
| SourceMissing (sourcePath : string)
| SourceNotFileOrDir
| TransportError
| NotFound
| ReadFailed (path : string)
| BookNotFound (bookArg : string)
| InvalidFormat.

Inductive outcome (A : Type) : Type :=
| Ok (a : A)
| Throw (e : exn).

Arguments Ok {A} a.
Arguments Throw {A} e.

(** A computation over a state [S]: it ends with a value or an exception,
    and the state reached. *)
Definition M (S A : Type) : Type := S -> outcome A * S.

Definition ret {S A} (a : A) : M S A := fun s => (Ok a, s).

Definition bind {S A B} (m : M S A) (f : A -> M S B) : M S B :=
  fun s =>
    match m s with
    | (Ok a, s') => f a s'
    | (Throw e, s') => (Throw e, s')
    end.

Definition throw {S A} (e : exn) : M S A := fun s => (Throw e, s).

(** [try { m } catch { h }] *)
Definition try_catch {S A} (m : M S A) (h : exn -> M S A) : M S A :=
  fun s =>
    match m s with
    | (Ok a, s') => (Ok a, s')
    | (Throw e, s') => h e s'
    end.

Definition modify {S} (f : S -> S) : M S unit := fun s => (Ok tt, f s).

Declare Scope run_scope.
Delimit Scope run_scope with run.
Notation "x <- m ;; k" := (bind m (fun x => k))
  (at level 61, m at next level, right associativity) : run_scope.
Notation "m ;; k" := (bind m (fun _ => k))
  (at level 61, right associativity) : run_scope.
Local Open Scope run_scope.

(** [for (const x of xs) { await body(x) }] *)
Definition for_each {S A} (body : A -> M S unit) : list A -> M S unit :=
  fix go (xs : list A) : M S unit :=
    match xs with
    | [] => ret tt
    | x :: tl => body x ;; go tl
    end.

(** ** The remote store and what a run leaves behind *)

Record Book : Type := mkBook {
  book_id : Z;
  book_name : string;
  book_slug : string;
  book_description : option string
}.

Record Chapter : Type := mkChapter {
  chapter_id : Z;
  chapter_book_id : Z;
  chapter_name : string;
  chapter_slug : string;
  chapter_description : option string
}.

Record Page : Type := mkPage {
  page_id : Z;
  page_book_id : Z;
  page_chapter_id : option Z;
  page_name : string;
  page_slug : string;
  page_html : string;
  page_markdown : option string
}.

(** The object handed to [client.createPage]. *)
Record PageData : Type := mkPageData {
  pd_book_id : Z;
  pd_chapter_id : option Z;
  pd_name : string;
  pd_html : string;
  pd_markdown : option string
}.

Record store : Type := mkStore {
  books : list Book;
  chapters : list Chapter;
  pages : list Page;
  next_id : Z
}.

(** Items of the [contents] array of [GET /books/{id}]. *)
Record PageItem : Type := mkPageItem {
  pi_id : Z;
  pi_name : string;
  pi_slug : string
}.

Record ChapterItem : Type := mkChapterItem {
  ci_id : Z;
  ci_book_id : option Z;
  ci_name : string;
  ci_slug : string;
  ci_description : option string;
  ci_pages : option (list PageItem)
}.

Inductive ContentItem : Type :=
| PageC (p : PageItem)
| ChapterC (c : ChapterItem).

Record BookRead : Type := mkBookRead {
  br_book : Book;
  br_contents : list ContentItem
}.

(** The requests of [BookStackClient]: GET /books, GET /books/{id},
    POST /books, PUT /books/{id}, POST /chapters, POST /pages and
    GET /pages/{id}/export/{format}. *)
Inductive request : Type :=
| GetBooks
| GetBook (id : Z)
| CreateBook (name description : string)
| UpdateBook (id : Z) (description : string)
| CreateChapter (bookId : Z) (name description : string)
| CreatePage (data : PageData)
| ExportPage (id : Z) (format : string).

(** What a run leaves in its trace: the requests sent, the entries into
    [createPageInBook] and [createPageInChapter], the progress bar (created
    with its total, then ticked), and the directories and files written by
    the export.  Console output is not recorded. *)
Inductive event : Type :=
| Request (r : request)
| CallCreatePageInBook (bookId : Z) (filePath displayName : string)
| CallCreatePageInChapter (bookId chapterId : Z) (filePath displayName : string)
| ProgressBar (total : nat)
| Tick
| EnsureDir (path : string)
| WriteFile (path text : string).

(** [faults]: whether the next requests fail in transport (network,
    authentication, server error); an exhausted schedule means no failure. *)
Record world : Type := mkWorld {
  remote : store;
  faults : list bool;
  trace : list event
}.

Definition emit (e : event) : M world unit :=
  modify (fun w => mkWorld (remote w) (faults w) (trace w ++ [e])).

(** One HTTP request: recorded, then failed by the schedule or served. *)
Definition call {A} (r : request) (serve : store -> outcome A * store) : M world A :=
  fun w =>
    let tr := trace w ++ [Request r] in
    match faults w with
    | true :: later => (Throw TransportError, mkWorld (remote w) later tr)
    | false :: later =>
        let (o, s) := serve (remote w) in (o, mkWorld s later tr)
    | [] =>
        let (o, s) := serve (remote w) in (o, mkWorld s [] tr)
    end.

Definition lift {S A} (o : outcome A) : M S A := fun s => (o, s).

(** ** Options and sidecar metadata *)

Record ImportOptions : Type := mkImportOptions {
  opt_book : option string;
  opt_format : option string;
  opt_dryRun : bool;
  opt_maxDepth : option Z;
  opt_chapterFrom : option string;
  opt_flatten : bool
}.

Record Metadata : Type := mkMetadata {
  meta_name : option string;
  meta_description : option string
}.

Definition no_metadata : Metadata := mkMetadata None None.

Record ExportOptions : Type := mkExportOptions {
  opt_dir : option string;
  opt_export_format : string;
  opt_export_dryRun : bool
}.

(** ** Stand-ins for the collaborators, to run the program on examples *)

(** A sidecar reader that knows one document, [{"name":"Introduction"}]. *)
Definition example_sidecar : string :=
  ("{" ++ dquote ++ "name" ++ dquote ++ ":" ++ dquote ++ "Introduction" ++ dquote ++ "}")%string.

Definition example_JSON_parse (text : string) : option Metadata :=
  if String.eqb text example_sidecar then Some (mkMetadata (Some "Introduction") None)
  else None.

Definition example_slug (name : string) : string := Js.toLowerCase name.

Definition example_export (p : Page) (format : string) : string :=
  if String.eqb format "html" then page_html p
  else match page_markdown p with
       | Some md => md
       | None => page_html p
       end.

Definition ascii_NFKD (s : string) : string := s.

Definition is_ascii (s : string) : bool :=
  forallb (fun c => (Js.code c <? 128)%nat) (Js.chars s).

Definition empty_store : store := mkStore [] [] [] 1.

Definition fresh_world : world := mkWorld empty_store [] [].

(** The tree of the import scenario, with one folder nested below the
    chapter directory. *)
Definition example_chapter_entries : list node :=
  [File ".chapter-metadata.json" example_sidecar;
   File "page1.md" "text";
   Dir "deep" [File "x.md" "deep"]].

Definition example_tree : list node :=
  [File "readme.md" "# Hello";
   Dir "Intro" example_chapter_entries;
   File "notes.bin" "zz"].

Definition example_root : string := "/srv/examples".

Definition example_options (maxDepth : option Z) (flatten dryRun : bool) : ImportOptions :=
  mkImportOptions (Some "Sample") (Some "markdown") dryRun maxDepth (Some "dir") flatten.

(** A remote store that already holds the Book "Sample". *)
Definition sample_store : store :=
  mkStore [mkBook 1 "Sample" "sample" None] [] [] 2.

Definition sample_world : world := mkWorld sample_store [] [].

(** The remote store of the export scenario. *)
Definition docbook_store : store :=
  mkStore [mkBook 7 "Doc Book" "docbook" None]
          [mkChapter 201 7 "Chapter One" "ch-one" None]
          [mkPage 101 7 None "Intro" "intro" "<p>i</p>" (Some "i");
           mkPage 301 7 (Some 201%Z) "Page A" "pg-a" "<p>a</p>" (Some "a")]
          400.


Section Program.

(** What the program takes from outside the repository:
    - [JSON_parse_metadata text]: [JSON.parse(text)] followed by reading the
      fields [name] and [description]; [None] when that throws;
    - [server_slug name]: the slug the remote store gives to a new entity;
    - [server_export page format]: the text the remote store renders for
      [GET /pages/{id}/export/{format}];
    - [normalize_NFKD s]: [s.normalize("NFKD")]. *)
Variable JSON_parse_metadata : string -> option Metadata.
Variable server_slug : string -> string.
Variable server_export : Page -> string -> string.
Variable normalize_NFKD : string -> string.

(** *** The remote store serving requests *)

Definition find_book (id : Z) (s : store) : option Book :=
  find (fun b => (book_id b =? id)%Z) (books s).

Definition page_item (p : Page) : PageItem :=
  mkPageItem (page_id p) (page_name p) (page_slug p).

Definition opt_Z_eqb (a : option Z) (b : option Z) : bool :=
  match a, b with
  | Some x, Some y => (x =? y)%Z
  | None, None => true
  | _, _ => false
  end.

Definition pages_of (s : store) (bookId : Z) (chapterId : option Z) : list PageItem :=
  map page_item
      (filter (fun p => (page_book_id p =? bookId)%Z
                        && opt_Z_eqb (page_chapter_id p) chapterId) (pages s)).

Definition chapter_item (s : store) (c : Chapter) : ChapterItem :=
  mkChapterItem (chapter_id c) (Some (chapter_book_id c)) (chapter_name c)
                (chapter_slug c) (chapter_description c)
                (Some (pages_of s (chapter_book_id c) (Some (chapter_id c)))).

Definition chapters_of (s : store) (bookId : Z) : list Chapter :=
  filter (fun c => (chapter_book_id c =? bookId)%Z) (chapters s).

Definition contents_of (s : store) (bookId : Z) : list ContentItem :=
  map PageC (pages_of s bookId None)
  ++ map (fun c => ChapterC (chapter_item s c)) (chapters_of s bookId).

Definition serve_getBooks (s : store) : outcome (list Book) * store :=
  (Ok (books s), s).

Definition serve_getBook (id : Z) (s : store) : outcome BookRead * store :=
  match find_book id s with
  | Some b => (Ok (mkBookRead b (contents_of s id)), s)
  | None => (Throw NotFound, s)
  end.

Definition serve_createBook (name description : string) (s : store)
  : outcome Book * store :=
  let b := mkBook (next_id s) name (server_slug name) (Some description) in
  (Ok b, mkStore (books s ++ [b]) (chapters s) (pages s) (next_id s + 1)).

Definition set_description (id : Z) (description : string) (b : Book) : Book :=
  if (book_id b =? id)%Z
  then mkBook (book_id b) (book_name b) (book_slug b) (Some description)
  else b.

Definition serve_updateBook (id : Z) (description : string) (s : store)
  : outcome Book * store :=
  match find_book id s with
  | Some b =>
      (Ok (set_description id description b),
       mkStore (map (set_description id description) (books s))
               (chapters s) (pages s) (next_id s))
  | None => (Throw NotFound, s)
  end.

Definition serve_createChapter (bookId : Z) (name description : string) (s : store)
  : outcome Chapter * store :=
  match find_book bookId s with
  | Some _ =>
      let c := mkChapter (next_id s) bookId name (server_slug name) (Some description) in
      (Ok c, mkStore (books s) (chapters s ++ [c]) (pages s) (next_id s + 1))
  | None => (Throw NotFound, s)
  end.

Definition chapter_exists (s : store) (bookId : Z) (chapterId : option Z) : bool :=
  match chapterId with
  | None => true
  | Some cid => existsb (fun c => (chapter_id c =? cid)%Z) (chapters_of s bookId)
  end.

Definition serve_createPage (data : PageData) (s : store) : outcome Page * store :=
  match find_book (pd_book_id data) s with
  | Some _ =>
      if chapter_exists s (pd_book_id data) (pd_chapter_id data) then
        let p := mkPage (next_id s) (pd_book_id data) (pd_chapter_id data)
                        (pd_name data) (server_slug (pd_name data))
                        (pd_html data) (pd_markdown data) in
        (Ok p, mkStore (books s) (chapters s) (pages s ++ [p]) (next_id s + 1))
      else (Throw NotFound, s)
  | None => (Throw NotFound, s)
  end.

Definition serve_exportPage (id : Z) (format : string) (s : store)
  : outcome string * store :=
  match find (fun p => (page_id p =? id)%Z) (pages s) with
  | Some p => (Ok (server_export p format), s)
  | None => (Throw NotFound, s)
  end.

(** *** [BookStackClient] *)

Definition getBooks : M world (list Book) := call GetBooks serve_getBooks.

Definition getBook (id : Z) : M world BookRead := call (GetBook id) (serve_getBook id).

Definition createBook (name description : string) : M world Book :=
  call (CreateBook name description) (serve_createBook name description).

Definition updateBook (id : Z) (description : string) : M world Book :=
  call (UpdateBook id description) (serve_updateBook id description).

Definition getBookContents (bookId : Z) : M world (list ContentItem) :=
  b <- call (GetBook bookId) (serve_getBook bookId) ;;
  ret (br_contents b).

Definition chapter_items (contents : list ContentItem) : list ChapterItem :=
  flat_map (fun item => match item with ChapterC c => [c] | PageC _ => [] end) contents.

Definition page_items (contents : list ContentItem) : list PageItem :=
  flat_map (fun item => match item with PageC p => [p] | ChapterC _ => [] end) contents.

Definition getChapters (bookId : Z) : M world (list Chapter) :=
  contents <- getBookContents bookId ;;
  ret (map (fun item =>
              mkChapter (ci_id item)
                        (match ci_book_id item with Some b => b | None => bookId end)
                        (ci_name item) (ci_slug item) (ci_description item))
           (chapter_items contents)).

Definition createChapter (bookId : Z) (name description : string) : M world Chapter :=
  call (CreateChapter bookId name description) (serve_createChapter bookId name description).

Definition createPage (data : PageData) : M world Page :=
  call (CreatePage data) (serve_createPage data).

Definition same_text (a b : string) : bool :=
  String.eqb (Js.toLowerCase a) (Js.toLowerCase b).

Definition findBookByName (name : string) : M world (option Book) :=
  bs <- getBooks ;;
  ret (find (fun book => same_text (book_name book) name
                         || same_text (book_slug book) name) bs).

Definition testConnection : M world bool :=
  try_catch (call GetBooks serve_getBooks ;; ret true) (fun _ => ret false).

Definition exportPage (pageId : Z) (format : string) : M world string :=
  call (ExportPage pageId format) (serve_exportPage pageId format).

(** *** [ImportCommand]: metadata resolver *)

Definition read_metadata (fileName : string) (entries : list node) : Metadata :=
  match lookup fileName entries with
  | Some (File _ content) =>
      match JSON_parse_metadata content with
      | Some data => mkMetadata (meta_name data) (meta_description data)
      | None => no_metadata
      end
  | Some _ => no_metadata
  | None => no_metadata
  end.

Definition readChapterMetadata (entries : list node) : Metadata :=
  read_metadata ".chapter-metadata.json" entries.

Definition readBookMetadata (entries : list node) : Metadata :=
  read_metadata ".book-metadata.json" entries.

(** [/^#\s+(.+)$/m], [/^##\s+(.+)$/m], [/^###\s+(.+)$/m] *)
Definition re_heading (marks : string) : regex :=
  Seq [Bol; Lit marks; Plus true (Chr Js.is_space); Grp 1 (Plus true (Chr Js.dot)); Eol].

(** [/\r?\n/] *)
Definition re_newline : regex := Cat (Opt (Chr (Js.is_char CR))) (Chr (Js.is_char LF)).

Definition first_heading (content : string) : option match_result :=
  or_try (exec true (re_heading "#") content)
         (or_try (exec true (re_heading "##") content)
                 (exec true (re_heading "###") content)).

Definition first_nonblank_line (content : string) : option string :=
  find (fun l => (0 <? String.length (Js.trim l))%nat) (split re_newline content).

(** The body of the loop of [deriveNameFromReadme] once the content of a
    candidate is read: [Some] is a [return], [None] lets the loop go on. *)
Definition name_in_content (content : string) : option string :=
  let fallback :=
    match Js.truthy (first_nonblank_line content) with
    | Some line => Some (Js.trim line)
    | None => None
    end in
  match first_heading content with
  | Some m =>
      match Js.truthy (group 1 m) with
      | Some g => Some (Js.trim g)
      | None => fallback
      end
  | None => fallback
  end.

Definition candidates : list string := ["README.md"; "Readme.md"; "readme.md"; "index.md"].

Fixpoint derive_from (dir : string) (entries : list node) (cands : list string)
  : outcome (option string) :=
  match cands with
  | [] => Ok None
  | c :: later =>
      let p := Path.join dir c in
      match lookup c entries with
      | Some (File _ content) =>
          match name_in_content content with
          | Some name => Ok (Some name)
          | None => derive_from dir entries later
          end
      | Some _ => Throw (ReadFailed p)
      | None => derive_from dir entries later
      end
  end.

Definition deriveNameFromReadme (dir : string) (entries : list node)
  : outcome (option string) :=
  derive_from dir entries candidates.

(** *** [ImportCommand]: tree walker *)

Section Walker.

Context {S : Type}.

(** [onFile filePath content]: the callback, given the path of a regular
    file; [content] is what [fs.readFile(filePath)] returns there. *)
Variable onFile : string -> string -> M S unit.

Fixpoint walk_entry (current : string) (currentDepth : Z) (ent : node) {struct ent}
  : M S unit :=
  let p := Path.join current (node_name ent) in
  match ent with
  | Dir _ entries =>
      if (0 <? currentDepth)%Z
      then for_each (walk_entry p (currentDepth - 1)) entries
      else ret tt
  | File _ content => onFile p content
  | Special _ => ret tt
  end.

(** [walk(current, currentDepth)], [entries] being the listing of [current]. *)
Definition walk (current : string) (currentDepth : Z) (entries : list node) : M S unit :=
  for_each (walk_entry current currentDepth) entries.

Definition walkFiles (root : string) (depth : Z) (entries : list node) : M S unit :=
  walk root (Z.max 0 depth) entries.

End Walker.

(** *** [ImportCommand]: remote reconciler *)

(** [/^\d+$/] and [/\s+/g] *)
Definition re_all_digits : regex := Seq [Bol; Plus true (Chr Js.is_digit); Eol].
Definition re_spaces : regex := Plus true (Chr Js.is_space).

Definition mock_slug (name : string) : string :=
  replace_all false re_spaces [Text "-"] (Js.toLowerCase name).

Definition default_description : string := "Book created by bookstack-cli import".

Definition getTargetBook (bookName : string) (dryRun : bool) : M world Book :=
  if dryRun then ret (mkBook 1 bookName (mock_slug bookName) None)
  else
    byId <- (if test false re_all_digits bookName
             then try_catch (b <- getBook (Js.parseInt bookName) ;; ret (Some (br_book b)))
                            (fun _ => ret None)
             else ret None) ;;
    found <- (match byId with
              | Some b => ret (Some b)
              | None => findBookByName bookName
              end) ;;
    match found with
    | None => createBook bookName default_description
    | Some b => ret b
    end.

Definition getOrCreateChapter (bookId : Z) (name description : string) (dryRun : bool)
  : M world Chapter :=
  if dryRun then ret (mkChapter 1 bookId name (mock_slug name) None)
  else
    existing <- getChapters bookId ;;
    match find (fun c => same_text (chapter_name c) name) existing with
    | Some found => ret found
    | None => createChapter bookId name description
    end.

(** *** [ImportCommand]: orchestrator *)

Definition page_data (bookId : Z) (chapterId : option Z) (filePath content displayName : string)
                     (options : ImportOptions) : PageData :=
  let fileName := Path.basename_ext displayName (Path.extname displayName) in
  let fmt := Js.or_else (opt_format options) (detectFormat filePath) in
  mkPageData bookId chapterId fileName (convertToHtml content fmt)
             (if String.eqb fmt "markdown" then Some content else None).

Definition createPageInBook (bookId : Z) (filePath content displayName : string)
                            (options : ImportOptions) : M world unit :=
  emit (CallCreatePageInBook bookId filePath displayName) ;;
  let pageData := page_data bookId None filePath content displayName options in
  if opt_dryRun options then ret tt
  else (_ <- createPage pageData ;; ret tt).

Definition createPageInChapter (bookId chapterId : Z) (filePath content displayName : string)
                               (options : ImportOptions) : M world unit :=
  emit (CallCreatePageInChapter bookId chapterId filePath displayName) ;;
  let pageData := page_data bookId (Some chapterId) filePath content displayName options in
  if opt_dryRun options then ret tt
  else (_ <- createPage pageData ;; ret tt).

Definition effective_maxDepth (options : ImportOptions) : Z :=
  match opt_maxDepth options with
  | Some d => d
  | None => 10
  end.

Definition incr : M nat unit := modify S.

Definition countFiles (dirPath : string) (items : list node) (options : ImportOptions) : nat :=
  let maxDepth := effective_maxDepth options in
  snd ((for_each (fun item =>
                    match item with
                    | File name _ => if isSupportedFile name then incr else ret tt
                    | _ => ret tt
                    end) items ;;
        for_each (fun item =>
                    let p := Path.join dirPath (node_name item) in
                    match item with
                    | Dir _ entries =>
                        walkFiles (fun file _ => if isSupportedFile file then incr else ret tt)
                                  p (maxDepth - 1) entries
                    | _ => ret tt
                    end) items) 0%nat).

Definition importFilePageData (filePath content : string) (bookId : Z)
                              (options : ImportOptions) : PageData :=
  let fileName := Path.basename_ext filePath (Path.extname filePath) in
  mkPageData bookId None fileName
             (convertToHtml content (Js.or_else (opt_format options) "markdown"))
             (match opt_format options with
              | Some f => if String.eqb f "markdown" then Some content else None
              | None => None
              end).

Definition importFile (filePath content : string) (options : ImportOptions) : M world unit :=
  let fileName := Path.basename_ext filePath (Path.extname filePath) in
  targetBook <- getTargetBook (Js.or_else (opt_book options) fileName) (opt_dryRun options) ;;
  let pageData := importFilePageData filePath content (book_id targetBook) options in
  if opt_dryRun options then ret tt
  else (_ <- createPage pageData ;; ret tt).

Definition chapter_name_for (item : string) (itemPath : string) (entries : list node)
                            (chapterMeta : Metadata) (chapterFrom : string)
  : outcome string :=
  match Js.truthy (meta_name chapterMeta) with
  | Some name => Ok name
  | None =>
      if String.eqb chapterFrom "readme" then
        match deriveNameFromReadme itemPath entries with
        | Ok derived => Ok (Js.or_else derived item)
        | Throw e => Throw e
        end
      else Ok item
  end.

Definition importDirectory (dirPath : string) (items : list node) (options : ImportOptions)
  : M world unit :=
  let bookMeta := readBookMetadata items in
  let bookName :=
    Js.or_else (Js.or_opt (opt_book options) (meta_name bookMeta)) (Path.basename dirPath) in
  targetBook <- getTargetBook bookName (opt_dryRun options) ;;
  (match negb (opt_dryRun options), Js.truthy (meta_description bookMeta) with
   | true, Some description =>
       try_catch (_ <- updateBook (book_id targetBook) description ;; ret tt)
                 (fun _ => ret tt)
   | _, _ => ret tt
   end) ;;
  let total := countFiles dirPath items options in
  emit (ProgressBar total) ;;
  let maxDepth := effective_maxDepth options in
  let chapterFrom := Js.or_else (opt_chapterFrom options) "dir" in
  let flatten := opt_flatten options in
  (* First, import files directly in the root directory as book pages *)
  for_each (fun item =>
              let itemPath := Path.join dirPath (node_name item) in
              match item with
              | File name content =>
                  if isSupportedFile name
                  then createPageInBook (book_id targetBook) itemPath content name options ;;
                       emit Tick
                  else ret tt
              | _ => ret tt
              end) items ;;
  (* Now handle first-level subdirectories *)
  for_each (fun item =>
              let itemPath := Path.join dirPath (node_name item) in
              match item with
              | Dir name entries =>
                  if flatten then
                    walkFiles (fun filePath content =>
                                 if isSupportedFile filePath
                                 then createPageInBook (book_id targetBook) filePath content
                                                       (Path.basename filePath) options ;;
                                      emit Tick
                                 else ret tt)
                              itemPath (maxDepth - 1) entries
                  else
                    let chapterMeta := readChapterMetadata entries in
                    chapterName <- lift (chapter_name_for name itemPath entries
                                                          chapterMeta chapterFrom) ;;
                    chapter <- getOrCreateChapter (book_id targetBook) chapterName
                                 (Js.or_else (meta_description chapterMeta) "")
                                 (opt_dryRun options) ;;
                    walkFiles (fun filePath content =>
                                 if isSupportedFile filePath
                                 then createPageInChapter (book_id targetBook) (chapter_id chapter)
                                                          filePath content
                                                          (Path.basename filePath) options ;;
                                      emit Tick
                                 else ret tt)
                              itemPath (maxDepth - 1) entries
              | _ => ret tt
              end) items.

Definition execute (sourcePath : string) (src : source) (options : ImportOptions)
  : M world unit :=
  (if opt_dryRun options then ret tt
   else
     connected <- testConnection ;;
     if connected then ret tt else throw ConnectFailed) ;;
  match src with
  | SrcMissing => throw (SourceMissing sourcePath)
  | SrcFile content => importFile sourcePath content options
  | SrcDir entries => importDirectory sourcePath entries options
  | SrcOther => throw SourceNotFileOrDir
  end.

(** *** The [book export-contents] action *)

(** [/[^a-zA-Z0-9-_.\s]/g] *)
Definition filename_char (c : ascii) : bool :=
  Js.in_range 97 122 c || Js.in_range 65 90 c || Js.in_range 48 57 c
  || Js.is_char "-"%char c || Js.is_char "_"%char c || Js.is_char "."%char c
  || Js.is_space c.

Definition re_not_filename_char : regex := Chr (fun c => negb (filename_char c)).

Definition sanitize (input : string) : string :=
  Js.slice0 100
    (Js.toLowerCase
       (replace_all false re_spaces [Text "-"]
          (Js.trim
             (replace_all false re_not_filename_char [] (normalize_NFKD input))))).

Definition resolveBookId (bookArg : string) : M world (option Z) :=
  if test false re_all_digits bookArg then ret (Some (Js.parseInt bookArg))
  else
    byNameOrSlug <- findBookByName bookArg ;;
    ret (option_map book_id byNameOrSlug).

Definition file_ext (fmt : string) : string :=
  if String.eqb fmt "plaintext" then "txt"
  else if String.eqb fmt "markdown" then "md"
  else "html".

Definition export_filename (slug name : string) (id : Z) (ext : string) : string :=
  (sanitize (Js.or_else (Some slug) name) ++ "-" ++ Js.show_Z id ++ "." ++ ext)%string.

Definition export_page (dir fmt ext : string) (dryRun : bool) (p : PageItem) : M world unit :=
  let filename := export_filename (pi_slug p) (pi_name p) (pi_id p) ext in
  let outPath := Path.join dir filename in
  (if dryRun then ret tt
   else
     text <- exportPage (pi_id p) fmt ;;
     emit (WriteFile outPath text)) ;;
  emit Tick.

Definition pages_array (ch : ChapterItem) : list PageItem :=
  match ci_pages ch with
  | Some ps => ps
  | None => []
  end.

Definition exportContents (bookArg : string) (opts : ExportOptions) : M world unit :=
  bookId <- resolveBookId bookArg ;;
  match bookId with
  | None => throw (BookNotFound bookArg)
  | Some bookId =>
      book <- getBook bookId ;;
      let slug := Js.or_else (Some (book_slug (br_book book)))
                             ("book-" ++ Js.show_Z bookId)%string in
      let outRoot := Js.or_else (opt_dir opts) ("./" ++ slug)%string in
      let fmt := Js.toLowerCase (opt_export_format opts) in
      if negb (string_in fmt ["markdown"; "html"; "plaintext"]) then throw InvalidFormat
      else
        let ext := file_ext fmt in
        let contents := br_contents book in
        let chapters := chapter_items contents in
        let pages := page_items contents in
        let dryRun := opt_export_dryRun opts in
        (if dryRun then ret tt else emit (EnsureDir outRoot)) ;;
        let total :=
          (length pages
           + fold_left (fun n ch => n + length (pages_array ch)) chapters 0)%nat in
        emit (ProgressBar total) ;;
        (* Export top-level pages *)
        for_each (export_page outRoot fmt ext dryRun) pages ;;
        (* Export chapters & pages *)
        for_each (fun ch =>
                    let chDir :=
                      Path.join outRoot
                        (sanitize (Js.or_else (Some (ci_slug ch)) (ci_name ch))
                         ++ "-" ++ Js.show_Z (ci_id ch))%string in
                    (if dryRun then ret tt else emit (EnsureDir chDir)) ;;
                    for_each (export_page chDir fmt ext dryRun) (pages_array ch))
                 chapters
  end.

(** ** Reading a run *)

(** The files the walker hands to its callback, in order. *)
Fixpoint emitted_entry (current : string) (currentDepth : Z) (ent : node) {struct ent}
  : list (string * string) :=
  let p := Path.join current (node_name ent) in
  match ent with
  | Dir _ entries =>
      if (0 <? currentDepth)%Z
      then flat_map (emitted_entry p (currentDepth - 1)) entries
      else []
  | File _ content => [(p, content)]
  | Special _ => []
  end.

Definition emitted (current : string) (currentDepth : Z) (entries : list node)
  : list (string * string) :=
  flat_map (emitted_entry current currentDepth) entries.

(** The regular files directly inside a directory. *)
Definition direct_files (current : string) (entries : list node) : list (string * string) :=
  flat_map (fun ent =>
              match ent with
              | File name content => [(Path.join current name, content)]
              | _ => []
              end) entries.

Definition supported_paths (files : list (string * string)) : list string :=
  filter isSupportedFile (map fst files).

(** Invocations of [createPageInBook] and [createPageInChapter] in a trace,
    by the path of the file each was called on. *)
Definition page_call_path (e : event) : list string :=
  match e with
  | CallCreatePageInBook _ filePath _ => [filePath]
  | CallCreatePageInChapter _ _ filePath _ => [filePath]
  | _ => []
  end.

Definition page_call_paths (tr : list event) : list string := flat_map page_call_path tr.

Definition page_calls (tr : list event) : nat := length (page_call_paths tr).

Definition is_request (e : event) : bool :=
  match e with
  | Request _ => true
  | _ => false
  end.

(** Requests that create or update something on the remote store. *)
Definition is_write (e : event) : bool :=
  match e with
  | Request (CreateBook _ _) => true
  | Request (UpdateBook _ _) => true
  | Request (CreateChapter _ _ _) => true
  | Request (CreatePage _) => true
  | _ => false
  end.

(** What must not happen when everything goes to the book: a chapter
    created, a page created in a chapter. *)
Definition touches_chapter (e : event) : bool :=
  match e with
  | Request (CreateChapter _ _ _) => true
  | Request (CreatePage data) =>
      match pd_chapter_id data with
      | Some _ => true
      | None => false
      end
  | CallCreatePageInChapter _ _ _ _ => true
  | _ => false
  end.

Definition has_subdirectory (items : list node) : bool :=
  existsb (fun item => match item with Dir _ _ => true | _ => false end) items.

(** No request of the schedule fails in transport. *)
Definition reliable (w : world) : Prop := forallb negb (faults w) = true.

(** The files written by an export, in order. *)
Definition written_files (tr : list event) : list string :=
  flat_map (fun e => match e with WriteFile path _ => [path] | _ => [] end) tr.

(** Root files of an import, and the files below its first-level directories. *)
Definition root_files (dirPath : string) (items : list node) : list string :=
  flat_map (fun item =>
              match item with
              | File name _ =>
                  if isSupportedFile name then [Path.join dirPath name] else []
              | _ => []
              end) items.

Definition nested_files (dirPath : string) (depth : Z) (items : list node) : list string :=
  flat_map (fun item =>
              match item with
              | Dir name entries =>
                  supported_paths (emitted (Path.join dirPath name) (Z.max 0 depth) entries)
              | _ => []
              end) items.

Definition first_level_files (dirPath : string) (items : list node) : list string :=
  flat_map (fun item =>
              match item with
              | Dir name entries =>
                  supported_paths (direct_files (Path.join dirPath name) entries)
              | _ => []
              end) items.

(** ** Vocabulary of the properties *)

(** An entry name as [fs.readdir] returns it: not empty, no slash, and
    neither [.] nor [..]. *)
Definition valid_name (name : string) : bool :=
  negb (String.eqb name "") && negb (String.eqb name ".") && negb (String.eqb name "..")
  && forallb (fun c => negb (Path.is_slash c)) (Js.chars name).

(** A directory whose regular files all bear valid names. *)
Definition well_named (entries : list node) : Prop :=
  forall fname content, In (File fname content) entries -> valid_name fname = true.

(** A string of digits, and only digits. *)
Definition only_digits (name : string) : bool :=
  negb (String.eqb name "") && forallb Js.is_digit (Js.chars name).

(** The character before the cursor once [l] has been read. *)
Definition prev_after (prev : option ascii) (l : list ascii) : option ascii :=
  fold_left (fun _ c => Some c) l prev.

(** The callback of the walker applied to one emitted file. *)
Definition hand_over {S} (onFile : string -> string -> M S unit) (pc : string * string)
  : M S unit :=
  onFile (fst pc) (snd pc).

(** [keeps R m]: whatever the outcome of [m], the world it leaves is related
    by [R] to the world it started from. *)
Definition keeps {A} (R : world -> world -> Prop) (m : M world A) : Prop :=
  forall w o w', m w = (o, w') -> R w w'.

(** [extends P]: the trace grew by events that all satisfy [P]. *)
Definition extends (P : event -> bool) (w w' : world) : Prop :=
  exists new, trace w' = trace w ++ new /\ forallb P new = true.

(** [untouched]: nothing was asked of the remote store. *)
Definition untouched (w w' : world) : Prop :=
  remote w' = remote w /\ faults w' = faults w
  /\ extends (fun e => negb (is_request e)) w w'.

(** Events of a run that keeps every page at the level of the book. *)
Definition book_level (e : event) : bool := negb (touches_chapter e).

(** [starts l1 l2]: [l1] is an initial part of [l2]. *)
Definition starts {A} (l1 l2 : list A) : Prop := exists rest, l2 = l1 ++ rest.

(** [yields paths m]: the calls of [createPageInBook] and
    [createPageInChapter] that [m] makes are, in order, those on [paths]
    when [m] completes, and an initial part of them when [m] throws. *)
Definition yields {A} (paths : list string) (m : M world A) : Prop :=
  forall w o w', m w = (o, w') ->
    exists new,
      trace w' = trace w ++ new
      /\ match o with
         | Ok _ => page_call_paths new = paths
         | Throw _ => starts (page_call_paths new) paths
         end.

(** Events that are no call of [createPageInBook] or [createPageInChapter]. *)
Definition silent (e : event) : bool :=
  match page_call_path e with
  | [] => true
  | _ :: _ => false
  end.

Definition if_supported (p : string) : list string :=
  if isSupportedFile p then [p] else [].

(** [tallies paths m]: [m] always completes and adds one to the counter per
    element of [paths]. *)
Definition tallies (paths : list string) (m : M nat unit) : Prop :=
  forall n, m n = (Ok tt, (n + length paths)%nat).

(** A step that leaves the store alone and sends no create or update. *)
Definition quiet_step (w w' : world) : Prop :=
  remote w' = remote w /\ reliable w'
  /\ exists new, trace w' = trace w ++ new /\ filter is_write new = [].

(** The Book and the Chapter the remote store makes on a create request,
    and the store once it holds them. *)
Definition new_book (name : string) (s : store) : Book :=
  mkBook (next_id s) name (server_slug name) (Some default_description).

Definition with_book (b : Book) (s : store) : store :=
  mkStore (books s ++ [b]) (chapters s) (pages s) (next_id s + 1).

Definition new_chapter (bookId : Z) (name description : string) (s : store) : Chapter :=
  mkChapter (next_id s) bookId name (server_slug name) (Some description).

Definition with_chapter (c : Chapter) (s : store) : store :=
  mkStore (books s) (chapters s ++ [c]) (pages s) (next_id s + 1).

(** The test of [findBookByName]. *)
Definition matches_book (name : string) (book : Book) : bool :=
  same_text (book_name book) name || same_text (book_slug book) name.

(** The Book the lookups of [getTargetBook] settle on in a store. *)
Definition lookup_target (name : string) (s : store) : option Book :=
  or_try (if test false re_all_digits name then find_book (Js.parseInt name) s else None)
         (find (matches_book name) (books s)).


(** The paths handed to [fs.writeFile] in the export scenario. *)
Definition exported_paths : list string :=
  ["docbook/intro-101.md"; "docbook/ch-one-201/pg-a-301.md"].

(** Induction on trees, with the hypothesis on every entry of a directory. *)

Section NodeInduction.

Variable P : node -> Prop.
Hypothesis P_file : forall name content, P (File name content).
Hypothesis P_dir : forall name entries, Forall P entries -> P (Dir name entries).
Hypothesis P_special : forall name, P (Special name).

Fixpoint node_ind_nested (n : node) : P n :=
  match n with
  | File name content => P_file name content
  | Dir name entries =>
      P_dir name entries
            ((fix all (l : list node) : Forall P l :=
                match l with
                | [] => Forall_nil P
                | x :: tl => Forall_cons x (node_ind_nested x) (all tl)
                end) entries)
  | Special name => P_special name
  end.

End NodeInduction.

(** ** More of the program: helpers of the command line and of the UI *)

(** What [escapeHtml] writes for one character. *)
Definition escape_char (c : ascii) : list ascii :=
  if Js.is_char "&"%char c then Js.chars "&amp;"
  else if Js.is_char "<"%char c then Js.chars "&lt;"
  else if Js.is_char ">"%char c then Js.chars "&gt;"
  else if Js.is_char "034"%char c then Js.chars "&quot;"
  else if Js.is_char "039"%char c then Js.chars "&#39;"
  else [c].

(** The characters that open or close markup or an attribute value. *)
Definition is_markup (c : ascii) : bool :=
  Js.is_char "<"%char c || Js.is_char ">"%char c
  || Js.is_char "034"%char c || Js.is_char "039"%char c.

(** The characters a sanitized file name is made of: [a-z0-9._-]. *)
Definition safe_char (c : ascii) : bool :=
  Js.in_range 97 122 c || Js.in_range 48 57 c
  || Js.is_char "-"%char c || Js.is_char "_"%char c || Js.is_char "."%char c.

(** The characters the markdown transform reacts to. *)
Definition is_markdown_char (c : ascii) : bool :=
  Js.is_char "#"%char c || Js.is_char "*"%char c || Js.is_char "["%char c
  || Js.is_char "`"%char c || Js.is_char LF c.

(** [escapeFilterValue] of [src/bookstack-cli.ts]: a value with white
    space is wrapped in double quotes, its own double quotes escaped with a
    backslash. *)
Definition backslash : string := String "092"%char EmptyString.

Definition escapeFilterValue (val : string) : string :=
  if test false (Chr Js.is_space) val
  then (dquote ++ replace_all false (Lit dquote) [Text backslash; Text dquote] val
        ++ dquote)%string
  else val.

(** The part of a joined path that precedes its last portion. *)
Definition dir_prefix (l : list string) : string :=
  match l with
  | [] => ""
  | _ :: _ => (String.concat "/" l ++ "/")%string
  end.

(** A character other than the slash. *)
Definition plain_char (c : ascii) : bool := negb (Path.is_slash c).

(** [opens_with q r]: a match of [r] starts by reading a character that
    satisfies [q]. *)
Fixpoint opens_with (q : ascii -> bool) (r : regex) : Prop :=
  match r with
  | Chr p => forall c, p c = true -> q c = true
  | Cat r1 r2 =>
      match r1 with
      | Bol => opens_with q r2
      | _ => opens_with q r1
      end
  | Grp _ r1 => opens_with q r1
  | _ => False
  end.

(** Text the markdown transform has nothing to do with: none of its
    trigger characters, and no opening angle bracket. *)
Definition plain_text_char (c : ascii) : bool :=
  negb (is_markdown_char c) && negb (Js.is_char "<"%char c).

(** Every regular file below a directory, whatever the depth, in the order
    of the walk. *)
Fixpoint all_files_entry (current : string) (ent : node) {struct ent}
  : list (string * string) :=
  let p := Path.join current (node_name ent) in
  match ent with
  | Dir _ entries => flat_map (all_files_entry p) entries
  | File _ content => [(p, content)]
  | Special _ => []
  end.

Definition all_files (current : string) (entries : list node) : list (string * string) :=
  flat_map (all_files_entry current) entries.

(** Levels of directories at and below an entry: 0 for a file. *)
Fixpoint nesting (ent : node) : Z :=
  match ent with
  | Dir _ entries => 1 + fold_right (fun e h => Z.max (nesting e) h) 0%Z entries
  | _ => 0
  end.

Definition nesting_of (entries : list node) : Z :=
  fold_right (fun e h => Z.max (nesting e) h) 0%Z entries.

(** The same options with another [maxDepth]. *)
Definition with_maxDepth (d : option Z) (o : ImportOptions) : ImportOptions :=
  mkImportOptions (opt_book o) (opt_format o) (opt_dryRun o) d
                  (opt_chapterFrom o) (opt_flatten o).

(** All supported files below the first-level directories. *)
Definition all_nested_files (dirPath : string) (items : list node) : list string :=
  flat_map (fun item =>
              match item with
              | Dir name entries =>
                  supported_paths (all_files (Path.join dirPath name) entries)
              | _ => []
              end) items.

(** ** The progress bar of [ui.ts] *)

(** [createProgressBar(total)] with output enabled: the counter it closes
    over.  What it draws is a function of [current / total]. *)
Record bar : Type := mkBar {
  bar_current : Z;
  bar_total : Z
}.

Definition createProgressBar (total : Z) : bar := mkBar 0 total.

(** [tick(n = 1)] *)
Definition bar_tick (n : Z) (b : bar) : bar :=
  let current := (bar_current b + n)%Z in
  mkBar (if (current >? bar_total b)%Z then bar_total b else current) (bar_total b).

(** [update(n)] *)
Definition bar_update (n : Z) (b : bar) : bar :=
  mkBar (Z.max 0 (Z.min (bar_total b) n)) (bar_total b).

Inductive bar_op : Type :=
| BarTick (n : Z)
| BarUpdate (n : Z).

Definition bar_apply (b : bar) (op : bar_op) : bar :=
  match op with
  | BarTick n => bar_tick n b
  | BarUpdate n => bar_update n b
  end.

Definition steady (op : bar_op) : Prop :=
  match op with
  | BarTick n => (0 <= n)%Z
  | BarUpdate _ => True
  end.

(** The bar as a run drives it: created with its total, then ticked by one. *)
Definition bar_step (b : option bar) (e : event) : option bar :=
  match e with
  | ProgressBar total => Some (createProgressBar (Z.of_nat total))
  | Tick => option_map (bar_tick 1) b
  | _ => b
  end.

Definition bar_of_trace (tr : list event) : option bar := fold_left bar_step tr None.

Definition is_tick (e : event) : bool :=
  match e with
  | Tick => true
  | _ => false
  end.

Definition is_bar (e : event) : bool :=
  match e with
  | ProgressBar _ => true
  | _ => false
  end.

Definition ticks (tr : list event) : nat := length (filter is_tick tr).
Definition bars (tr : list event) : nat := length (filter is_bar tr).

(** [ends Rok Rthrow m]: the events [m] adds to the trace satisfy [Rok]
    when [m] completes and [Rthrow] when it throws. *)
Definition ends {A} (Rok Rthrow : list event -> Prop) (m : M world A) : Prop :=
  forall w o w', m w = (o, w') ->
    exists new,
      trace w' = trace w ++ new
      /\ match o with
         | Ok _ => Rok new
         | Throw _ => Rthrow new
         end.

(** A stretch of a run in which every page call got its tick, and one in
    which the last may not have; neither creates a bar. *)
Definition balanced (new : list event) : Prop :=
  ticks new = page_calls new /\ bars new = 0%nat.

Definition lagging (new : list event) : Prop :=
  (ticks new <= page_calls new)%nat /\ bars new = 0%nat.

(** ** One Book per import *)

(** Requests that read Books, and the one that creates a Book. *)
Definition book_read (e : event) : bool :=
  match e with
  | Request GetBooks => true
  | Request (GetBook _) => true
  | _ => false
  end.

Definition creates_book (e : event) : bool :=
  match e with
  | Request (CreateBook _ _) => true
  | _ => false
  end.

Definition book_lookup (e : event) : bool := book_read e || creates_book e.

(** What a run does once its target Book [id] is settled: it reads,
    updates and fills that Book, and neither lists Books nor creates one. *)
Definition targets (id : Z) (e : event) : bool :=
  match e with
  | Request (GetBook b) => (b =? id)%Z
  | Request (UpdateBook b _) => (b =? id)%Z
  | Request (CreateChapter b _ _) => (b =? id)%Z
  | Request (CreatePage data) => (pd_book_id data =? id)%Z
  | Request _ => false
  | CallCreatePageInBook b _ _ => (b =? id)%Z
  | CallCreatePageInChapter b _ _ _ => (b =? id)%Z
  | ProgressBar _ => true
  | Tick => true
  | EnsureDir _ => false
  | WriteFile _ _ => false
  end.

(** ** Counting what a run adds *)

(** [adds cnt n m]: [m] adds [n] to the count [cnt] of the trace when it
    completes, and no more than [n] when it throws. *)
Definition adds {A} (cnt : list event -> nat) (n : nat) (m : M world A) : Prop :=
  forall w o w', m w = (o, w') ->
    exists new,
      trace w' = trace w ++ new
      /\ match o with
         | Ok _ => cnt new = n
         | Throw _ => (cnt new <= n)%nat
         end.

Definition writes (tr : list event) : nat := length (written_files tr).

(** What the export does before its progress bar: requests, and the
    creation of the root directory. *)
Definition setup (e : event) : bool :=
  match e with
  | Request _ => true
  | EnsureDir _ => true
  | _ => false
  end.

(** What an export leaves outside the remote store, and what it asks the
    store to render. *)
Definition export_effect (e : event) : bool :=
  match e with
  | Request (ExportPage _ _) => true
  | EnsureDir _ => true
  | WriteFile _ _ => true
  | _ => false
  end.

Definition pages_in_chapters (chapters : list ChapterItem) : nat :=
  list_sum (map (fun ch => length (pages_array ch)) chapters).

Definition not_bar (e : event) : bool := negb (is_bar e).

(** The two loops of the export: top-level pages, then chapters. *)
Definition export_loops (outRoot fmt ext : string) (dryRun : bool)
                        (pages : list PageItem) (chapters : list ChapterItem)
  : M world unit :=
  for_each (export_page outRoot fmt ext dryRun) pages ;;
  for_each (fun ch =>
              let chDir :=
                Path.join outRoot
                  (sanitize (Js.or_else (Some (ci_slug ch)) (ci_name ch))
                   ++ "-" ++ Js.show_Z (ci_id ch))%string in
              (if dryRun then ret tt else emit (EnsureDir chDir)) ;;
              for_each (export_page chDir fmt ext dryRun) (pages_array ch))
           chapters.

Definition no_export_effect (e : event) : bool := negb (export_effect e).

(** ** Identifier resolution of the command line *)

(** What [escapeFilterValue] writes for one character of a quoted value. *)
Definition escape_quote (c : ascii) : list ascii :=
  if Js.is_char "034"%char c then Js.chars backslash ++ Js.chars dquote else [c].

(** An item of the array [searchAll] returns. *)
Record SearchResult : Type := mkSearchResult {
  sr_id : Z;
  sr_name : string;
  sr_slug : string;
  sr_type : string
}.

Definition of_type (kind : string) (r : SearchResult) : bool := String.eqb (sr_type r) kind.

(** The choice [resolveChapterId] and [resolvePageId] make among search
    results: exact slug, else exact name, else the only result of the type. *)
Definition pick_result (kind arg : string) (results : list SearchResult) : option Z :=
  match find (fun r => of_type kind r && same_text (sr_slug r) arg) results with
  | Some exactSlug => Some (sr_id exactSlug)
  | None =>
      match find (fun r => of_type kind r && same_text (sr_name r) arg) results with
      | Some exactName => Some (sr_id exactName)
      | None =>
          if (length (filter (of_type kind) results) =? 1)%nat
          then option_map sr_id (find (of_type kind) results)
          else None
      end
  end.

(** [resolveChapterId(client, arg)] and [resolvePageId(client, arg)], the
    search of the client being [searchAll]. *)
Definition resolve_by_search (searchAll : string -> M world (list SearchResult))
                             (kind arg : string) : M world (option Z) :=
  if test false re_all_digits arg then ret (Some (Js.parseInt arg))
  else
    results <- searchAll ("{type:" ++ kind ++ "} " ++ arg)%string ;;
    ret (pick_result kind arg results).

Definition resolveChapterId (searchAll : string -> M world (list SearchResult))
                            (chapterArg : string) : M world (option Z) :=
  resolve_by_search searchAll "chapter" chapterArg.

Definition resolvePageId (searchAll : string -> M world (list SearchResult))
                         (pageArg : string) : M world (option Z) :=
  resolve_by_search searchAll "page" pageArg.


(** ** Pages asked of the remote store *)

Definition in_chapter (data : PageData) : bool :=
  match pd_chapter_id data with
  | Some _ => true
  | None => false
  end.

(** A page as it would be at the level of the Book. *)
Definition detach (data : PageData) : PageData :=
  mkPageData (pd_book_id data) None (pd_name data) (pd_html data) (pd_markdown data).

(** The [createPage] requests of a trace, in order: for each, whether the
    page goes to a chapter, and the page but for its chapter. *)
Definition page_sent (e : event) : list (bool * PageData) :=
  match e with
  | Request (CreatePage data) => [(in_chapter data, detach data)]
  | _ => []
  end.

Definition pages_sent (tr : list event) : list (bool * PageData) := flat_map page_sent tr.

(** The [createPage] requests of a trace as they were sent. *)
Definition page_requests (tr : list event) : list PageData :=
  flat_map (fun e => match e with Request (CreatePage data) => [data] | _ => [] end) tr.

(** [gives proj xs m]: what [proj] reads in the events [m] adds to the
    trace is [xs] when [m] completes, and an initial part of [xs] when it
    throws. *)
Definition gives {A X} (proj : event -> list X) (xs : list X) (m : M world A) : Prop :=
  forall w o w', m w = (o, w') ->
    exists new,
      trace w' = trace w ++ new
      /\ match o with
         | Ok _ => flat_map proj new = xs
         | Throw _ => starts (flat_map proj new) xs
         end.

(** The files a directory import is to make pages of, each with its path,
    its content and the name shown for it: the supported files of the root,
    then those the walker hands over below each first-level directory. *)
Definition root_plan (dirPath : string) (items : list node)
  : list (string * string * string) :=
  flat_map (fun item =>
              match item with
              | File name content =>
                  if isSupportedFile name then [(Path.join dirPath name, content, name)]
                  else []
              | _ => []
              end) items.

Definition walked_plan (files : list (string * string)) : list (string * string * string) :=
  flat_map (fun pc =>
              if isSupportedFile (fst pc)
              then [(fst pc, snd pc, Path.basename (fst pc))]
              else []) files.

Definition nested_plan (dirPath : string) (depth : Z) (items : list node)
  : list (string * string * string) :=
  flat_map (fun item =>
              match item with
              | Dir name entries =>
                  walked_plan (emitted (Path.join dirPath name) (Z.max 0 depth) entries)
              | _ => []
              end) items.

Definition plan_path (f : string * string * string) : string := fst (fst f).

(** The page [createPageInBook] builds for a planned file. *)
Definition planned_page (bookId : Z) (options : ImportOptions)
                        (f : string * string * string) : PageData :=
  page_data bookId None (fst (fst f)) (snd (fst f)) (snd f) options.

Definition planned_pages (dirPath : string) (items : list node) (options : ImportOptions)
                         (bookId : Z) : list (bool * PageData) :=
  map (fun f => (false, planned_page bookId options f)) (root_plan dirPath items)
  ++ map (fun f => (negb (opt_flatten options), planned_page bookId options f))
         (nested_plan dirPath (effective_maxDepth options - 1) items).

(** The name [importDirectory] looks its Book up by. *)
Definition import_book_name (dirPath : string) (items : list node)
                            (options : ImportOptions) : string :=
  Js.or_else (Js.or_opt (opt_book options) (meta_name (readBookMetadata items)))
             (Path.basename dirPath).

(** Events other than a [createPage] request. *)
Definition no_page (e : event) : bool :=
  match e with
  | Request (CreatePage _) => false
  | _ => true
  end.

(** The files of a directory import, in the order they are imported. *)
Definition import_plan (dirPath : string) (items : list node) (options : ImportOptions)
  : list (string * string * string) :=
  root_plan dirPath items ++ nested_plan dirPath (effective_maxDepth options - 1) items.

(** The supported files directly inside the first-level directories. *)
Definition first_level_plan (dirPath : string) (items : list node)
  : list (string * string * string) :=
  flat_map (fun item =>
              match item with
              | Dir name entries => walked_plan (direct_files (Path.join dirPath name) entries)
              | _ => []
              end) items.

(** ** Files by level *)



(** ** Single file, export, search *)

(** The name [importFile] looks its Book up by. *)
Definition file_book_name (filePath : string) (options : ImportOptions) : string :=
  Js.or_else (opt_book options) (Path.basename_ext filePath (Path.extname filePath)).

(** An extension that [detectFormat] reads as html. *)
Definition html_extension (filePath : string) : bool :=
  string_in (Js.toLowerCase (Path.extname filePath)) [".html"; ".htm"].

(** The files an export is to write for a listing, in order: those of the
    top-level pages, then chapter by chapter those of its pages. *)
Definition export_paths (outRoot ext : string) (pages : list PageItem)
                        (chapters : list ChapterItem) : list string :=
  map (fun p => Path.join outRoot (export_filename (pi_slug p) (pi_name p) (pi_id p) ext))
      pages
  ++ flat_map (fun ch =>
                 let chDir :=
                   Path.join outRoot
                     (sanitize (Js.or_else (Some (ci_slug ch)) (ci_name ch))
                      ++ "-" ++ Js.show_Z (ci_id ch))%string in
                 map (fun p => Path.join chDir
                                 (export_filename (pi_slug p) (pi_name p) (pi_id p) ext))
                     (pages_array ch))
              chapters.

Definition file_written (e : event) : list string :=
  match e with
  | WriteFile path _ => [path]
  | _ => []
  end.

(** What a resolution by search comes to: the search failed and so did the
    resolution, or the answer is chosen among its results: it is the id of
    a result of the type asked for; a sole result of that type is the
    answer; a result of that type with the slug asked for makes the answer
    one of these; and there is no answer only when no result of the type
    bears the argument as slug or name. *)
Definition answered_by_search (searchAll : string -> M world (list SearchResult))
                              (kind arg : string) (w : world)
                              (o : outcome (option Z)) (w' : world) : Prop :=
  (exists e, searchAll ("{type:" ++ kind ++ "} " ++ arg)%string w = (Throw e, w')
             /\ o = Throw e)
  \/ exists results answer,
       searchAll ("{type:" ++ kind ++ "} " ++ arg)%string w = (Ok results, w')
       /\ o = Ok answer
       /\ (forall id,
              answer = Some id ->
              exists r, In r results /\ sr_type r = kind /\ sr_id r = id)
       /\ (forall r, filter (of_type kind) results = [r] -> answer = Some (sr_id r))
       /\ (forall r,
              In r results -> sr_type r = kind -> same_text (sr_slug r) arg = true ->
              exists r', In r' results /\ sr_type r' = kind
                         /\ same_text (sr_slug r') arg = true /\ answer = Some (sr_id r'))
       /\ (answer = None ->
           forall r, In r results -> sr_type r = kind ->
                     same_text (sr_slug r) arg = false /\ same_text (sr_name r) arg = false).

(** The directory an export writes to, and the number of pages in the
    listing of its Book, top level and chapters. *)
Definition export_root (bookId : Z) (book : BookRead) (opts : ExportOptions) : string :=
  Js.or_else (opt_dir opts)
             ("./" ++ Js.or_else (Some (book_slug (br_book book)))
                                 ("book-" ++ Js.show_Z bookId))%string.

Definition listed_pages (book : BookRead) : nat :=
  (length (page_items (br_contents book))
   + pages_in_chapters (chapter_items (br_contents book)))%nat.

(** ** The name a README gives, read off its characters

    The definitions below say what a heading and a line are without any
    regular expression; they are what [deriveNameFromReadme] is compared
    with. *)

Fixpoint take_while {A} (p : A -> bool) (l : list A) : list A :=
  match l with
  | x :: tl => if p x then x :: take_while p tl else []
  | [] => []
  end.

Fixpoint drop_while {A} (p : A -> bool) (l : list A) : list A :=
  match l with
  | x :: tl => if p x then drop_while p tl else l
  | [] => []
  end.

(** What is left of [l] once the characters [p] are read off its front. *)
Fixpoint strip_prefix (p l : list ascii) : option (list ascii) :=
  match p, l with
  | [], _ => Some l
  | a :: p', c :: l' => if Ascii.eqb a c then strip_prefix p' l' else None
  | _ :: _, [] => None
  end.

(** The title of the heading whose marks are at the front of [l]: the
    marks, then white space (line breaks count as white space), then the
    title, which runs from the first character that is not white space to
    the end of its line.  When only white space follows the marks up to the
    end of the text, the title is the last white-space character after the
    first that is not a line break, and there is no heading without one. *)
Definition title_at (marks l : list ascii) : option (list ascii) :=
  match strip_prefix marks l with
  | Some (w :: after) =>
      if Js.is_space w then
        match drop_while Js.is_space after with
        | [] => option_map (fun c => [c]) (find Js.dot (rev after))
        | text => Some (take_while Js.dot text)
        end
      else None
  | _ => None
  end.

(** The title of the first heading with these marks; [line_start] tells
    whether [l] begins a line. *)
Fixpoint first_title (marks : list ascii) (line_start : bool) (l : list ascii)
  : option (list ascii) :=
  match (if line_start then title_at marks l else None) with
  | Some t => Some t
  | None =>
      match l with
      | [] => None
      | c :: tl => first_title marks (Js.is_line_terminator c) tl
      end
  end.

(** The lines of a text: they end at LF, and a CR just before that LF is
    not part of the line.  [cur] is the line being read, latest character
    first. *)
Fixpoint lines_from (cur l : list ascii) : list (list ascii) :=
  match l with
  | [] => [rev cur]
  | c :: tl =>
      if Js.is_char LF c then rev cur :: lines_from [] tl
      else
        match tl with
        | c2 :: tl2 =>
            if Js.is_char CR c && Js.is_char LF c2 then rev cur :: lines_from [] tl2
            else lines_from (c :: cur) tl
        | [] => lines_from (c :: cur) tl
        end
  end.

Definition blank (line : list ascii) : bool := forallb Js.is_space line.

(** The name a README of this content gives: the title of its first
    heading of marks [#], else of [##], else of [###], trimmed; without any
    heading its first line that is not blank, trimmed; none when there is
    neither. *)
Definition readme_name (content : string) : option string :=
  let l := Js.chars content in
  match or_try (first_title (Js.chars "#") true l)
               (or_try (first_title (Js.chars "##") true l)
                       (first_title (Js.chars "###") true l)) with
  | Some title => Some (Js.trim (Js.str title))
  | None =>
      option_map (fun line => Js.trim (Js.str line))
                 (find (fun line => negb (blank line)) (lines_from [] l))
  end.


(** The greedy iteration of a character class followed by [k], by
    recursion on the input: the longest run first, then shorter ones. *)
Fixpoint class_run (p : ascii -> bool) (k : mstate -> option mstate)
                   (prev : option ascii) (l : list ascii)
                   (caps : list (nat * list ascii)) : option mstate :=
  match l with
  | c :: tl =>
      if p c then or_try (class_run p k (Some c) tl caps) (k (MState prev l caps))
      else k (MState prev l caps)
  | [] => k (MState prev [] caps)
  end.



(** * Properties *)

(** ** The embedding on concrete inputs *)

Example re_digits_ok : test false (Seq [Bol; Plus true (Chr Js.is_digit); Eol]) "0042" = true.
Proof. reflexivity. Qed.

Example re_digits_ko : test false (Seq [Bol; Plus true (Chr Js.is_digit); Eol]) "42a" = false.
Proof. reflexivity. Qed.

Example re_split_lines :
  split (Cat (Opt (Chr (Js.is_char "013"))) (Chr (Js.is_char "010")))
        (String "a" (String "013" (String "010" (String "010" "b")))) = ["a"; ""; "b"].
Proof. reflexivity. Qed.

Example extname_md : Path.extname "/docs/Intro/page1.md" = ".md".
Proof. reflexivity. Qed.

Example extname_hidden : Path.extname "/docs/.chapter-metadata" = "".
Proof. reflexivity. Qed.

Example extname_hidden_json : Path.extname ".chapter-metadata.json" = ".json".
Proof. reflexivity. Qed.

Example extname_dotdot : Path.extname "a/.." = "".
Proof. reflexivity. Qed.

Example extname_trailing_dot : Path.extname "notes." = ".".
Proof. reflexivity. Qed.

Example basename_page : Path.basename_ext "/docs/Intro/page1.md" ".md" = "page1".
Proof. reflexivity. Qed.

Example join_relative : Path.join "./docbook" "intro-101.md" = "docbook/intro-101.md".
Proof. reflexivity. Qed.

Example join_absolute : Path.join "/srv/docs" "Intro" = "/srv/docs/Intro".
Proof. reflexivity. Qed.

Example join_parent : Path.join "a/b" "../c/" = "a/c/".
Proof. reflexivity. Qed.

Example normalize_above : Path.normalize "../../x/./y//z/.." = "../../x/y".
Proof. reflexivity. Qed.

Example markdown_heading :
  simpleMarkdownToHtml "# Title" = "<h1>Title</h1>".
Proof. reflexivity. Qed.

Example markdown_paragraph :
  simpleMarkdownToHtml "hello **big** *world*, see [docs](http://x.y/z) and `code`"
  = ("<p>hello <strong>big</strong> <em>world</em>, see <a href=" ++ dquote
     ++ "http://x.y/z" ++ dquote ++ ">docs</a> and <code>code</code></p>")%string.
Proof. reflexivity. Qed.

Example markdown_breaks :
  simpleMarkdownToHtml (String "a" (String LF (String LF (String "b" (String LF "c")))))
  = "a</p><p>b<br>c".
Proof. reflexivity. Qed.

Example plain_text_escaped :
  convertToHtml "a < b & c" "text" = "<pre>a &lt; b &amp; c</pre>".
Proof. reflexivity. Qed.

Example supported_upper : isSupportedFile "/docs/NOTES.TXT" = true.
Proof. reflexivity. Qed.

Example unsupported_json : isSupportedFile "/docs/Intro/.chapter-metadata.json" = false.
Proof. reflexivity. Qed.

Example heading_level_1_wins :
  name_in_content ("intro" ++ newline ++ "### c" ++ newline ++ "## b" ++ newline ++ "#  a ")
  = Some "a".
Proof. reflexivity. Qed.

Example heading_level_2_next :
  name_in_content ("intro" ++ newline ++ "### c" ++ newline ++ "## b") = Some "b".
Proof. reflexivity. Qed.

Example heading_level_3_last :
  name_in_content ("intro" ++ newline ++ "### c") = Some "c".
Proof. reflexivity. Qed.

Example first_nonblank_line_otherwise :
  name_in_content (newline ++ "   " ++ newline ++ "  first line  " ++ newline ++ "second")
  = Some "first line".
Proof. reflexivity. Qed.

Example blank_content_names_nothing :
  name_in_content (newline ++ "   " ++ newline) = None.
Proof. reflexivity. Qed.

Example hash_without_space_is_no_heading :
  name_in_content "#tag" = Some "#tag".
Proof. reflexivity. Qed.

(** ** Sequencing and loops *)

Lemma bind_run {S A B} (m : M S A) (f : A -> M S B) (s : S) :
  (x <- m ;; f x) s =
  match m s with
  | (Ok a, s') => f a s'
  | (Throw e, s') => (Throw e, s')
  end.
Proof. reflexivity. Qed.

Lemma for_each_cons {S A} (body : A -> M S unit) (x : A) (xs : list A) (s : S) :
  for_each body (x :: xs) s = (body x ;; for_each body xs) s.
Proof. reflexivity. Qed.

Lemma for_each_app {S A} (body : A -> M S unit) (xs ys : list A) (s : S) :
  for_each body (xs ++ ys) s = (for_each body xs ;; for_each body ys) s.
Proof.
  revert s. induction xs as [|x xs IH]; intros s.
  - reflexivity.
  - change (for_each body ((x :: xs) ++ ys) s)
      with ((body x ;; for_each body (xs ++ ys)) s).
    change ((for_each body (x :: xs) ;; for_each body ys) s)
      with (((body x ;; for_each body xs) ;; for_each body ys) s).
    rewrite !bind_run.
    destruct (body x s) as [[[]|e] s1]; [|reflexivity].
    rewrite IH. rewrite bind_run. reflexivity.
Qed.

Lemma for_each_ext {S A} (f g : A -> M S unit) (xs : list A) :
  (forall x s, In x xs -> f x s = g x s) ->
  forall s, for_each f xs s = for_each g xs s.
Proof.
  induction xs as [|x xs IH]; intros H s.
  - reflexivity.
  - rewrite !for_each_cons, !bind_run.
    rewrite (H x s (or_introl eq_refl)).
    destruct (g x s) as [[[]|e] s1]; [|reflexivity].
    apply IH. intros y s' Hy. apply H. right. exact Hy.
Qed.

Lemma for_each_flat_map {S A B} (body : B -> M S unit) (g : A -> list B) (xs : list A) :
  forall s, for_each body (flat_map g xs) s = for_each (fun x => for_each body (g x)) xs s.
Proof.
  induction xs as [|x xs IH]; intros s.
  - reflexivity.
  - simpl flat_map. rewrite for_each_app, for_each_cons, !bind_run.
    destruct (for_each body (g x) s) as [[[]|e] s1]; [|reflexivity].
    apply IH.
Qed.

(** ** Paths of directory entries

    Joining a valid entry name to a directory leaves it as the last portion
    of the path, so extension and base name are those of the name. *)

Lemma chars_nonempty name :
  String.eqb name "" = false -> exists c tl, Js.chars name = c :: tl.
Proof.
  destruct name as [|c tl]; [discriminate|].
  intros _. exists c, (Js.chars tl). reflexivity.
Qed.

Lemma chars_app a b : Js.chars (a ++ b)%string = Js.chars a ++ Js.chars b.
Proof.
  unfold Js.chars. induction a as [|c a IH]; [reflexivity|].
  simpl. rewrite IH. reflexivity.
Qed.

Lemma str_chars s : Js.str (Js.chars s) = s.
Proof. apply string_of_list_ascii_of_string. Qed.

Lemma segments_from_slash l1 : forall cur l2,
  Path.segments_from cur (l1 ++ Path.slash :: l2)
  = Path.segments_from cur l1 ++ Path.segments_from [] l2.
Proof.
  induction l1 as [|c l1 IH]; intros cur l2.
  - reflexivity.
  - simpl. destruct (Path.is_slash c).
    + rewrite IH. reflexivity.
    + apply IH.
Qed.

Lemma segments_from_plain l : forall cur,
  forallb (fun c => negb (Path.is_slash c)) l = true ->
  Path.segments_from cur l = [rev cur ++ l].
Proof.
  induction l as [|c l IH]; intros cur H.
  - simpl. rewrite app_nil_r. reflexivity.
  - simpl in H. apply andb_true_iff in H. destruct H as [Hc Hl].
    apply negb_true_iff in Hc. simpl. rewrite Hc, (IH _ Hl).
    simpl. rewrite <- app_assoc. reflexivity.
Qed.

Lemma segments_plain name :
  forallb (fun c => negb (Path.is_slash c)) (Js.chars name) = true ->
  Path.segments name = [name].
Proof.
  intros H. unfold Path.segments. rewrite (segments_from_plain _ [] H).
  simpl. rewrite str_chars. reflexivity.
Qed.

Lemma segments_join d name :
  forallb (fun c => negb (Path.is_slash c)) (Js.chars name) = true ->
  Path.segments (d ++ "/" ++ name) = Path.segments d ++ [name].
Proof.
  intros H. unfold Path.segments. rewrite chars_app.
  change (Js.chars ("/" ++ name)) with (Path.slash :: Js.chars name).
  rewrite segments_from_slash, map_app, (segments_from_plain _ [] H).
  simpl. rewrite str_chars. reflexivity.
Qed.

Lemma last_segment_plain name :
  valid_name name = true -> Path.last_segment name = name.
Proof.
  unfold valid_name. intros H.
  apply andb_true_iff in H. destruct H as [H Hplain].
  apply andb_true_iff in H. destruct H as [H _].
  apply andb_true_iff in H. destruct H as [Hne _].
  unfold Path.last_segment. rewrite (segments_plain _ Hplain).
  simpl. unfold Path.nonempty. rewrite Hne. reflexivity.
Qed.

Lemma last_segment_after_slash y name :
  valid_name name = true -> Path.last_segment (y ++ "/" ++ name) = name.
Proof.
  unfold valid_name. intros H.
  apply andb_true_iff in H. destruct H as [H Hplain].
  apply andb_true_iff in H. destruct H as [H _].
  apply andb_true_iff in H. destruct H as [Hne _].
  unfold Path.last_segment. rewrite (segments_join _ _ Hplain), filter_app.
  simpl. unfold Path.nonempty at 2. rewrite Hne. simpl. apply last_last.
Qed.

Lemma string_app_assoc (a b c : string) : ((a ++ b) ++ c = a ++ (b ++ c))%string.
Proof. induction a as [|x a IH]; [reflexivity|]. simpl. rewrite IH. reflexivity. Qed.

Lemma concat_snoc l name :
  String.concat "/" (l ++ [name]) = name
  \/ exists y, String.concat "/" (l ++ [name]) = (y ++ "/" ++ name)%string.
Proof.
  induction l as [|x l IH].
  - left. reflexivity.
  - right. destruct l as [|x' l].
    + exists x. reflexivity.
    + destruct IH as [E | [y E]].
      * exists x. simpl in *. rewrite E. reflexivity.
      * exists (x ++ "/" ++ y)%string. simpl in *. rewrite E.
        rewrite !string_app_assoc. reflexivity.
Qed.

Lemma ends_with_slash_plain y name :
  valid_name name = true -> Path.ends_with_slash (y ++ name) = false.
Proof.
  unfold valid_name. intros H.
  apply andb_true_iff in H. destruct H as [H Hplain].
  apply andb_true_iff in H. destruct H as [H _].
  apply andb_true_iff in H. destruct H as [Hne _].
  apply negb_true_iff in Hne.
  unfold Path.ends_with_slash. rewrite chars_app, rev_app_distr.
  destruct (chars_nonempty name Hne) as [c [tl E]].
  rewrite E in *.
  assert (L : exists x pre, c :: tl = pre ++ [x]).
  { destruct (@exists_last _ (c :: tl)) as [pre [x Ex]]; [discriminate|].
    exists x, pre. exact Ex. }
  destruct L as [x [pre Ex]]. rewrite Ex in *.
  rewrite rev_app_distr. simpl.
  rewrite forallb_app in Hplain. apply andb_true_iff in Hplain.
  destruct Hplain as [_ Hx]. simpl in Hx. rewrite andb_true_r in Hx.
  apply negb_true_iff in Hx. exact Hx.
Qed.

Lemma push_valid allow stack name :
  valid_name name = true -> Path.push_segment allow stack name = name :: stack.
Proof.
  unfold valid_name. intros H.
  apply andb_true_iff in H. destruct H as [H _].
  apply andb_true_iff in H. destruct H as [H Hdd].
  apply andb_true_iff in H. destruct H as [Hne Hd].
  apply negb_true_iff in Hne, Hd, Hdd.
  unfold Path.push_segment. rewrite Hne, Hd, Hdd. reflexivity.
Qed.

Lemma normalizeString_ends p name allow :
  valid_name name = true ->
  Path.segments p = removelast (Path.segments p) ++ [name] ->
  Path.normalizeString p allow = name
  \/ exists y, Path.normalizeString p allow = (y ++ "/" ++ name)%string.
Proof.
  intros Hv Hseg. unfold Path.normalizeString. rewrite Hseg, fold_left_app.
  simpl. rewrite (push_valid _ _ _ Hv). simpl. apply concat_snoc.
Qed.

Lemma not_empty_of_suffix y name :
  valid_name name = true -> String.eqb (y ++ name) "" = false.
Proof.
  unfold valid_name. intros H.
  apply andb_true_iff in H. destruct H as [H _].
  apply andb_true_iff in H. destruct H as [H _].
  apply andb_true_iff in H. destruct H as [Hne _].
  apply negb_true_iff in Hne.
  destruct y; [exact Hne | reflexivity].
Qed.

Lemma valid_nonempty name : valid_name name = true -> String.eqb name "" = false.
Proof. apply (not_empty_of_suffix "" name). Qed.

Lemma normalize_ends p name :
  valid_name name = true ->
  (p = name \/ exists d, p = (d ++ "/" ++ name)%string) ->
  Path.normalize p = name
  \/ exists y, Path.normalize p = (y ++ "/" ++ name)%string.
Proof.
  intros Hv Hp.
  assert (Hplain : forallb (fun c => negb (Path.is_slash c)) (Js.chars name) = true).
  { unfold valid_name in Hv. apply andb_true_iff in Hv. destruct Hv as [_ H]. exact H. }
  assert (Hseg : Path.segments p = removelast (Path.segments p) ++ [name]).
  { destruct Hp as [-> | [d ->]].
    - rewrite (segments_plain _ Hplain). reflexivity.
    - rewrite (segments_join _ _ Hplain). rewrite removelast_last. reflexivity. }
  assert (Hne : String.eqb p "" = false).
  { destruct Hp as [-> | [d ->]].
    - apply valid_nonempty. exact Hv.
    - rewrite <- string_app_assoc. apply not_empty_of_suffix. exact Hv. }
  assert (Hend : Path.ends_with_slash p = false).
  { destruct Hp as [-> | [d ->]].
    - apply (ends_with_slash_plain "" name Hv).
    - rewrite <- string_app_assoc. apply ends_with_slash_plain. exact Hv. }
  unfold Path.normalize. rewrite Hne, Hend.
  destruct (normalizeString_ends p name (negb (Path.starts_with_slash p)) Hv Hseg)
    as [E | [y E]]; rewrite E.
  - rewrite (valid_nonempty name Hv).
    destruct (Path.starts_with_slash p).
    + right. exists "". reflexivity.
    + left. reflexivity.
  - rewrite <- string_app_assoc. rewrite (not_empty_of_suffix _ name Hv).
    rewrite string_app_assoc.
    destruct (Path.starts_with_slash p).
    + right. exists ("/" ++ y)%string. reflexivity.
    + right. exists y. reflexivity.
Qed.

Lemma last_segment_join d name :
  valid_name name = true -> Path.last_segment (Path.join d name) = name.
Proof.
  intros Hv.
  assert (J : Path.join d name = name
              \/ exists y, Path.join d name = (y ++ "/" ++ name)%string).
  { unfold Path.join. rewrite (valid_nonempty name Hv).
    destruct (String.eqb d "").
    - apply normalize_ends; [exact Hv | left; reflexivity].
    - apply normalize_ends; [exact Hv | right; exists d; reflexivity]. }
  destruct J as [-> | [y ->]].
  - apply last_segment_plain. exact Hv.
  - apply last_segment_after_slash. exact Hv.
Qed.

Lemma extname_join d name :
  valid_name name = true -> Path.extname (Path.join d name) = Path.extname name.
Proof.
  intros Hv. unfold Path.extname.
  rewrite (last_segment_join d name Hv), (last_segment_plain name Hv). reflexivity.
Qed.

Lemma basename_join d name :
  valid_name name = true -> Path.basename (Path.join d name) = name.
Proof. intros Hv. apply last_segment_join. exact Hv. Qed.

Lemma isSupportedFile_join d name :
  valid_name name = true -> isSupportedFile (Path.join d name) = isSupportedFile name.
Proof. intros Hv. unfold isSupportedFile. rewrite (extname_join d name Hv). reflexivity. Qed.

Lemma supported_paths_app l1 l2 :
  supported_paths (l1 ++ l2) = supported_paths l1 ++ supported_paths l2.
Proof. unfold supported_paths. rewrite map_app, filter_app. reflexivity. Qed.

Lemma supported_direct_files dir entries :
  well_named entries ->
  supported_paths (direct_files dir entries) = root_files dir entries.
Proof.
  unfold well_named, direct_files, root_files.
  induction entries as [|ent entries IH]; intros H; [reflexivity|].
  simpl flat_map. rewrite supported_paths_app, IH.
  - f_equal. destruct ent as [fname content | name sub | name]; try reflexivity.
    unfold supported_paths. simpl.
    rewrite (isSupportedFile_join dir fname (H fname content (or_introl eq_refl))).
    destruct (isSupportedFile fname); reflexivity.
  - intros fname content Hin. apply (H fname content). right. exact Hin.
Qed.

(** ** The walker hands over the files of [emitted], in order *)

Lemma walk_entry_emitted {S} (onFile : string -> string -> M S unit) (ent : node) :
  forall current d s,
    walk_entry onFile current d ent s
    = for_each (hand_over onFile) (emitted_entry current d ent) s.
Proof.
  induction ent as [name content | name entries IH | name] using node_ind_nested;
    intros current d s.
  - simpl. unfold hand_over. rewrite bind_run. simpl.
    destruct (onFile _ content s) as [[[]|e] s1]; reflexivity.
  - simpl. destruct (0 <? d)%Z; [|reflexivity].
    rewrite for_each_flat_map. apply for_each_ext.
    intros x s' Hx. rewrite Forall_forall in IH. apply IH. exact Hx.
  - reflexivity.
Qed.

Lemma walk_emitted {S} (onFile : string -> string -> M S unit) current d entries s :
  walk onFile current d entries s
  = for_each (hand_over onFile) (emitted current d entries) s.
Proof.
  unfold walk, emitted. rewrite for_each_flat_map. apply for_each_ext.
  intros x s' _. apply walk_entry_emitted.
Qed.

Lemma emitted_no_budget current d entries :
  (d <= 0)%Z -> emitted current d entries = direct_files current entries.
Proof.
  intros Hd. unfold emitted, direct_files.
  induction entries as [|ent entries IH]; [reflexivity|].
  simpl flat_map. rewrite IH. f_equal.
  destruct ent as [name content | name sub | name]; simpl; try reflexivity.
  destruct (0 <? d)%Z eqn:E; [|reflexivity].
  apply Z.ltb_lt in E. lia.
Qed.

(** ** What a run may do to the world

    [keeps R m]: whatever the outcome of [m], the world it leaves is related
    by [R] to the world it started from.  The rules below compose such
    facts along the program text for any reflexive and transitive [R]. *)

Section Keeps.

Variable R : world -> world -> Prop.
Hypothesis R_refl : forall w, R w w.
Hypothesis R_trans : forall w1 w2 w3, R w1 w2 -> R w2 w3 -> R w1 w3.

Lemma keeps_ret {A} (a : A) : keeps R (ret a).
Proof. intros w o w' H. inversion H. apply R_refl. Qed.

Lemma keeps_throw {A} (e : exn) : keeps R (@throw world A e).
Proof. intros w o w' H. inversion H. apply R_refl. Qed.

Lemma keeps_lift {A} (o : outcome A) : keeps R (lift o).
Proof. intros w o' w' H. inversion H. apply R_refl. Qed.

Lemma keeps_bind {A B} (m : M world A) (f : A -> M world B) :
  keeps R m -> (forall a, keeps R (f a)) -> keeps R (x <- m ;; f x).
Proof.
  intros Hm Hf w o w' H. rewrite bind_run in H.
  destruct (m w) as [[a|e] w1] eqn:E.
  - eapply R_trans; [eapply Hm; exact E | eapply Hf; exact H].
  - inversion H; subst. eapply Hm; exact E.
Qed.

Lemma keeps_try_catch {A} (m : M world A) (h : exn -> M world A) :
  keeps R m -> (forall e, keeps R (h e)) -> keeps R (try_catch m h).
Proof.
  intros Hm Hh w o w' H. unfold try_catch in H.
  destruct (m w) as [[a|e] w1] eqn:E.
  - inversion H; subst. eapply Hm; exact E.
  - eapply R_trans; [eapply Hm; exact E | eapply Hh; exact H].
Qed.

Lemma keeps_for_each {A} (body : A -> M world unit) (xs : list A) :
  (forall x, In x xs -> keeps R (body x)) -> keeps R (for_each body xs).
Proof.
  induction xs as [|x xs IH]; intros H.
  - apply keeps_ret.
  - intros w o w' E. rewrite for_each_cons in E. revert w o w' E.
    apply keeps_bind.
    + apply H. left. reflexivity.
    + intros _. apply IH. intros y Hy. apply H. right. exact Hy.
Qed.

Lemma keeps_walkFiles (onFile : string -> string -> M world unit) root depth entries :
  (forall p c, keeps R (onFile p c)) -> keeps R (walkFiles onFile root depth entries).
Proof.
  intros H w o w' E. unfold walkFiles in E. rewrite walk_emitted in E.
  revert w o w' E. apply keeps_for_each. intros [p c] _. apply H.
Qed.

End Keeps.

Lemma extends_refl P w : extends P w w.
Proof. exists []. split; [symmetry; apply app_nil_r | reflexivity]. Qed.

Lemma extends_trans P w1 w2 w3 : extends P w1 w2 -> extends P w2 w3 -> extends P w1 w3.
Proof.
  intros [n1 [E1 F1]] [n2 [E2 F2]]. exists (n1 ++ n2). split.
  - rewrite E2, E1. symmetry. apply app_assoc.
  - rewrite forallb_app, F1, F2. reflexivity.
Qed.

Lemma untouched_refl w : untouched w w.
Proof. repeat split. apply extends_refl. Qed.

Lemma untouched_trans w1 w2 w3 : untouched w1 w2 -> untouched w2 w3 -> untouched w1 w3.
Proof.
  intros [A1 [B1 C1]] [A2 [B2 C2]]. repeat split.
  - congruence.
  - congruence.
  - eapply extends_trans; eassumption.
Qed.

Lemma emit_extends P e : P e = true -> keeps (extends P) (emit e).
Proof.
  intros HP w o w' H. inversion H; subst. exists [e]. split; [reflexivity|].
  simpl. rewrite HP. reflexivity.
Qed.

Lemma emit_untouched e : is_request e = false -> keeps untouched (emit e).
Proof.
  intros HP w o w' H. inversion H; subst. repeat split.
  exists [e]. split; [reflexivity|]. simpl. rewrite HP. reflexivity.
Qed.

Lemma call_trace {A} (r : request) (serve : store -> outcome A * store) w o w' :
  call r serve w = (o, w') -> trace w' = trace w ++ [Request r].
Proof.
  unfold call. intros H.
  destruct (faults w) as [|[|] later]; [destruct (serve (remote w)) | | destruct (serve (remote w))];
    inversion H; reflexivity.
Qed.

Lemma call_extends {A} P (r : request) (serve : store -> outcome A * store) :
  P (Request r) = true -> keeps (extends P) (call r serve).
Proof.
  intros HP w o w' H. exists [Request r]. split.
  - eapply call_trace; exact H.
  - simpl. rewrite HP. reflexivity.
Qed.

(** When the schedule holds no failure, a request is served. *)
Lemma call_reliable {A} (r : request) (serve : store -> outcome A * store) w :
  reliable w ->
  exists w', call r serve w = (fst (serve (remote w)), w')
             /\ remote w' = snd (serve (remote w))
             /\ trace w' = trace w ++ [Request r]
             /\ reliable w'.
Proof.
  unfold reliable, call. intros H.
  destruct (faults w) as [|[|] later] eqn:F.
  - destruct (serve (remote w)) as [o s]. eexists. repeat split; reflexivity.
  - simpl in H. discriminate.
  - simpl in H. destruct (serve (remote w)) as [o s]. eexists. repeat split.
    simpl. exact H.
Qed.

Ltac keeps_rules refl trans :=
  repeat match goal with
    | |- keeps _ (ret _) => apply (keeps_ret _ refl)
    | |- keeps _ (throw _) => apply (keeps_throw _ refl)
    | |- keeps _ (lift _) => apply (keeps_lift _ refl)
    | |- keeps _ (bind _ _) => apply (keeps_bind _ trans); [| intros ?]
    | |- keeps _ (try_catch _ _) => apply (keeps_try_catch _ trans); [| intros ?]
    | |- keeps _ (walkFiles _ _ _ _) => apply (keeps_walkFiles _ refl trans); intros ? ?
    | |- keeps _ (for_each _ _) => apply (keeps_for_each _ refl trans); intros ? _
    | |- keeps _ (match ?x with File _ _ => _ | Dir _ _ => _ | Special _ => _ end) =>
        destruct x
    | |- keeps _ (if ?b then _ else _) => destruct b eqn:?
    | |- keeps _ (match ?x with Some _ => _ | None => _ end) => destruct x
    end.

(** ** Dry run *)

Lemma createPageInBook_dry bookId filePath content displayName options :
  opt_dryRun options = true ->
  keeps untouched (createPageInBook bookId filePath content displayName options).
Proof.
  intros Hdry. unfold createPageInBook. rewrite Hdry.
  keeps_rules untouched_refl untouched_trans.
  apply emit_untouched. reflexivity.
Qed.

Lemma createPageInChapter_dry bookId chapterId filePath content displayName options :
  opt_dryRun options = true ->
  keeps untouched (createPageInChapter bookId chapterId filePath content displayName options).
Proof.
  intros Hdry. unfold createPageInChapter. rewrite Hdry.
  keeps_rules untouched_refl untouched_trans.
  apply emit_untouched. reflexivity.
Qed.

Lemma importFile_dry filePath content options :
  opt_dryRun options = true -> keeps untouched (importFile filePath content options).
Proof.
  intros Hdry. unfold importFile, getTargetBook. rewrite Hdry.
  keeps_rules untouched_refl untouched_trans.
Qed.

Lemma importDirectory_dry dirPath items options :
  opt_dryRun options = true -> keeps untouched (importDirectory dirPath items options).
Proof.
  intros Hdry. unfold importDirectory, getTargetBook, getOrCreateChapter. rewrite Hdry.
  simpl negb. cbv iota.
  keeps_rules untouched_refl untouched_trans;
    try (apply emit_untouched; reflexivity);
    try (apply createPageInBook_dry; exact Hdry);
    try (apply createPageInChapter_dry; exact Hdry).
Qed.

Lemma execute_dry sourcePath src options :
  opt_dryRun options = true -> keeps untouched (execute sourcePath src options).
Proof.
  intros Hdry. unfold execute. rewrite Hdry.
  keeps_rules untouched_refl untouched_trans.
  destruct src; keeps_rules untouched_refl untouched_trans.
  - apply importFile_dry. exact Hdry.
  - apply importDirectory_dry. exact Hdry.
Qed.

Lemma no_request_no_write new :
  forallb (fun e => negb (is_request e)) new = true -> filter is_write new = [].
Proof.
  induction new as [|e new IH]; [reflexivity|].
  simpl. intros H. apply andb_true_iff in H. destruct H as [He Hn].
  destruct e as [r| | | | | |]; try discriminate; simpl; apply IH; exact Hn.
Qed.

(** C2. With [dryRun] set, [ImportCommand.execute] sends no create or
    update request ([createBook], [updateBook], [createChapter],
    [createPage]), whatever the source and the other options, and the remote
    store is left as it was. *)
Theorem dry_run_issues_no_write :
  forall sourcePath src options w o w',
    opt_dryRun options = true ->
    execute sourcePath src options w = (o, w') ->
    remote w' = remote w
    /\ exists new, trace w' = trace w ++ new /\ filter is_write new = [].
Proof.
  intros sourcePath src options w o w' Hdry Hrun.
  destruct (execute_dry sourcePath src options Hdry w o w' Hrun)
    as [Hremote [_ [new [Htrace Hnew]]]].
  split; [exact Hremote|].
  exists new. split; [exact Htrace|]. apply no_request_no_write. exact Hnew.
Qed.

(** ** Flatten mode *)

Ltac book_level_rules :=
  keeps_rules (extends_refl book_level) (extends_trans book_level);
  try (apply call_extends; reflexivity);
  try (apply emit_extends; reflexivity).

Lemma getTargetBook_book_level bookName dryRun :
  keeps (extends book_level) (getTargetBook bookName dryRun).
Proof.
  unfold getTargetBook, findBookByName.
  book_level_rules.
Qed.

Lemma createPageInBook_book_level bookId filePath content displayName options :
  keeps (extends book_level)
        (createPageInBook bookId filePath content displayName options).
Proof. unfold createPageInBook. book_level_rules. Qed.

Lemma importDirectory_flatten_book_level dirPath items options :
  opt_flatten options = true ->
  keeps (extends book_level) (importDirectory dirPath items options).
Proof.
  intros Hflat. unfold importDirectory. rewrite Hflat.
  book_level_rules;
    try apply getTargetBook_book_level;
    try apply createPageInBook_book_level.
Qed.

Lemma testConnection_book_level : keeps (extends book_level) testConnection.
Proof. unfold testConnection. book_level_rules. Qed.

Lemma book_level_filter new :
  forallb book_level new = true -> filter touches_chapter new = [].
Proof.
  induction new as [|e new IH]; [reflexivity|].
  simpl. intros H. apply andb_true_iff in H. destruct H as [He Hn].
  unfold book_level in He. apply negb_true_iff in He. rewrite He. apply IH. exact Hn.
Qed.

(** ** Which files become pages *)

Lemma page_call_paths_app tr1 tr2 :
  page_call_paths (tr1 ++ tr2) = page_call_paths tr1 ++ page_call_paths tr2.
Proof. apply flat_map_app. Qed.

Lemma silent_paths new : forallb silent new = true -> page_call_paths new = [].
Proof.
  induction new as [|e new IH]; [reflexivity|].
  simpl. intros H. apply andb_true_iff in H. destruct H as [He Hn].
  unfold silent in He. destruct (page_call_path e); [|discriminate].
  apply IH. exact Hn.
Qed.

Lemma starts_refl {A} (l : list A) : starts l l.
Proof. exists []. symmetry. apply app_nil_r. Qed.

Lemma starts_length {A} (l1 l2 : list A) : starts l1 l2 -> (length l1 <= length l2)%nat.
Proof. intros [rest ->]. rewrite length_app. lia. Qed.

Lemma yields_silent {A} (m : M world A) : keeps (extends silent) m -> yields [] m.
Proof.
  intros K w o w' H. destruct (K w o w' H) as [new [Htrace Hnew]].
  exists new. split; [exact Htrace|]. rewrite (silent_paths new Hnew).
  destruct o; [reflexivity | apply starts_refl].
Qed.

Lemma yields_ret {A} (a : A) : yields [] (ret a).
Proof.
  intros w o w' H. inversion H. exists [].
  split; [symmetry; apply app_nil_r | reflexivity].
Qed.

Lemma yields_emit e : yields (page_call_path e) (emit e).
Proof.
  intros w o w' H. inversion H; subst. exists [e]. split; [reflexivity|].
  unfold page_call_paths. simpl. apply app_nil_r.
Qed.

Lemma yields_bind {A B} p1 p2 ps (m : M world A) (f : A -> M world B) :
  yields p1 m -> (forall a, yields p2 (f a)) -> ps = p1 ++ p2 ->
  yields ps (x <- m ;; f x).
Proof.
  intros Hm Hf -> w o w' H. rewrite bind_run in H.
  destruct (m w) as [[a|e] w1] eqn:E.
  - destruct (Hm w (Ok a) w1 E) as [n1 [T1 P1]].
    destruct (Hf a w1 o w' H) as [n2 [T2 P2]].
    exists (n1 ++ n2). split.
    + rewrite T2, T1. symmetry. apply app_assoc.
    + rewrite page_call_paths_app, P1.
      destruct o as [b|e].
      * rewrite P2. reflexivity.
      * destruct P2 as [rest ->]. exists rest. apply app_assoc.
  - inversion H; subst o w'.
    destruct (Hm w (Throw e) w1 E) as [n1 [T1 [rest P1]]].
    exists n1. split; [exact T1|].
    exists (rest ++ p2). rewrite P1. symmetry. apply app_assoc.
Qed.

Lemma yields_for_each {A} (g : A -> list string) (body : A -> M world unit) (xs : list A) :
  (forall x, In x xs -> yields (g x) (body x)) ->
  yields (flat_map g xs) (for_each body xs).
Proof.
  induction xs as [|x xs IH]; intros H.
  - apply yields_ret.
  - intros w o w' E. rewrite for_each_cons in E. revert w o w' E.
    apply (yields_bind (g x) (flat_map g xs)).
    + apply H. left. reflexivity.
    + intros _. apply IH. intros y Hy. apply H. right. exact Hy.
    + reflexivity.
Qed.

Lemma supported_paths_flat_map files :
  flat_map (fun pc => if_supported (fst pc)) files = supported_paths files.
Proof.
  unfold supported_paths, if_supported.
  induction files as [|[p c] files IH]; [reflexivity|].
  simpl. destruct (isSupportedFile p); simpl; rewrite IH; reflexivity.
Qed.

Lemma yields_walkFiles (onFile : string -> string -> M world unit) root depth entries :
  (forall p c, yields (if_supported p) (onFile p c)) ->
  yields (supported_paths (emitted root (Z.max 0 depth) entries))
         (walkFiles onFile root depth entries).
Proof.
  intros H w o w' E. unfold walkFiles in E. rewrite walk_emitted in E.
  rewrite <- supported_paths_flat_map.
  revert w o w' E. apply yields_for_each. intros [p c] _. apply H.
Qed.

Ltac silent_rules :=
  keeps_rules (extends_refl silent) (extends_trans silent);
  try (apply call_extends; reflexivity);
  try (apply emit_extends; reflexivity).

Lemma getTargetBook_silent bookName dryRun :
  keeps (extends silent) (getTargetBook bookName dryRun).
Proof. unfold getTargetBook, findBookByName. silent_rules. Qed.

Lemma getOrCreateChapter_silent bookId name description dryRun :
  keeps (extends silent) (getOrCreateChapter bookId name description dryRun).
Proof. unfold getOrCreateChapter, getChapters, getBookContents. silent_rules. Qed.

Lemma createPageInBook_yields bookId filePath content displayName options :
  yields [filePath] (createPageInBook bookId filePath content displayName options).
Proof.
  unfold createPageInBook.
  apply (yields_bind [filePath] []); [apply yields_emit | | reflexivity].
  intros _. apply yields_silent. silent_rules.
Qed.

Lemma createPageInChapter_yields bookId chapterId filePath content displayName options :
  yields [filePath]
         (createPageInChapter bookId chapterId filePath content displayName options).
Proof.
  unfold createPageInChapter.
  apply (yields_bind [filePath] []); [apply yields_emit | | reflexivity].
  intros _. apply yields_silent. silent_rules.
Qed.

Lemma page_callback_yields (create : M world unit) (p : string) :
  yields [p] create ->
  yields (if_supported p) (if isSupportedFile p then create ;; emit Tick else ret tt).
Proof.
  intros H. unfold if_supported. destruct (isSupportedFile p).
  - apply (yields_bind [p] []); [exact H | | reflexivity].
    intros _. apply yields_emit.
  - apply yields_ret.
Qed.

(** The pages of a completed directory import: the supported files of the
    root, then, for each first-level directory in turn, the supported files
    the walker emits within the depth budget. *)
Lemma importDirectory_yields dirPath items options :
  yields (root_files dirPath items
          ++ nested_files dirPath (effective_maxDepth options - 1) items)
         (importDirectory dirPath items options).
Proof.
  unfold importDirectory.
  apply (yields_bind [] (root_files dirPath items
          ++ nested_files dirPath (effective_maxDepth options - 1) items));
    [apply yields_silent; apply getTargetBook_silent | | reflexivity].
  intros targetBook.
  apply (yields_bind [] (root_files dirPath items
          ++ nested_files dirPath (effective_maxDepth options - 1) items));
    [apply yields_silent; silent_rules | | reflexivity].
  intros _.
  apply (yields_bind [] (root_files dirPath items
          ++ nested_files dirPath (effective_maxDepth options - 1) items));
    [apply yields_emit | | reflexivity].
  intros _.
  apply (yields_bind (root_files dirPath items)
          (nested_files dirPath (effective_maxDepth options - 1) items));
    [ | | reflexivity].
  - apply yields_for_each. intros item _.
    destruct item as [name content | name entries | name]; try apply yields_ret.
    destruct (isSupportedFile name); [|apply yields_ret].
    apply (yields_bind [Path.join dirPath name] []); [ | | reflexivity].
    + apply createPageInBook_yields.
    + intros _. apply yields_emit.
  - intros _. apply yields_for_each. intros item _.
    destruct item as [name content | name entries | name]; try apply yields_ret.
    destruct (opt_flatten options).
    + apply yields_walkFiles. intros p c.
      apply page_callback_yields. apply createPageInBook_yields.
    + apply (yields_bind [] (supported_paths
               (emitted (Path.join dirPath name)
                        (Z.max 0 (effective_maxDepth options - 1)) entries)));
        [apply yields_silent; silent_rules | | reflexivity].
      intros chapterName.
      apply (yields_bind [] (supported_paths
               (emitted (Path.join dirPath name)
                        (Z.max 0 (effective_maxDepth options - 1)) entries)));
        [apply yields_silent; apply getOrCreateChapter_silent | | reflexivity].
      intros chapter.
      apply yields_walkFiles. intros p c.
      apply page_callback_yields. apply createPageInChapter_yields.
Qed.

(** ** The count pass *)

Lemma tallies_ret : tallies [] (ret tt).
Proof. intros n. unfold ret. simpl. rewrite Nat.add_0_r. reflexivity. Qed.

Lemma tallies_incr p : tallies [p] incr.
Proof. intros n. unfold incr, modify. simpl. f_equal. lia. Qed.

Lemma tallies_bind p1 p2 (m : M nat unit) (k : M nat unit) :
  tallies p1 m -> tallies p2 k -> tallies (p1 ++ p2) (m ;; k).
Proof.
  intros Hm Hk n. rewrite bind_run, Hm, Hk, length_app. f_equal. lia.
Qed.

Lemma tallies_for_each {A} (g : A -> list string) (body : A -> M nat unit) (xs : list A) :
  (forall x, tallies (g x) (body x)) -> tallies (flat_map g xs) (for_each body xs).
Proof.
  intros H. induction xs as [|x xs IH].
  - apply tallies_ret.
  - intros n. rewrite for_each_cons. revert n.
    apply (tallies_bind (g x) (flat_map g xs)); [apply H | exact IH].
Qed.

Lemma tallies_if_supported p : tallies (if_supported p) (if isSupportedFile p then incr else ret tt).
Proof.
  unfold if_supported. destruct (isSupportedFile p); [apply tallies_incr | apply tallies_ret].
Qed.

Lemma tallies_walkFiles root depth entries :
  tallies (supported_paths (emitted root (Z.max 0 depth) entries))
          (walkFiles (fun file (_ : string) => if isSupportedFile file then incr else ret tt)
                     root depth entries).
Proof.
  intros n. unfold walkFiles. rewrite walk_emitted.
  rewrite <- supported_paths_flat_map. revert n.
  apply tallies_for_each. intros [p c]. apply tallies_if_supported.
Qed.

Lemma countFiles_planned dirPath items options :
  countFiles dirPath items options
  = length (root_files dirPath items
            ++ nested_files dirPath (effective_maxDepth options - 1) items).
Proof.
  unfold countFiles.
  match goal with
  | |- snd (?m 0%nat) = length ?l => assert (T : tallies l m)
  end.
  { apply tallies_bind.
    - unfold root_files. apply tallies_for_each.
      intros [name content | name entries | name]; try apply tallies_ret.
      destruct (isSupportedFile name); [apply tallies_incr | apply tallies_ret].
    - unfold nested_files. apply tallies_for_each.
      intros [name content | name entries | name]; try apply tallies_ret.
      apply tallies_walkFiles. }
  rewrite T. reflexivity.
Qed.

(** C1. Count/execute parity: on any tree, with the same [flatten] and
    [maxDepth], the number [countFiles] returns is the number of
    [createPageInBook] and [createPageInChapter] calls that the execute pass
    of [importDirectory] makes when it runs to completion; a run cut short
    by an exception has made no more calls than that. *)
Theorem count_execute_parity :
  forall dirPath items options w o w',
    importDirectory dirPath items options w = (o, w') ->
    exists new,
      trace w' = trace w ++ new
      /\ (o = Ok tt -> page_calls new = countFiles dirPath items options)
      /\ (page_calls new <= countFiles dirPath items options)%nat.
Proof.
  intros dirPath items options w o w' Hrun.
  destruct (importDirectory_yields dirPath items options w o w' Hrun)
    as [new [Htrace Hpaths]].
  exists new. split; [exact Htrace|].
  unfold page_calls. rewrite countFiles_planned.
  destruct o as [[]|e].
  - rewrite Hpaths. split; [reflexivity | lia].
  - split; [discriminate | apply starts_length; exact Hpaths].
Qed.

Lemma nested_files_no_budget dirPath depth items :
  (depth <= 0)%Z -> nested_files dirPath depth items = first_level_files dirPath items.
Proof.
  intros Hd. unfold nested_files, first_level_files.
  induction items as [|item items IH]; [reflexivity|].
  simpl. rewrite IH. f_equal.
  destruct item as [name content | name entries | name]; try reflexivity.
  rewrite emitted_no_budget; [reflexivity | lia].
Qed.

Lemma first_level_files_by_name dirPath items :
  (forall name entries, In (Dir name entries) items -> well_named entries) ->
  first_level_files dirPath items
  = flat_map (fun item =>
                match item with
                | Dir name entries => root_files (Path.join dirPath name) entries
                | _ => []
                end) items.
Proof.
  unfold first_level_files.
  induction items as [|item items IH]; intros H; [reflexivity|].
  simpl flat_map. rewrite IH.
  - f_equal. destruct item as [fname content | name entries | name]; try reflexivity.
    apply supported_direct_files. apply (H name). left. reflexivity.
  - intros name entries Hin. apply (H name). right. exact Hin.
Qed.

(** ** Find-or-create against a reliable transport *)

Lemma find_app_or {A} (f : A -> bool) (l1 l2 : list A) :
  find f (l1 ++ l2) = or_try (find f l1) (find f l2).
Proof.
  induction l1 as [|x l1 IH]; [reflexivity|].
  simpl. destruct (f x); [reflexivity | exact IH].
Qed.

Lemma getBooks_reliable w :
  reliable w ->
  exists w', getBooks w = (Ok (books (remote w)), w')
             /\ remote w' = remote w /\ reliable w'
             /\ trace w' = trace w ++ [Request GetBooks].
Proof.
  intros H. destruct (call_reliable GetBooks serve_getBooks w H) as [w' [E [Hr [Ht Hrel]]]].
  exists w'. repeat split; assumption.
Qed.

Lemma getBook_reliable id w :
  reliable w ->
  exists w', getBook id w
             = (match find_book id (remote w) with
                | Some b => Ok (mkBookRead b (contents_of (remote w) id))
                | None => Throw NotFound
                end, w')
             /\ remote w' = remote w /\ reliable w'
             /\ trace w' = trace w ++ [Request (GetBook id)].
Proof.
  intros H.
  destruct (call_reliable (GetBook id) (serve_getBook id) w H) as [w' [E [Hr [Ht Hrel]]]].
  exists w'. unfold getBook. rewrite E. unfold serve_getBook in *.
  destruct (find_book id (remote w)); repeat split; assumption.
Qed.

Lemma createBook_reliable name w :
  reliable w ->
  exists w', createBook name default_description w = (Ok (new_book name (remote w)), w')
             /\ remote w' = with_book (new_book name (remote w)) (remote w)
             /\ reliable w'
             /\ trace w' = trace w ++ [Request (CreateBook name default_description)].
Proof.
  intros H.
  destruct (call_reliable (CreateBook name default_description)
                          (serve_createBook name default_description) w H)
    as [w' [E [Hr [Ht Hrel]]]].
  exists w'. repeat split; assumption.
Qed.

Lemma getTargetBook_reuses name w b :
  reliable w ->
  lookup_target name (remote w) = Some b ->
  exists w', getTargetBook name false w = (Ok b, w') /\ quiet_step w w'.
Proof.
  intros Hrel Hlook. unfold lookup_target in Hlook. unfold getTargetBook.
  rewrite bind_run.
  destruct (test false re_all_digits name).
  - unfold try_catch. rewrite bind_run.
    destruct (getBook_reliable (Js.parseInt name) w Hrel) as [w1 [E1 [R1 [L1 T1]]]].
    rewrite E1.
    destruct (find_book (Js.parseInt name) (remote w)) as [b0|] eqn:F.
    + simpl in Hlook. inversion Hlook; subst b0. simpl.
      exists w1. split; [reflexivity|].
      repeat split; try assumption. exists [Request (GetBook (Js.parseInt name))].
      split; [assumption | reflexivity].
    + simpl in Hlook. simpl. unfold findBookByName. rewrite !bind_run.
      destruct (getBooks_reliable w1 L1) as [w2 [E2 [R2 [L2 T2]]]].
      rewrite E2. simpl. rewrite R1.
      change (fun book => same_text (book_name book) name || same_text (book_slug book) name)
        with (matches_book name).
      rewrite Hlook. simpl.
      exists w2. split; [reflexivity|].
      repeat split; try congruence.
      exists [Request (GetBook (Js.parseInt name)); Request GetBooks].
      split; [|reflexivity]. rewrite T2, T1, <- app_assoc. reflexivity.
  - simpl in Hlook. simpl. unfold findBookByName. rewrite !bind_run.
    destruct (getBooks_reliable w Hrel) as [w2 [E2 [R2 [L2 T2]]]].
    rewrite E2. simpl.
    change (fun book => same_text (book_name book) name || same_text (book_slug book) name)
      with (matches_book name).
    rewrite Hlook. simpl.
    exists w2. split; [reflexivity|].
    repeat split; try assumption.
    exists [Request GetBooks]. split; [assumption | reflexivity].
Qed.

Lemma getTargetBook_creates name w :
  reliable w ->
  lookup_target name (remote w) = None ->
  exists w', getTargetBook name false w = (Ok (new_book name (remote w)), w')
             /\ remote w' = with_book (new_book name (remote w)) (remote w)
             /\ reliable w'.
Proof.
  intros Hrel Hlook. unfold lookup_target in Hlook. unfold getTargetBook.
  rewrite bind_run.
  destruct (test false re_all_digits name).
  - unfold try_catch. rewrite bind_run.
    destruct (getBook_reliable (Js.parseInt name) w Hrel) as [w1 [E1 [R1 [L1 T1]]]].
    rewrite E1.
    destruct (find_book (Js.parseInt name) (remote w)) as [b0|] eqn:F;
      [simpl in Hlook; discriminate|].
    simpl in Hlook. simpl. unfold findBookByName. rewrite !bind_run.
    destruct (getBooks_reliable w1 L1) as [w2 [E2 [R2 [L2 T2]]]].
    rewrite E2. simpl. rewrite R1.
    change (fun book => same_text (book_name book) name || same_text (book_slug book) name)
      with (matches_book name).
    rewrite Hlook.
    destruct (createBook_reliable name w2 L2) as [w3 [E3 [R3 [L3 T3]]]].
    rewrite E3. rewrite R2, R1 in *.
    exists w3. repeat split; assumption.
  - simpl in Hlook. simpl. unfold findBookByName. rewrite !bind_run.
    destruct (getBooks_reliable w Hrel) as [w2 [E2 [R2 [L2 T2]]]].
    rewrite E2. simpl.
    change (fun book => same_text (book_name book) name || same_text (book_slug book) name)
      with (matches_book name).
    rewrite Hlook.
    destruct (createBook_reliable name w2 L2) as [w3 [E3 [R3 [L3 T3]]]].
    rewrite E3. rewrite R2 in *.
    exists w3. repeat split; assumption.
Qed.

Lemma same_text_refl s : same_text s s = true.
Proof. unfold same_text. apply String.eqb_refl. Qed.

Lemma lookup_target_after_create name s :
  lookup_target name s = None ->
  exists b, lookup_target name (with_book (new_book name s) s) = Some b
            /\ book_id b = book_id (new_book name s).
Proof.
  unfold lookup_target, find_book. intros H. simpl books.
  rewrite !find_app_or.
  destruct (find (matches_book name) (books s)) as [b0|] eqn:F.
  { destruct (if test false re_all_digits name
              then find (fun b => (book_id b =? Js.parseInt name)%Z) (books s)
              else None); discriminate. }
  destruct (test false re_all_digits name).
  - destruct (find (fun b => (book_id b =? Js.parseInt name)%Z) (books s));
      [discriminate|].
    simpl. destruct (next_id s =? Js.parseInt name)%Z.
    + eexists. split; reflexivity.
    + unfold matches_book. simpl. rewrite same_text_refl. simpl.
      eexists. split; reflexivity.
  - simpl. unfold matches_book. simpl. rewrite same_text_refl. simpl.
    eexists. split; reflexivity.
Qed.

Lemma getTargetBook_twice name w :
  reliable w ->
  exists b w1 b' w2,
    getTargetBook name false w = (Ok b, w1)
    /\ getTargetBook name false w1 = (Ok b', w2)
    /\ book_id b' = book_id b
    /\ quiet_step w1 w2.
Proof.
  intros Hrel.
  destruct (lookup_target name (remote w)) as [b|] eqn:L.
  - destruct (getTargetBook_reuses name w b Hrel L) as [w1 [E1 [R1 [L1 T1]]]].
    assert (L' : lookup_target name (remote w1) = Some b) by (rewrite R1; exact L).
    destruct (getTargetBook_reuses name w1 b L1 L') as [w2 [E2 Q2]].
    exists b, w1, b, w2.
    split; [exact E1 | split; [exact E2 | split; [reflexivity | exact Q2]]].
  - destruct (getTargetBook_creates name w Hrel L) as [w1 [E1 [R1 L1]]].
    destruct (lookup_target_after_create name (remote w) L) as [b' [L' Hid]].
    rewrite <- R1 in L'.
    destruct (getTargetBook_reuses name w1 b' L1 L') as [w2 [E2 Q2]].
    exists (new_book name (remote w)), w1, b', w2.
    split; [exact E1 | split; [exact E2 | split; [exact Hid | exact Q2]]].
Qed.

Lemma chapter_items_contents s bookId :
  chapter_items (contents_of s bookId) = map (chapter_item s) (chapters_of s bookId).
Proof.
  unfold chapter_items, contents_of. rewrite flat_map_app.
  assert (P : forall l : list PageItem,
             flat_map (fun item => match item with ChapterC c => [c] | PageC _ => [] end)
                      (map PageC l) = []).
  { induction l as [|x l IH]; [reflexivity | exact IH]. }
  rewrite P. simpl.
  induction (chapters_of s bookId) as [|c cs IH]; [reflexivity|].
  simpl. rewrite IH. reflexivity.
Qed.

Lemma listed_chapters s bookId :
  map (fun item =>
         mkChapter (ci_id item)
                   (match ci_book_id item with Some b => b | None => bookId end)
                   (ci_name item) (ci_slug item) (ci_description item))
      (chapter_items (contents_of s bookId))
  = chapters_of s bookId.
Proof.
  rewrite chapter_items_contents, map_map.
  rewrite <- (map_id (chapters_of s bookId)) at 2.
  apply map_ext. intros c. destruct c. reflexivity.
Qed.

Lemma getChapters_reliable bookId w :
  reliable w ->
  exists w', getChapters bookId w
             = (match find_book bookId (remote w) with
                | Some _ => Ok (chapters_of (remote w) bookId)
                | None => Throw NotFound
                end, w')
             /\ remote w' = remote w /\ reliable w'
             /\ trace w' = trace w ++ [Request (GetBook bookId)].
Proof.
  intros H.
  destruct (call_reliable (GetBook bookId) (serve_getBook bookId) w H)
    as [w' [E [Hr [Ht Hrel]]]].
  exists w'. unfold getChapters, getBookContents. rewrite !bind_run, E.
  unfold serve_getBook in *.
  destruct (find_book bookId (remote w)); simpl in *.
  - unfold ret. rewrite listed_chapters. repeat split; assumption.
  - repeat split; assumption.
Qed.

Lemma chapters_of_with_chapter bookId name description s :
  chapters_of (with_chapter (new_chapter bookId name description s) s) bookId
  = chapters_of s bookId ++ [new_chapter bookId name description s].
Proof.
  unfold chapters_of, with_chapter. simpl chapters. rewrite filter_app. simpl.
  rewrite Z.eqb_refl. reflexivity.
Qed.

Lemma getOrCreateChapter_reuses bookId name description w b c :
  reliable w ->
  find_book bookId (remote w) = Some b ->
  find (fun c => same_text (chapter_name c) name) (chapters_of (remote w) bookId) = Some c ->
  exists w', getOrCreateChapter bookId name description false w = (Ok c, w')
             /\ quiet_step w w'.
Proof.
  intros Hrel Hbook Hfind. unfold getOrCreateChapter. rewrite bind_run.
  destruct (getChapters_reliable bookId w Hrel) as [w1 [E1 [R1 [L1 T1]]]].
  rewrite E1, Hbook, Hfind.
  exists w1. split; [reflexivity|].
  split; [exact R1|]. split; [exact L1|].
  exists [Request (GetBook bookId)]. split; [exact T1 | reflexivity].
Qed.

Lemma getOrCreateChapter_twice bookId name description w c w1 :
  reliable w ->
  getOrCreateChapter bookId name description false w = (Ok c, w1) ->
  exists c' w2,
    getOrCreateChapter bookId name description false w1 = (Ok c', w2)
    /\ chapter_id c' = chapter_id c
    /\ quiet_step w1 w2.
Proof.
  intros Hrel Hrun. unfold getOrCreateChapter in Hrun. rewrite bind_run in Hrun.
  destruct (getChapters_reliable bookId w Hrel) as [wa [Ea [Ra [La Ta]]]].
  rewrite Ea in Hrun.
  destruct (find_book bookId (remote w)) as [b|] eqn:Hbook; [|discriminate].
  destruct (find (fun c => same_text (chapter_name c) name) (chapters_of (remote w) bookId))
    as [c0|] eqn:Hfind.
  - inversion Hrun; subst c0 wa.
    rewrite <- Ra in Hbook, Hfind.
    destruct (getOrCreateChapter_reuses bookId name description w1 b c La Hbook Hfind)
      as [w2 [E2 Q2]].
    exists c, w2. split; [exact E2 | split; [reflexivity | exact Q2]].
  - destruct (call_reliable (CreateChapter bookId name description)
                            (serve_createChapter bookId name description) wa La)
      as [wb [Eb [Rb [Tb Lb]]]].
    unfold createChapter in Hrun. rewrite Eb in Hrun.
    unfold serve_createChapter in Hrun, Rb. rewrite Ra, Hbook in Hrun, Rb.
    simpl in Hrun, Rb. inversion Hrun; subst c wb.
    fold (new_chapter bookId name description (remote w)) in *.
    fold (with_chapter (new_chapter bookId name description (remote w)) (remote w)) in Rb.
    assert (Hbook' : find_book bookId (remote w1) = Some b).
    { rewrite Rb. exact Hbook. }
    assert (Hfind' : find (fun c => same_text (chapter_name c) name)
                          (chapters_of (remote w1) bookId)
                     = Some (new_chapter bookId name description (remote w))).
    { rewrite Rb, chapters_of_with_chapter, find_app_or, Hfind. simpl.
      rewrite same_text_refl. reflexivity. }
    destruct (getOrCreateChapter_reuses bookId name description w1 b _ Lb Hbook' Hfind')
      as [w2 [E2 Q2]].
    exists (new_chapter bookId name description (remote w)), w2.
    split; [exact E2 | split; [reflexivity | exact Q2]].
Qed.

(** C6. Find-or-create is idempotent: against a transport that does not
    fail, [getTargetBook] called again on the store left by its first call
    returns a Book with the same id and sends no create request, and so does
    [getOrCreateChapter] whenever its first call returned a chapter. *)
Theorem reconcile_idempotent :
  forall (dryRun : bool) (name : string) (w : world),
    reliable w ->
    (exists b w1 b' w2,
        getTargetBook name dryRun w = (Ok b, w1)
        /\ getTargetBook name dryRun w1 = (Ok b', w2)
        /\ book_id b' = book_id b
        /\ remote w2 = remote w1
        /\ exists new, trace w2 = trace w1 ++ new /\ filter is_write new = [])
    /\ (forall bookId description c w1,
           getOrCreateChapter bookId name description dryRun w = (Ok c, w1) ->
           exists c' w2,
             getOrCreateChapter bookId name description dryRun w1 = (Ok c', w2)
             /\ chapter_id c' = chapter_id c
             /\ remote w2 = remote w1
             /\ exists new, trace w2 = trace w1 ++ new /\ filter is_write new = []).
Proof.
  intros dryRun name w Hrel. destruct dryRun.
  - split.
    + exists (mkBook 1 name (mock_slug name) None), w,
             (mkBook 1 name (mock_slug name) None), w.
      repeat split. exists []. split; [symmetry; apply app_nil_r | reflexivity].
    + intros bookId description c w1 H. inversion H; subst.
      exists (mkChapter 1 bookId name (mock_slug name) None), w1.
      repeat split. exists []. split; [symmetry; apply app_nil_r | reflexivity].
  - split.
    + destruct (getTargetBook_twice name w Hrel)
        as [b [w1 [b' [w2 [E1 [E2 [Hid [Hr [_ Hnew]]]]]]]]].
      exists b, w1, b', w2.
      split; [exact E1 | split; [exact E2 | split; [exact Hid | split; [exact Hr | exact Hnew]]]].
    + intros bookId description c w1 H.
      destruct (getOrCreateChapter_twice bookId name description w c w1 Hrel H)
        as [c' [w2 [E2 [Hid [Hr [_ Hnew]]]]]].
      exists c', w2.
      split; [exact E2 | split; [exact Hid | split; [exact Hr | exact Hnew]]].
Qed.

(** ** Numeric identifiers *)

Lemma star_loop_step step greedy k n st :
  star_loop step greedy k (S n) st
  = (let more :=
       step st (fun st' =>
                  if (length (ms_rest st') <? length (ms_rest st))%nat
                  then star_loop step greedy k n st' else None) in
     if greedy then or_try more (k st) else or_try (k st) more).
Proof. reflexivity. Qed.

Lemma run_chr multiline p prev c tl caps k :
  run multiline (Chr p) (MState prev (c :: tl) caps) k
  = if p c then k (MState (Some c) tl caps) else None.
Proof. reflexivity. Qed.

Lemma run_cat multiline r1 r2 st k :
  run multiline (Cat r1 r2) st k
  = run multiline r1 st (fun st' => run multiline r2 st' k).
Proof. reflexivity. Qed.

Lemma run_bol multiline st k :
  run multiline Bol st k = if at_bol multiline st then k st else None.
Proof. reflexivity. Qed.

Lemma run_star multiline greedy r st k :
  run multiline (Star greedy r) st k
  = star_loop (run multiline r) greedy k (S (length (ms_rest st))) st.
Proof. reflexivity. Qed.

Lemma star_takes_all multiline (p : ascii -> bool) (l : list ascii) :
  forall prev caps k r,
    forallb p l = true ->
    k (MState (prev_after prev l) [] caps) = Some r ->
    run multiline (Star true (Chr p)) (MState prev l caps) k = Some r.
Proof.
  induction l as [|c tl IH]; intros prev caps k r Hall Hk.
  - simpl in *. rewrite Hk. reflexivity.
  - simpl in Hall. apply andb_true_iff in Hall. destruct Hall as [Hc Htl].
    specialize (IH (Some c) caps k r Htl Hk).
    rewrite run_star in *. cbn [ms_rest length] in *.
    rewrite star_loop_step. cbv zeta. rewrite run_chr, Hc.
    cbn [ms_rest length].
    assert (L : (length tl <? S (length tl))%nat = true) by (apply Nat.ltb_lt; lia).
    rewrite L, IH. reflexivity.
Qed.

Lemma only_digits_test name :
  only_digits name = true -> test false re_all_digits name = true.
Proof.
  unfold only_digits. intros H. apply andb_true_iff in H. destruct H as [Hne Hall].
  apply negb_true_iff in Hne.
  destruct (chars_nonempty name Hne) as [c [tl Hchars]].
  rewrite Hchars in Hall. simpl in Hall.
  apply andb_true_iff in Hall. destruct Hall as [Hc Htl].
  unfold test, exec. rewrite Hchars.
  assert (A : exists st, attempt false re_all_digits None (c :: tl) = Some st).
  { unfold attempt, re_all_digits, Seq, Plus.
    rewrite run_cat, run_bol. cbn [at_bol ms_prev].
    rewrite !run_cat, run_chr, Hc.
    eexists. apply star_takes_all; [exact Htl | reflexivity]. }
  destruct A as [st A]. unfold search. rewrite A. reflexivity.
Qed.

(** ** Chapter names from a README *)


(** ** Single-file import *)

(** ** Export mirror *)

Lemma call_served {A} (r : request) (serve : store -> outcome A * store) s tr :
  call r serve (mkWorld s [] tr)
  = (fst (serve s), mkWorld (snd (serve s)) [] (tr ++ [Request r])).
Proof. unfold call. simpl. destruct (serve s); reflexivity. Qed.

Lemma emit_run e w :
  emit e w = (Ok tt, mkWorld (remote w) (faults w) (trace w ++ [e])).
Proof. reflexivity. Qed.

Lemma sanitize_ascii t v :
  (forall u, is_ascii u = true -> normalize_NFKD u = u) ->
  is_ascii t = true ->
  Js.slice0 100
    (Js.toLowerCase
       (replace_all false re_spaces [Text "-"]
          (Js.trim (replace_all false re_not_filename_char [] t)))) = v ->
  sanitize t = v.
Proof. intros H Ht Hv. unfold sanitize. rewrite (H t Ht). exact Hv. Qed.

(** C9. Exporting, in markdown and with no output directory given, the
    contents of the Book of slug [docbook] that holds the top-level Page
    (id 101, slug [intro]) and the Chapter (id 201, slug [ch-one]) with its
    Page (id 301, slug [pg-a]) writes exactly two files, named
    sanitize(slug)-id.md: ./docbook/intro-101.md and
    ./docbook/ch-one-201/pg-a-301.md ([path.join] hands them to the file
    system without the leading [./]). *)
Theorem export_scenario_files :
  forall (s : store) (tr : list event) (book : Book) (p1 p2 : Page)
         (name1 name2 chapterName : string) (chapterBook : option Z)
         (chapterDescription : option string),
    (forall t, is_ascii t = true -> normalize_NFKD t = t) ->
    find (matches_book "docbook") (books s) = Some book ->
    book_slug book = "docbook" ->
    find_book (book_id book) s = Some book ->
    contents_of s (book_id book)
    = [PageC (mkPageItem 101 name1 "intro");
       ChapterC (mkChapterItem 201 chapterBook chapterName "ch-one" chapterDescription
                               (Some [mkPageItem 301 name2 "pg-a"]))] ->
    find (fun p => (page_id p =? 101)%Z) (pages s) = Some p1 ->
    find (fun p => (page_id p =? 301)%Z) (pages s) = Some p2 ->
    exists w',
      exportContents "docbook" (mkExportOptions None "markdown" false) (mkWorld s [] tr)
      = (Ok tt, w')
      /\ trace w'
         = tr ++ [Request GetBooks; Request (GetBook (book_id book));
                  EnsureDir "./docbook"; ProgressBar 2;
                  Request (ExportPage 101 "markdown");
                  WriteFile "docbook/intro-101.md" (server_export p1 "markdown"); Tick;
                  EnsureDir "docbook/ch-one-201";
                  Request (ExportPage 301 "markdown");
                  WriteFile "docbook/ch-one-201/pg-a-301.md" (server_export p2 "markdown");
                  Tick]
      /\ written_files (trace w') = written_files tr ++ exported_paths
      /\ exported_paths
         = map Path.normalize
               ["./docbook/intro-101.md"; "./docbook/ch-one-201/pg-a-301.md"].
Proof.
  intros s tr book p1 p2 name1 name2 chapterName chapterBook chapterDescription
         Hnfkd Hfind Hslug Hbook Hcontents Hp1 Hp2.
  unfold exportContents, resolveBookId.
  change (test false re_all_digits "docbook") with false. cbv iota.
  unfold findBookByName, getBooks. rewrite !bind_run, call_served.
  unfold serve_getBooks at 1 2. cbn [fst snd ret].
  change (fun book0 => same_text (book_name book0) "docbook"
                       || same_text (book_slug book0) "docbook")
    with (matches_book "docbook").
  rewrite Hfind. cbn [option_map]. cbv iota beta.
  rewrite bind_run. unfold getBook. rewrite call_served. unfold serve_getBook.
  rewrite Hbook. cbn [fst snd br_book br_contents]. rewrite Hslug, Hcontents.
  change (Js.or_else (Some "docbook") ("book-" ++ Js.show_Z (book_id book))%string)
    with "docbook".
  cbn [opt_dir opt_export_format opt_export_dryRun].
  change (Js.or_else None ("./" ++ "docbook")%string) with "./docbook".
  change (Js.toLowerCase "markdown") with "markdown".
  change (negb (string_in "markdown" ["markdown"; "html"; "plaintext"])) with false.
  cbv iota.
  change (file_ext "markdown") with "md".
  cbn [chapter_items page_items flat_map app pages_array ci_pages length fold_left Nat.add].
  rewrite bind_run, emit_run. cbn [remote faults trace].
  rewrite bind_run, emit_run. cbn [remote faults trace].
  rewrite bind_run.
  change (for_each ?f [?x] ?w) with (bind (f x) (fun _ => ret tt) w).
  rewrite bind_run. unfold export_page at 1. cbn [pi_id pi_name pi_slug].
  unfold export_filename.
  change (Js.or_else (Some "intro") name1) with "intro".
  rewrite (sanitize_ascii "intro" "intro" Hnfkd eq_refl eq_refl).
  change (Js.show_Z 101) with "101".
  change (Path.join "./docbook" ("intro" ++ "-" ++ "101" ++ "." ++ "md")%string)
    with "docbook/intro-101.md".
  rewrite !bind_run. unfold exportPage. rewrite call_served. unfold serve_exportPage.
  rewrite Hp1. cbn [fst snd]. rewrite emit_run. cbn [remote faults trace].
  rewrite emit_run. cbn [remote faults trace ret].
  cbn [ci_slug ci_name ci_id ci_pages pages_array].
  change (Js.or_else (Some "ch-one") chapterName) with "ch-one".
  rewrite (sanitize_ascii "ch-one" "ch-one" Hnfkd eq_refl eq_refl).
  change (Js.show_Z 201) with "201".
  change (Path.join "./docbook" ("ch-one" ++ "-" ++ "201")%string)
    with "docbook/ch-one-201".
  rewrite !bind_run, emit_run. cbn [remote faults trace].
  change (for_each ?f [?x] ?w) with (bind (f x) (fun _ => ret tt) w).
  rewrite bind_run. unfold export_page at 1. cbn [pi_id pi_name pi_slug].
  unfold export_filename.
  change (Js.or_else (Some "pg-a") name2) with "pg-a".
  rewrite (sanitize_ascii "pg-a" "pg-a" Hnfkd eq_refl eq_refl).
  change (Js.show_Z 301) with "301".
  change (Path.join "docbook/ch-one-201" ("pg-a" ++ "-" ++ "301" ++ "." ++ "md")%string)
    with "docbook/ch-one-201/pg-a-301.md".
  rewrite !bind_run. unfold exportPage. rewrite call_served. unfold serve_exportPage.
  rewrite Hp2. cbn [fst snd]. rewrite emit_run. cbn [remote faults trace].
  rewrite emit_run. cbn [remote faults trace ret].
  eexists. split; [reflexivity|]. cbn [trace].
  split; [rewrite <- !app_assoc; reflexivity|].
  split; [|reflexivity].
  unfold written_files. rewrite !flat_map_app. cbn [flat_map app].
  rewrite !app_nil_r, <- !app_assoc. reflexivity.
Qed.


(** * More properties of the code *)

(** ** The matcher *)

Lemma chars_str l : Js.chars (Js.str l) = l.
Proof. apply list_ascii_of_string_of_list_ascii. Qed.

Lemma star_loop_answers step greedy k n st :
  (forall st', k st' <> None) -> star_loop step greedy k n st <> None.
Proof.
  intros Hk. destruct n as [|n]; [apply Hk|].
  rewrite star_loop_step. cbv zeta.
  destruct greedy; unfold or_try.
  - destruct (step st _); [discriminate | apply Hk].
  - destruct (k st) eqn:E; [discriminate | exfalso; exact (Hk st E)].
Qed.

(** A successful run hands to its continuation a position further in the
    same input. *)
Lemma run_advances multiline r :
  forall st k res,
    run multiline r st k = Some res ->
    exists st' pre, k st' = Some res /\ ms_rest st = pre ++ ms_rest st'.
Proof.
  induction r as [ | p | r1 IH1 r2 IH2 | r1 IH1 r2 IH2 | greedy r IH | i r IH | | ];
    intros st k res H.
  - exists st, []. split; [exact H | reflexivity].
  - simpl in H. destruct (ms_rest st) as [|c tl] eqn:E; [discriminate|].
    destruct (p c); [|discriminate].
    eexists. exists [c]. split; [exact H | reflexivity].
  - simpl in H. destruct (IH1 _ _ _ H) as [st1 [pre1 [H1 L1]]].
    destruct (IH2 _ _ _ H1) as [st2 [pre2 [H2 L2]]].
    exists st2, (pre1 ++ pre2). split; [exact H2|].
    rewrite L1, L2. apply app_assoc.
  - simpl in H. unfold or_try in H.
    destruct (run multiline r1 st k) eqn:E.
    + inversion H; subst. apply (IH1 _ _ _ E).
    + apply (IH2 _ _ _ H).
  - rewrite run_star in H.
    remember (S (length (ms_rest st))) as n eqn:Hn. clear Hn.
    revert st res H. induction n as [|n IHn]; intros st res H.
    + exists st, []. split; [exact H | reflexivity].
    + rewrite star_loop_step in H. cbv zeta in H.
      assert (More : forall res',
                 run multiline r st
                     (fun st' => if (length (ms_rest st') <? length (ms_rest st))%nat
                                 then star_loop (run multiline r) greedy k n st'
                                 else None) = Some res' ->
                 exists st' pre, k st' = Some res' /\ ms_rest st = pre ++ ms_rest st').
      { intros res' E. destruct (IH _ _ _ E) as [st1 [pre1 [H1 L1]]].
        destruct (length (ms_rest st1) <? length (ms_rest st))%nat; [|discriminate].
        destruct (IHn _ _ H1) as [st2 [pre2 [H2 L2]]].
        exists st2, (pre1 ++ pre2). split; [exact H2|].
        rewrite L1, L2. apply app_assoc. }
      destruct greedy; unfold or_try in H.
      * destruct (run multiline r st _) eqn:E.
        -- inversion H; subst. apply More. reflexivity.
        -- exists st, []. split; [exact H | reflexivity].
      * destruct (k st) eqn:E.
        -- inversion H; subst. exists st, []. split; [exact E | reflexivity].
        -- apply More. exact H.
  - simpl in H. destruct (IH _ _ _ H) as [st1 [pre1 [H1 L1]]].
    eexists. exists pre1. split; [exact H1|]. simpl. exact L1.
  - simpl in H. destruct (at_bol multiline st); [|discriminate].
    exists st, []. split; [exact H | reflexivity].
  - simpl in H. destruct (at_eol multiline st); [|discriminate].
    exists st, []. split; [exact H | reflexivity].
Qed.

Lemma attempt_suffix multiline r prev l st :
  attempt multiline r prev l = Some st -> exists pre, l = pre ++ ms_rest st.
Proof.
  unfold attempt. intros H. destruct (run_advances _ _ _ _ _ H) as [st' [pre [E L]]].
  inversion E; subst. exists pre. exact L.
Qed.

(** ** Global replacement *)

(** Every character of the result comes from the replacement text or is a
    character of the input at which no match starts. *)
Lemma replace_from_keeps (Pin P : ascii -> Prop) multiline r tpl :
  (forall caps, Forall P (expand tpl caps)) ->
  (forall prev c tl, Pin c -> attempt multiline r prev (c :: tl) = None -> P c) ->
  (forall prev l st, attempt multiline r prev l = Some st ->
                     (length (ms_rest st) < length l)%nat) ->
  forall fuel prev l,
    (length l < fuel)%nat -> Forall Pin l ->
    Forall P (replace_from fuel multiline r tpl prev l).
Proof.
  intros Hout Hfail Hprogress. induction fuel as [|fuel IH]; intros prev l Hlen Hin; [lia|].
  simpl. destruct (attempt multiline r prev l) as [st|] eqn:E.
  - pose proof (Hprogress _ _ _ E) as Hlt.
    apply Nat.ltb_lt in Hlt. rewrite Hlt. apply Nat.ltb_lt in Hlt.
    destruct (attempt_suffix _ _ _ _ _ E) as [pre Hpre].
    apply Forall_app. split; [apply Hout|]. apply IH; [lia|].
    rewrite Hpre in Hin. apply Forall_app in Hin. apply Hin.
  - destruct l as [|c tl]; [constructor|].
    inversion Hin; subst.
    constructor; [eapply Hfail; eassumption | apply IH; [simpl in Hlen; lia | assumption]].
Qed.

(** A pattern that matches exactly one character of a class rewrites the
    input character by character. *)
Lemma replace_from_charwise multiline r tpl (p : ascii -> bool) out :
  (forall prev l,
      attempt multiline r prev l
      = match l with
        | [] => None
        | c :: tl => if p c then Some (MState (Some c) tl []) else None
        end) ->
  expand tpl [] = out ->
  forall fuel prev l,
    (length l < fuel)%nat ->
    replace_from fuel multiline r tpl prev l
    = flat_map (fun c => if p c then out else [c]) l.
Proof.
  intros Hone Hout. induction fuel as [|fuel IH]; intros prev l Hlen; [lia|].
  simpl. rewrite Hone. destruct l as [|c tl]; [reflexivity|].
  simpl in Hlen. destruct (p c) eqn:Hc.
  - cbn [ms_rest ms_caps ms_prev length].
    assert (L : (length tl <? S (length tl))%nat = true) by (apply Nat.ltb_lt; lia).
    rewrite L, Hout. cbn [flat_map]. rewrite Hc. f_equal. apply IH. lia.
  - cbn [flat_map]. rewrite Hc. simpl. f_equal. apply IH. lia.
Qed.

(** Where no match can start, the input is left as it is. *)
Lemma replace_from_no_match multiline r tpl (q : ascii -> bool) :
  (forall prev l, attempt multiline r prev l <> None ->
                  exists c tl, l = c :: tl /\ q c = true) ->
  forall fuel prev l,
    (length l < fuel)%nat ->
    forallb (fun c => negb (q c)) l = true ->
    replace_from fuel multiline r tpl prev l = l.
Proof.
  intros Hneeds. induction fuel as [|fuel IH]; intros prev l Hlen Hall; [lia|].
  simpl. destruct (attempt multiline r prev l) as [st|] eqn:E.
  - exfalso. destruct (Hneeds prev l) as [c [tl [-> Hq]]]; [rewrite E; discriminate|].
    simpl in Hall. rewrite Hq in Hall. discriminate.
  - destruct l as [|c tl]; [reflexivity|].
    simpl in Hall, Hlen. apply andb_true_iff in Hall. destruct Hall as [_ Hall].
    f_equal. apply IH; [lia | exact Hall].
Qed.

Lemma attempt_one_char multiline (c : ascii) prev l :
  attempt multiline (Lit (String c EmptyString)) prev l
  = match l with
    | [] => None
    | x :: tl => if Js.is_char c x then Some (MState (Some x) tl []) else None
    end.
Proof. destruct l as [|x tl]; [reflexivity|]. unfold attempt. simpl. reflexivity. Qed.

Lemma attempt_class multiline (p : ascii -> bool) prev l :
  attempt multiline (Chr p) prev l
  = match l with
    | [] => None
    | x :: tl => if p x then Some (MState (Some x) tl []) else None
    end.
Proof. destruct l as [|x tl]; reflexivity. Qed.

Lemma replace_one_char (c : ascii) (out : string) (s : string) :
  Js.chars (replace_all false (Lit (String c EmptyString)) [Text out] s)
  = flat_map (fun x => if Js.is_char c x then Js.chars out else [x]) (Js.chars s).
Proof.
  unfold replace_all. rewrite chars_str.
  apply (replace_from_charwise false _ _ (Js.is_char c) (Js.chars out)).
  - intros prev l. apply attempt_one_char.
  - simpl. apply app_nil_r.
  - lia.
Qed.

(** ** [escapeHtml] *)

Lemma flat_map_flat_map {A B C} (f : B -> list C) (g : A -> list B) (l : list A) :
  flat_map f (flat_map g l) = flat_map (fun x => flat_map f (g x)) l.
Proof.
  induction l as [|x l IH]; [reflexivity|].
  simpl. rewrite flat_map_app, IH. reflexivity.
Qed.

Lemma escapeHtml_charwise text :
  Js.chars (escapeHtml text) = flat_map escape_char (Js.chars text).
Proof.
  unfold escapeHtml, dquote, squote.
  rewrite !replace_one_char, !flat_map_flat_map.
  apply flat_map_ext. intros c.
  destruct c as [[] [] [] [] [] [] [] []]; reflexivity.
Qed.

Lemma escape_char_no_markup c : forallb (fun x => negb (is_markup x)) (escape_char c) = true.
Proof. destruct c as [[] [] [] [] [] [] [] []]; reflexivity. Qed.

Lemma forallb_flat_map {A B} (p : B -> bool) (f : A -> list B) (l : list A) :
  (forall x, forallb p (f x) = true) -> forallb p (flat_map f l) = true.
Proof.
  intros H. induction l as [|x l IH]; [reflexivity|].
  simpl. rewrite forallb_app, H, IH. reflexivity.
Qed.

(** X1. [escapeHtml] rewrites its input character by character (ampersand,
    angle brackets and both quotes become entities, every other character
    stays), so its result holds no angle bracket and no quote; the
    plain-text branch of [convertToHtml] is that text between [<pre>] and
    [</pre>]. *)
Theorem escapeHtml_leaves_no_markup :
  forall text format,
    Js.chars (escapeHtml text) = flat_map escape_char (Js.chars text)
    /\ forallb (fun c => negb (is_markup c)) (Js.chars (escapeHtml text)) = true
    /\ (String.eqb format "html" = false -> String.eqb format "markdown" = false ->
        convertToHtml text format = ("<pre>" ++ escapeHtml text ++ "</pre>")%string).
Proof.
  intros text format. split; [apply escapeHtml_charwise|]. split.
  - rewrite escapeHtml_charwise. apply forallb_flat_map. apply escape_char_no_markup.
  - intros H1 H2. unfold convertToHtml. rewrite H1, H2. reflexivity.
Qed.

(** ** [sanitize] *)

Lemma plus_class_fails multiline (p : ascii -> bool) prev c tl :
  attempt multiline (Plus true (Chr p)) prev (c :: tl) = None -> p c = false.
Proof.
  unfold attempt, Plus. rewrite run_cat, run_chr.
  destruct (p c); [|reflexivity].
  intros H. exfalso. revert H. rewrite run_star. apply star_loop_answers.
  intros st'. discriminate.
Qed.

Lemma plus_class_progress multiline (p : ascii -> bool) prev l st :
  attempt multiline (Plus true (Chr p)) prev l = Some st ->
  (length (ms_rest st) < length l)%nat.
Proof.
  unfold attempt, Plus. rewrite run_cat. destruct l as [|c tl]; [discriminate|].
  rewrite run_chr. destruct (p c); [|discriminate].
  intros H. destruct (run_advances _ _ _ _ _ H) as [st' [pre [E L]]].
  inversion E; subst st'. simpl in L.
  apply (f_equal (@length ascii)) in L. rewrite length_app in L. simpl. lia.
Qed.

Lemma drop_spaces_keeps (P : ascii -> Prop) l : Forall P l -> Forall P (Js.drop_spaces l).
Proof.
  induction l as [|c l IH]; intros H; [constructor|].
  simpl. destruct (Js.is_space c); [|exact H].
  inversion H; subst. apply IH. assumption.
Qed.

Lemma trim_keeps (P : ascii -> Prop) s :
  Forall P (Js.chars s) -> Forall P (Js.chars (Js.trim s)).
Proof.
  intros H. unfold Js.trim. rewrite chars_str.
  apply Forall_rev. apply drop_spaces_keeps. apply Forall_rev.
  apply drop_spaces_keeps. exact H.
Qed.

Lemma lower_safe c :
  filename_char c = true -> Js.is_space c = false -> safe_char (Js.lower_char c) = true.
Proof.
  destruct c as [[] [] [] [] [] [] [] []]; vm_compute; intros H1 H2;
    first [reflexivity | discriminate H1 | discriminate H2].
Qed.

Lemma in_firstn {A} (x : A) n l : In x (firstn n l) -> In x l.
Proof.
  revert l. induction n as [|n IH]; intros l H; [contradiction|].
  destruct l as [|y l]; [contradiction|].
  simpl in H. destruct H as [H|H]; [left; exact H | right; apply IH; exact H].
Qed.

Lemma strip_unsafe_chars s :
  Js.chars (replace_all false re_not_filename_char [] s)
  = filter filename_char (Js.chars s).
Proof.
  unfold replace_all. rewrite chars_str.
  rewrite (replace_from_charwise false re_not_filename_char []
             (fun c => negb (filename_char c)) []).
  - induction (Js.chars s) as [|c l IH]; [reflexivity|].
    simpl. destruct (filename_char c); simpl; rewrite IH; reflexivity.
  - intros prev l. apply attempt_class.
  - reflexivity.
  - lia.
Qed.

Lemma sanitize_safe_chars input :
  forallb safe_char (Js.chars (sanitize input)) = true.
Proof.
  unfold sanitize, Js.slice0.
  rewrite chars_str. apply forallb_forall. intros c Hc.
  apply in_firstn in Hc. unfold Js.toLowerCase in Hc. rewrite chars_str in Hc.
  apply in_map_iff in Hc. destruct Hc as [x [<- Hx]].
  set (stripped := replace_all false re_not_filename_char [] (normalize_NFKD input)) in *.
  assert (Hstripped : Forall (fun c => filename_char c = true) (Js.chars stripped)).
  { unfold stripped. rewrite strip_unsafe_chars. apply Forall_forall.
    intros y Hy. apply filter_In in Hy. apply Hy. }
  assert (Htrimmed : Forall (fun c => filename_char c = true)
                            (Js.chars (Js.trim stripped))).
  { apply trim_keeps. exact Hstripped. }
  assert (Hjoined : Forall (fun c => filename_char c = true /\ Js.is_space c = false)
                           (Js.chars (replace_all false re_spaces [Text "-"]
                                                  (Js.trim stripped)))).
  { unfold replace_all. rewrite chars_str.
    apply (replace_from_keeps (fun c => filename_char c = true)).
    - intros caps. simpl. repeat constructor.
    - intros prev y tl Hy Hfail. split; [exact Hy|].
      apply (plus_class_fails _ _ _ _ _ Hfail).
    - intros prev l st. apply plus_class_progress.
    - lia.
    - exact Htrimmed. }
  rewrite Forall_forall in Hjoined. destruct (Hjoined x Hx) as [H1 H2].
  apply lower_safe; assumption.
Qed.

(** X2. Whatever its input, [sanitize] returns at most 100 characters, all
    of them lower-case letters, digits, hyphen, underscore or dot: no
    slash, no white space, no upper-case letter. *)
Theorem sanitize_is_safe :
  forall input,
    (String.length (sanitize input) <= 100)%nat
    /\ forallb safe_char (Js.chars (sanitize input)) = true.
Proof.
  intros input. split; [|apply sanitize_safe_chars].
  unfold sanitize, Js.slice0.
  rewrite <- (str_chars (Js.str _)). rewrite chars_str.
  assert (L : forall l, String.length (Js.str l) = length l).
  { induction l as [|c l IH]; [reflexivity | simpl; rewrite IH; reflexivity]. }
  rewrite L. apply firstn_le_length.
Qed.

(** ** Names and paths of exported files *)

Lemma digit_char_is_digit n : Js.is_digit (ascii_of_nat (48 + n mod 10)) = true.
Proof.
  assert (H : (n mod 10 < 10)%nat) by (apply Nat.mod_upper_bound; lia).
  destruct (n mod 10) as [|k]; [reflexivity|].
  do 9 (destruct k as [|k]; [reflexivity|]). lia.
Qed.

Lemma digits_of_digits fuel : forall n acc,
  forallb Js.is_digit acc = true -> forallb Js.is_digit (Js.digits_of fuel n acc) = true.
Proof.
  induction fuel as [|fuel IH]; intros n acc H; [exact H|].
  cbn [Js.digits_of]. cbv zeta. destruct (n <? 10)%nat.
  - cbn [forallb]. rewrite digit_char_is_digit. exact H.
  - apply IH. cbn [forallb]. rewrite digit_char_is_digit. exact H.
Qed.

Lemma digit_plain c : Js.is_digit c = true -> plain_char c = true.
Proof.
  destruct c as [[] [] [] [] [] [] [] []]; vm_compute; intros H;
    first [reflexivity | discriminate H].
Qed.

Lemma safe_plain c : safe_char c = true -> plain_char c = true.
Proof.
  destruct c as [[] [] [] [] [] [] [] []]; vm_compute; intros H;
    first [reflexivity | discriminate H].
Qed.

Lemma forallb_impl {A} (p q : A -> bool) l :
  (forall x, p x = true -> q x = true) -> forallb p l = true -> forallb q l = true.
Proof.
  intros H. induction l as [|x l IH]; [reflexivity|].
  simpl. intros E. apply andb_true_iff in E. destruct E as [E1 E2].
  rewrite (H x E1), (IH E2). reflexivity.
Qed.

Lemma show_Z_plain z : forallb plain_char (Js.chars (Js.show_Z z)) = true.
Proof.
  unfold Js.show_Z.
  assert (D : forallb plain_char
                (Js.chars (Js.str (Js.digits_of (S (Z.abs_nat z)) (Z.abs_nat z) [])))
              = true).
  { rewrite chars_str. apply (forallb_impl Js.is_digit); [apply digit_plain|].
    apply digits_of_digits. reflexivity. }
  destruct (z <? 0)%Z; [|exact D].
  rewrite chars_app, forallb_app, D. reflexivity.
Qed.

Lemma file_ext_cases fmt : file_ext fmt = "txt" \/ file_ext fmt = "md" \/ file_ext fmt = "html".
Proof.
  unfold file_ext. destruct (String.eqb fmt "plaintext"); [left; reflexivity|].
  destruct (String.eqb fmt "markdown"); right; [left | right]; reflexivity.
Qed.

Lemma append_nil s : (s ++ "")%string = s.
Proof. induction s as [|c s IH]; [reflexivity | simpl; rewrite IH; reflexivity]. Qed.

Lemma stem_valid stem id suffix :
  forallb plain_char (Js.chars suffix) = true ->
  valid_name (sanitize stem ++ "-" ++ Js.show_Z id ++ suffix) = true.
Proof.
  intros Hsuffix.
  set (f := (sanitize stem ++ "-" ++ Js.show_Z id ++ suffix)%string).
  assert (Hin : In "-"%char (Js.chars f)).
  { unfold f. rewrite chars_app. apply in_or_app. right. left. reflexivity. }
  assert (Hplain : forallb plain_char (Js.chars f) = true).
  { unfold f. rewrite !chars_app, !forallb_app, Hsuffix, show_Z_plain.
    rewrite (forallb_impl safe_char plain_char _ safe_plain
               (sanitize_safe_chars stem)).
    reflexivity. }
  unfold valid_name. fold plain_char. rewrite Hplain.
  destruct (String.eqb_spec f "") as [E|_].
  { rewrite E in Hin. contradiction. }
  destruct (String.eqb_spec f ".") as [E|_].
  { rewrite E in Hin. simpl in Hin. destruct Hin as [H|[]]. discriminate H. }
  destruct (String.eqb_spec f "..") as [E|_].
  { rewrite E in Hin. simpl in Hin. destruct Hin as [H|[H|[]]]; discriminate H. }
  reflexivity.
Qed.

Lemma concat_snoc_prefix l name :
  String.concat "/" (l ++ [name]) = (dir_prefix l ++ name)%string.
Proof.
  induction l as [|x l IH]; [reflexivity|].
  destruct l as [|y l].
  - simpl. rewrite string_app_assoc. reflexivity.
  - change (String.concat "/" ((x :: y :: l) ++ [name]))
      with (x ++ "/" ++ String.concat "/" ((y :: l) ++ [name]))%string.
    rewrite IH. unfold dir_prefix.
    change (String.concat "/" (x :: y :: l))
      with (x ++ "/" ++ String.concat "/" (y :: l))%string.
    rewrite !string_app_assoc. reflexivity.
Qed.

Lemma starts_with_slash_app d rest :
  String.eqb d "" = false ->
  Path.starts_with_slash (d ++ rest) = Path.starts_with_slash d.
Proof. destruct d; [discriminate | reflexivity]. Qed.

Lemma valid_not_absolute name : valid_name name = true -> Path.starts_with_slash name = false.
Proof.
  unfold valid_name. intros H.
  apply andb_true_iff in H. destruct H as [H Hplain].
  destruct name as [|c name]; [reflexivity|].
  simpl in Hplain. apply andb_true_iff in Hplain. destruct Hplain as [Hc _].
  apply negb_true_iff in Hc. exact Hc.
Qed.

Lemma valid_plain name :
  valid_name name = true ->
  forallb (fun c => negb (Path.is_slash c)) (Js.chars name) = true.
Proof. unfold valid_name. intros H. apply andb_true_iff in H. apply H. Qed.

(** All valid names joined to one directory get the same prefix. *)
Lemma join_common_prefix d :
  exists pre, forall name, valid_name name = true -> Path.join d name = (pre ++ name)%string.
Proof.
  destruct (String.eqb d "") eqn:Hd.
  - exists "". intros name Hv. unfold Path.join. rewrite Hd, (valid_nonempty name Hv).
    unfold Path.normalize. rewrite (valid_nonempty name Hv), (valid_not_absolute name Hv).
    pose proof (ends_with_slash_plain "" name Hv) as He.
    change ("" ++ name)%string with name in He. rewrite He.
    unfold Path.normalizeString. rewrite (segments_plain name (valid_plain name Hv)).
    simpl fold_left. rewrite (push_valid _ _ _ Hv). simpl.
    rewrite (valid_nonempty name Hv). reflexivity.
  - exists ((if Path.starts_with_slash d then "/" else "")
            ++ dir_prefix (rev (fold_left (Path.push_segment
                                             (negb (Path.starts_with_slash d)))
                                          (Path.segments d) [])))%string.
    intros name Hv. unfold Path.join. rewrite Hd, (valid_nonempty name Hv).
    unfold Path.normalize.
    assert (Hne : String.eqb (d ++ "/" ++ name) "" = false).
    { rewrite <- string_app_assoc. apply not_empty_of_suffix. exact Hv. }
    assert (Hend : Path.ends_with_slash (d ++ "/" ++ name) = false).
    { rewrite <- string_app_assoc. apply ends_with_slash_plain. exact Hv. }
    rewrite Hne, Hend, (starts_with_slash_app d _ Hd).
    unfold Path.normalizeString.
    rewrite (segments_join d name (valid_plain name Hv)), fold_left_app.
    simpl fold_left. rewrite (push_valid _ _ _ Hv). simpl rev.
    rewrite concat_snoc_prefix, (not_empty_of_suffix _ name Hv).
    destruct (Path.starts_with_slash d); simpl negb; cbv iota.
    + rewrite !string_app_assoc. reflexivity.
    + reflexivity.
Qed.

(** X3. The files of an export land directly in their directory: a file
    name [sanitize(x)-id.ext] and a chapter directory name [sanitize(x)-id]
    are valid entry names (not empty, no slash, neither [.] nor [..]),
    whatever the slug or name they come from, and joined to a directory
    they are its last portion, after a prefix that depends on the directory
    alone. *)
Theorem export_paths_stay_in_directory :
  forall dir,
  exists pre,
    forall slug name id fmt,
      let filename := export_filename slug name id (file_ext fmt) in
      let dirname := (sanitize (Js.or_else (Some slug) name) ++ "-" ++ Js.show_Z id)%string in
      valid_name filename = true
      /\ valid_name dirname = true
      /\ Path.join dir filename = (pre ++ filename)%string
      /\ Path.join dir dirname = (pre ++ dirname)%string
      /\ Path.basename (Path.join dir filename) = filename.
Proof.
  intros dir. destruct (join_common_prefix dir) as [pre Hpre]. exists pre.
  intros slug name id fmt filename dirname.
  assert (Hf : valid_name filename = true).
  { unfold filename, export_filename.
    apply (stem_valid _ id ("." ++ file_ext fmt)).
    destruct (file_ext_cases fmt) as [-> | [-> | ->]]; reflexivity. }
  assert (Hd : valid_name dirname = true).
  { unfold dirname.
    pose proof (stem_valid (Js.or_else (Some slug) name) id "" eq_refl) as H.
    rewrite append_nil in H. exact H. }
  split; [exact Hf|]. split; [exact Hd|].
  split; [apply Hpre; exact Hf|]. split; [apply Hpre; exact Hd|].
  apply basename_join. exact Hf.
Qed.

(** ** The markdown transform on text without markdown *)

Lemma run_opens multiline (q : ascii -> bool) r :
  forall st k res,
    opens_with q r ->
    run multiline r st k = Some res ->
    exists c tl, ms_rest st = c :: tl /\ q c = true.
Proof.
  induction r as [ | p | r1 IH1 r2 IH2 | r1 IH1 r2 IH2 | greedy r IH | i r IH | | ];
    intros st k res Hopen Hrun; try contradiction.
  - simpl in Hopen, Hrun. destruct (ms_rest st) as [|c tl]; [discriminate|].
    destruct (p c) eqn:Hp; [|discriminate].
    exists c, tl. split; [reflexivity | apply Hopen; exact Hp].
  - rewrite run_cat in Hrun.
    destruct r1; cbn [opens_with] in Hopen;
      try (exact (IH1 st _ res Hopen Hrun)); try contradiction.
    rewrite run_bol in Hrun. destruct (at_bol multiline st); [|discriminate].
    exact (IH2 st k res Hopen Hrun).
  - simpl in Hopen, Hrun. exact (IH st _ res Hopen Hrun).
Qed.

Lemma replace_all_untouched (q : ascii -> bool) multiline r tpl s :
  opens_with q r ->
  forallb (fun c => negb (q c)) (Js.chars s) = true ->
  replace_all multiline r tpl s = s.
Proof.
  intros Hopen Hall. unfold replace_all.
  rewrite (replace_from_no_match multiline r tpl q).
  - apply str_chars.
  - intros prev l Hsome. unfold attempt in Hsome.
    destruct (run multiline r (MState prev l []) Some) as [res|] eqn:E; [|contradiction].
    exact (run_opens multiline q r _ _ _ Hopen E).
  - lia.
  - exact Hall.
Qed.

Lemma includes_needs_first (x : ascii) t l :
  forallb (fun c => negb (Js.is_char x c)) l = true ->
  Js.includes_chars (x :: t) l = false.
Proof.
  induction l as [|b l IH]; intros H; [reflexivity|].
  simpl in H. apply andb_true_iff in H. destruct H as [Hb Hl].
  apply negb_true_iff in Hb. unfold Js.is_char in Hb.
  simpl. rewrite Hb, (IH Hl). reflexivity.
Qed.

Lemma opens_with_char (x : ascii) (q : ascii -> bool) :
  q x = true -> forall c, Js.is_char x c = true -> q c = true.
Proof.
  intros Hq c Hc. unfold Js.is_char in Hc. apply Ascii.eqb_eq in Hc. subst c. exact Hq.
Qed.

Ltac opens_with_char_tac :=
  cbv [re_header re_emphasis re_link re_fence re_code Seq Lit Plus Js.chars];
  cbn [list_ascii_of_string lit_chars opens_with];
  apply opens_with_char; reflexivity.

(** X4. Text without [#], [*], [[], backquote, line feed and [<] goes
    through [simpleMarkdownToHtml] unchanged and comes out as one
    paragraph; that is also what [convertToHtml] makes of it for the
    format [markdown]. *)
Theorem markdown_plain_paragraph :
  forall text,
    forallb plain_text_char (Js.chars text) = true ->
    simpleMarkdownToHtml text = ("<p>" ++ text ++ "</p>")%string
    /\ convertToHtml text "markdown" = ("<p>" ++ text ++ "</p>")%string.
Proof.
  intros text Hplain.
  assert (Hmd : forallb (fun c => negb (is_markdown_char c)) (Js.chars text) = true).
  { apply (forallb_impl plain_text_char); [|exact Hplain].
    intros c Hc. unfold plain_text_char in Hc. apply andb_true_iff in Hc. apply Hc. }
  assert (Hlt : forallb (fun c => negb (Js.is_char "<"%char c)) (Js.chars text) = true).
  { apply (forallb_impl plain_text_char); [|exact Hplain].
    intros c Hc. unfold plain_text_char in Hc. apply andb_true_iff in Hc. apply Hc. }
  assert (U : forall multiline r tpl,
             opens_with is_markdown_char r -> replace_all multiline r tpl text = text).
  { intros multiline r tpl Hr.
    exact (replace_all_untouched is_markdown_char multiline r tpl text Hr Hmd). }
  assert (E : simpleMarkdownToHtml text = ("<p>" ++ text ++ "</p>")%string).
  { unfold simpleMarkdownToHtml. cbv zeta.
    rewrite (U true (re_header "### ")) by opens_with_char_tac.
    rewrite (U true (re_header "## ")) by opens_with_char_tac.
    rewrite (U true (re_header "# ")) by opens_with_char_tac.
    rewrite (U false (re_emphasis "***")) by opens_with_char_tac.
    rewrite (U false (re_emphasis "**")) by opens_with_char_tac.
    rewrite (U false (re_emphasis "*")) by opens_with_char_tac.
    rewrite (U false re_link) by opens_with_char_tac.
    rewrite (U false re_fence) by opens_with_char_tac.
    rewrite (U false re_code) by opens_with_char_tac.
    rewrite (U false (Cat (Chr (Js.is_char LF)) (Chr (Js.is_char LF))))
      by opens_with_char_tac.
    rewrite (U false (Chr (Js.is_char LF))) by opens_with_char_tac.
    unfold Js.includes.
    change (Js.chars "<p>") with ("<"%char :: Js.chars "p>").
    change (Js.chars "<h1>") with ("<"%char :: Js.chars "h1>").
    change (Js.chars "<h2>") with ("<"%char :: Js.chars "h2>").
    change (Js.chars "<h3>") with ("<"%char :: Js.chars "h3>").
    rewrite !(includes_needs_first "<"%char _ _ Hlt). reflexivity. }
  split; [exact E|]. unfold convertToHtml.
  change (String.eqb "markdown" "html") with false.
  change (String.eqb "markdown" "markdown") with true.
  cbv iota. exact E.
Qed.

(** ** The depth budget of the walker *)

Lemma nesting_of_nonneg entries : (0 <= nesting_of entries)%Z.
Proof. induction entries as [|e l IH]; simpl; lia. Qed.

Lemma nesting_of_bounds entries e :
  In e entries -> (nesting e <= nesting_of entries)%Z.
Proof.
  induction entries as [|x l IH]; intros Hin; [contradiction|].
  destruct Hin as [-> | Hin]; simpl; [lia|]. specialize (IH Hin). lia.
Qed.

Lemma flat_map_ext_in {A B} (f g : A -> list B) (l : list A) :
  (forall x, In x l -> f x = g x) -> flat_map f l = flat_map g l.
Proof.
  induction l as [|x l IH]; intros H; [reflexivity|].
  simpl. rewrite (H x (or_introl eq_refl)), IH; [reflexivity|].
  intros y Hy. apply H. right. exact Hy.
Qed.

Lemma emitted_entry_saturated ent :
  forall current d,
    (nesting ent <= d)%Z -> emitted_entry current d ent = all_files_entry current ent.
Proof.
  induction ent as [name content | name entries IH | name] using node_ind_nested;
    intros current d Hd; try reflexivity.
  change (nesting (Dir name entries)) with (1 + nesting_of entries)%Z in Hd.
  pose proof (nesting_of_nonneg entries) as Hpos.
  cbn [emitted_entry all_files_entry node_name].
  assert (Hlt : (0 <? d)%Z = true) by (apply Z.ltb_lt; lia).
  rewrite Hlt. apply flat_map_ext_in. intros e He.
  rewrite Forall_forall in IH. apply (IH e He).
  pose proof (nesting_of_bounds entries e He). lia.
Qed.

Lemma emitted_saturated current d entries :
  (nesting_of entries <= d)%Z -> emitted current d entries = all_files current entries.
Proof.
  intros Hd. unfold emitted, all_files. apply flat_map_ext_in. intros e He.
  apply emitted_entry_saturated. pose proof (nesting_of_bounds entries e He). lia.
Qed.

Lemma incl_flat_map {A B} (f g : A -> list B) (l : list A) :
  Forall (fun x => incl (f x) (g x)) l -> incl (flat_map f l) (flat_map g l).
Proof.
  induction 1 as [|x l Hx _ IH]; [apply incl_refl|].
  simpl. apply incl_app; [apply incl_appl; exact Hx | apply incl_appr; exact IH].
Qed.

Lemma emitted_entry_incl ent :
  forall current d, incl (emitted_entry current d ent) (all_files_entry current ent).
Proof.
  induction ent as [name content | name entries IH | name] using node_ind_nested;
    intros current d; try apply incl_refl.
  cbn [emitted_entry all_files_entry node_name].
  destruct (0 <? d)%Z; [|intros x []].
  apply incl_flat_map. apply Forall_forall. intros e He.
  rewrite Forall_forall in IH. apply (IH e He).
Qed.

Lemma supported_paths_incl l1 l2 :
  incl l1 l2 -> incl (supported_paths l1) (supported_paths l2).
Proof.
  intros H p Hp. unfold supported_paths in *.
  apply filter_In in Hp. destruct Hp as [Hp Hs]. apply filter_In. split; [|exact Hs].
  apply in_map_iff in Hp. destruct Hp as [x [<- Hx]]. apply in_map. apply H. exact Hx.
Qed.

Lemma nested_files_incl dirPath depth items :
  incl (nested_files dirPath depth items) (all_nested_files dirPath items).
Proof.
  unfold nested_files, all_nested_files. apply incl_flat_map. apply Forall_forall.
  intros [name content | name entries | name] _; try apply incl_refl.
  apply supported_paths_incl. unfold emitted, all_files.
  apply incl_flat_map. apply Forall_forall. intros e _. apply emitted_entry_incl.
Qed.

Lemma nested_files_saturated dirPath depth items :
  (forall name entries, In (Dir name entries) items -> (nesting_of entries <= depth)%Z) ->
  nested_files dirPath depth items = all_nested_files dirPath items.
Proof.
  intros H. unfold nested_files, all_nested_files. apply flat_map_ext_in.
  intros [name content | name entries | name] Hin; try reflexivity.
  rewrite emitted_saturated; [reflexivity|]. specialize (H name entries Hin). lia.
Qed.

(** X6. A budget that covers the tree loses nothing: when no first-level
    directory nests folders deeper than [maxDepth - 1] levels, a completed
    directory import calls page creation on the supported files of the
    root and then on every supported file below the first-level
    directories, in walk order.  Whatever the budget, it calls page
    creation on no other file. *)
Theorem deep_enough_budget_imports_everything :
  forall dirPath items options w w',
    (forall name entries,
        In (Dir name entries) items ->
        (nesting_of entries <= effective_maxDepth options - 1)%Z) ->
    importDirectory dirPath items options w = (Ok tt, w') ->
    exists new,
      trace w' = trace w ++ new
      /\ page_call_paths new = root_files dirPath items ++ all_nested_files dirPath items.
Proof.
  intros dirPath items options w w' Hdeep Hrun.
  destruct (importDirectory_yields dirPath items options w (Ok tt) w' Hrun)
    as [new [Htrace Hpaths]].
  exists new. split; [exact Htrace|].
  rewrite Hpaths, (nested_files_saturated _ _ _ Hdeep). reflexivity.
Qed.

(** X7. Whatever the budget and however the run ends, every file page
    creation is called on is a supported file of the root or a supported
    file below a first-level directory: the walk skips files, it never
    adds any. *)
Theorem import_calls_only_files_of_the_tree :
  forall dirPath items options w o w',
    importDirectory dirPath items options w = (o, w') ->
    exists new,
      trace w' = trace w ++ new
      /\ incl (page_call_paths new)
              (root_files dirPath items ++ all_nested_files dirPath items).
Proof.
  intros dirPath items options w o w' Hrun.
  destruct (importDirectory_yields dirPath items options w o w' Hrun)
    as [new [Htrace Hpaths]].
  exists new. split; [exact Htrace|].
  assert (Hall : incl (root_files dirPath items
                       ++ nested_files dirPath (effective_maxDepth options - 1) items)
                      (root_files dirPath items ++ all_nested_files dirPath items)).
  { apply incl_app; [apply incl_appl; apply incl_refl|].
    apply incl_appr. apply nested_files_incl. }
  destruct o as [[]|e].
  - rewrite Hpaths. exact Hall.
  - destruct Hpaths as [rest Hrest]. intros p Hp. apply Hall. rewrite Hrest.
    apply in_or_app. left. exact Hp.
Qed.

(** X8. A [maxDepth] of 1, of 0 or below 0 is all the same to the
    directory import: the walker never gets a negative budget, so the run
    and its trace are those of [maxDepth = 0]. *)
Theorem max_depth_below_two_is_zero :
  forall dirPath items options d w,
    (d <= 1)%Z ->
    importDirectory dirPath items (with_maxDepth (Some d) options) w
    = importDirectory dirPath items (with_maxDepth (Some 0%Z) options) w.
Proof.
  intros dirPath items options d w Hd.
  assert (E : Z.max 0 (d - 1) = Z.max 0 (0 - 1)) by lia.
  unfold importDirectory, countFiles, walkFiles, createPageInBook, createPageInChapter,
    page_data, effective_maxDepth.
  cbn [with_maxDepth opt_book opt_format opt_dryRun opt_maxDepth opt_chapterFrom
       opt_flatten].
  rewrite E. reflexivity.
Qed.

(** ** What a run adds to the trace, by outcome *)

Lemma bind_inv {S A B} (m : M S A) (f : A -> M S B) s o s' :
  (x <- m ;; f x) s = (o, s') ->
  (exists a s1, m s = (Ok a, s1) /\ f a s1 = (o, s'))
  \/ (exists e, m s = (Throw e, s') /\ o = Throw e).
Proof.
  rewrite bind_run. destruct (m s) as [[a|e] s1]; intros H.
  - left. exists a, s1. split; [reflexivity | exact H].
  - right. exists e. inversion H. split; reflexivity.
Qed.

Section Ends.

Variables Rok Rthrow : list event -> Prop.
Hypothesis Rok_nil : Rok [].
Hypothesis Rthrow_nil : Rthrow [].
Hypothesis Rok_app : forall n1 n2, Rok n1 -> Rok n2 -> Rok (n1 ++ n2).
Hypothesis Rthrow_app : forall n1 n2, Rok n1 -> Rthrow n2 -> Rthrow (n1 ++ n2).

Lemma ends_ret {A} (a : A) : ends Rok Rthrow (ret a).
Proof.
  intros w o w' H. inversion H. exists []. split; [symmetry; apply app_nil_r | exact Rok_nil].
Qed.

Lemma ends_lift {A} (x : outcome A) : ends Rok Rthrow (lift x).
Proof.
  intros w o w' H. inversion H. exists []. split; [symmetry; apply app_nil_r|].
  destruct o; [exact Rok_nil | exact Rthrow_nil].
Qed.

Lemma ends_bind {A B} (m : M world A) (f : A -> M world B) :
  ends Rok Rthrow m -> (forall a, ends Rok Rthrow (f a)) ->
  ends Rok Rthrow (x <- m ;; f x).
Proof.
  intros Hm Hf w o w' H.
  destruct (bind_inv _ _ _ _ _ H) as [[a [w1 [E1 E2]]] | [e [E1 ->]]].
  - destruct (Hm _ _ _ E1) as [n1 [T1 P1]]. destruct (Hf a _ _ _ E2) as [n2 [T2 P2]].
    exists (n1 ++ n2). split; [rewrite T2, T1; symmetry; apply app_assoc|].
    destruct o; [apply Rok_app | apply Rthrow_app]; assumption.
  - exact (Hm _ _ _ E1).
Qed.

Lemma ends_for_each {A} (body : A -> M world unit) (xs : list A) :
  (forall x, In x xs -> ends Rok Rthrow (body x)) -> ends Rok Rthrow (for_each body xs).
Proof.
  induction xs as [|x xs IH]; intros H.
  - apply ends_ret.
  - intros w o w' E. rewrite for_each_cons in E. revert w o w' E.
    apply ends_bind.
    + apply H. left. reflexivity.
    + intros _. apply IH. intros y Hy. apply H. right. exact Hy.
Qed.

Lemma ends_walkFiles (onFile : string -> string -> M world unit) root depth entries :
  (forall p c, ends Rok Rthrow (onFile p c)) ->
  ends Rok Rthrow (walkFiles onFile root depth entries).
Proof.
  intros H w o w' E. unfold walkFiles in E. rewrite walk_emitted in E.
  revert w o w' E. apply ends_for_each. intros [p c] _. apply H.
Qed.

Lemma ends_of_keeps {A} (P : event -> bool) (m : M world A) :
  (forall new, forallb P new = true -> Rok new /\ Rthrow new) ->
  keeps (extends P) m -> ends Rok Rthrow m.
Proof.
  intros HP K w o w' H. destruct (K _ _ _ H) as [new [T F]].
  exists new. split; [exact T|]. destruct (HP new F) as [H1 H2].
  destruct o; assumption.
Qed.

End Ends.

Ltac ends_rule nil_ok nil_throw app_ok app_throw :=
  match goal with
    | |- ends _ _ (ret _) => apply (ends_ret _ _ nil_ok)
    | |- ends _ _ (lift _) => apply (ends_lift _ _ nil_ok nil_throw)
    | |- ends _ _ (bind _ _) => apply (ends_bind _ _ app_ok app_throw); [| intros ?]
    | |- ends _ _ (walkFiles _ _ _ _) =>
        apply (ends_walkFiles _ _ nil_ok app_ok app_throw); intros ? ?
    | |- ends _ _ (for_each _ _) =>
        apply (ends_for_each _ _ nil_ok app_ok app_throw); intros ? _
    | |- ends _ _ (match ?x with File _ _ => _ | Dir _ _ => _ | Special _ => _ end) =>
        destruct x
    | |- ends _ _ (if ?b then _ else _) => destruct b eqn:?
    | |- ends _ _ (match ?x with Some _ => _ | None => _ end) => destruct x
    end.

Ltac request_rules :=
  keeps_rules (extends_refl is_request) (extends_trans is_request);
  try (apply call_extends; reflexivity).

Lemma getTargetBook_requests bookName dryRun :
  keeps (extends is_request) (getTargetBook bookName dryRun).
Proof. unfold getTargetBook, findBookByName, getBook, getBooks, createBook. request_rules. Qed.

Lemma getOrCreateChapter_requests bookId name description dryRun :
  keeps (extends is_request) (getOrCreateChapter bookId name description dryRun).
Proof.
  unfold getOrCreateChapter, getChapters, getBookContents, createChapter. request_rules.
Qed.

Lemma page_tail_requests (dryRun : bool) data :
  keeps (extends is_request) (if dryRun then ret tt else (_ <- createPage data ;; ret tt)).
Proof. unfold createPage. request_rules. Qed.

Lemma emit_then {A} (P : event -> bool) e (m : M world A) w o w' :
  keeps (extends P) m ->
  (emit e ;; m) w = (o, w') ->
  exists reqs, trace w' = trace w ++ e :: reqs /\ forallb P reqs = true.
Proof.
  intros K H. rewrite bind_run, emit_run in H.
  destruct (K _ _ _ H) as [new [T F]]. exists new. split; [|exact F].
  rewrite T. simpl. rewrite <- app_assoc. reflexivity.
Qed.

(** ** Progress: one tick per page call *)

Lemma ticks_app a b : ticks (a ++ b) = (ticks a + ticks b)%nat.
Proof. unfold ticks. rewrite filter_app, length_app. reflexivity. Qed.

Lemma bars_app a b : bars (a ++ b) = (bars a + bars b)%nat.
Proof. unfold bars. rewrite filter_app, length_app. reflexivity. Qed.

Lemma page_calls_app a b : page_calls (a ++ b) = (page_calls a + page_calls b)%nat.
Proof. unfold page_calls. rewrite page_call_paths_app, length_app. reflexivity. Qed.

Lemma balanced_nil : balanced [].
Proof. split; reflexivity. Qed.

Lemma lagging_nil : lagging [].
Proof. split; [apply le_n | reflexivity]. Qed.

Lemma balanced_app n1 n2 : balanced n1 -> balanced n2 -> balanced (n1 ++ n2).
Proof.
  intros [T1 B1] [T2 B2]. split.
  - rewrite ticks_app, page_calls_app. lia.
  - rewrite bars_app. lia.
Qed.

Lemma lagging_app n1 n2 : balanced n1 -> lagging n2 -> lagging (n1 ++ n2).
Proof.
  intros [T1 B1] [T2 B2]. split.
  - rewrite ticks_app, page_calls_app. lia.
  - rewrite bars_app. lia.
Qed.

Lemma requests_unpaced new :
  forallb is_request new = true ->
  ticks new = 0%nat /\ bars new = 0%nat /\ page_calls new = 0%nat.
Proof.
  induction new as [|e new IH]; intros H; [repeat split|].
  simpl in H. apply andb_true_iff in H. destruct H as [He Hn].
  destruct e; try discriminate. exact (IH Hn).
Qed.

Lemma requests_paced new : forallb is_request new = true -> balanced new /\ lagging new.
Proof.
  intros H. destruct (requests_unpaced new H) as [T [B P]].
  unfold balanced, lagging. rewrite T, B, P. repeat split. apply le_n.
Qed.

Lemma page_step_paced e (m : M world unit) :
  page_calls [e] = 1%nat -> is_tick e = false -> is_bar e = false ->
  keeps (extends is_request) m ->
  ends balanced lagging ((emit e ;; m) ;; emit Tick).
Proof.
  intros Hcall Htick Hbar K w o w' H.
  assert (He : ticks [e] = 0%nat /\ bars [e] = 0%nat).
  { unfold ticks, bars. simpl. rewrite Htick, Hbar. split; reflexivity. }
  destruct He as [Te Be].
  destruct (bind_inv _ _ _ _ _ H) as [[[] [w1 [E1 E2]]] | [x [E1 ->]]];
    destruct (emit_then is_request e m _ _ _ K E1) as [reqs [T F]];
    destruct (requests_unpaced reqs F) as [Tr [Br Pr]].
  - rewrite emit_run in E2. inversion E2; subst o w'. cbn [trace].
    exists ((e :: reqs) ++ [Tick]). split; [rewrite T, <- app_assoc; reflexivity|].
    change (e :: reqs) with ([e] ++ reqs). split.
    + rewrite !ticks_app, !page_calls_app, Te, Tr, Pr, Hcall. reflexivity.
    + rewrite !bars_app, Be, Br. reflexivity.
  - exists (e :: reqs). split; [exact T|].
    change (e :: reqs) with ([e] ++ reqs). split.
    + rewrite !ticks_app, !page_calls_app, Te, Tr, Pr, Hcall. lia.
    + rewrite !bars_app, Be, Br. reflexivity.
Qed.

Ltac paced_rules :=
  repeat first
    [ apply page_step_paced;
      [reflexivity | reflexivity | reflexivity | apply page_tail_requests]
    | ends_rule balanced_nil lagging_nil balanced_app lagging_app ].

Lemma import_loops_paced dirPath items options bookId :
  ends balanced lagging
    (for_each (fun item =>
                 let itemPath := Path.join dirPath (node_name item) in
                 match item with
                 | File name content =>
                     if isSupportedFile name
                     then createPageInBook bookId itemPath content name options ;;
                          emit Tick
                     else ret tt
                 | _ => ret tt
                 end) items ;;
     for_each (fun item =>
                 let itemPath := Path.join dirPath (node_name item) in
                 match item with
                 | Dir name entries =>
                     if opt_flatten options then
                       walkFiles (fun filePath content =>
                                    if isSupportedFile filePath
                                    then createPageInBook bookId filePath content
                                                          (Path.basename filePath) options ;;
                                         emit Tick
                                    else ret tt)
                                 itemPath (effective_maxDepth options - 1) entries
                     else
                       let chapterMeta := readChapterMetadata entries in
                       chapterName <- lift (chapter_name_for name itemPath entries chapterMeta
                                              (Js.or_else (opt_chapterFrom options) "dir")) ;;
                       chapter <- getOrCreateChapter bookId chapterName
                                    (Js.or_else (meta_description chapterMeta) "")
                                    (opt_dryRun options) ;;
                       walkFiles (fun filePath content =>
                                    if isSupportedFile filePath
                                    then createPageInChapter bookId (chapter_id chapter)
                                                             filePath content
                                                             (Path.basename filePath) options ;;
                                         emit Tick
                                    else ret tt)
                                 itemPath (effective_maxDepth options - 1) entries
                 | _ => ret tt
                 end) items).
Proof.
  cbv zeta. unfold createPageInBook, createPageInChapter. cbv zeta.
  paced_rules.
  apply (ends_of_keeps _ _ is_request); [apply requests_paced|].
  apply getOrCreateChapter_requests.
Qed.

Lemma fold_requests pre b :
  forallb is_request pre = true -> fold_left bar_step pre b = b.
Proof.
  revert b. induction pre as [|e pre IH]; intros b H; [reflexivity|].
  simpl in H. apply andb_true_iff in H. destruct H as [He Hn].
  destruct e; try discriminate. simpl. apply IH. exact Hn.
Qed.

Lemma fold_ticks rest total :
  bars rest = 0%nat ->
  forall c,
    (0 <= c <= total)%Z ->
    fold_left bar_step rest (Some (mkBar c total))
    = Some (mkBar (Z.min (c + Z.of_nat (ticks rest)) total) total).
Proof.
  induction rest as [|e rest IH]; intros Hb c Hc.
  - simpl. f_equal. f_equal. unfold ticks. simpl. lia.
  - destruct e; try discriminate;
      try (simpl; rewrite (IH Hb c Hc); reflexivity).
    change (fold_left bar_step (Tick :: rest) (Some (mkBar c total)))
      with (fold_left bar_step rest (Some (bar_tick 1 (mkBar c total)))).
    unfold bar_tick. cbn [bar_current bar_total].
    change (ticks (Tick :: rest)) with (S (ticks rest)).
    destruct (Z.gtb_spec (c + 1) total) as [Hgt|Hle].
    + rewrite (IH Hb total) by lia. f_equal. f_equal. lia.
    + rewrite (IH Hb (c + 1)%Z) by lia. f_equal. f_equal. lia.
Qed.

Lemma importDirectory_paced dirPath items options w o w' :
  importDirectory dirPath items options w = (o, w') ->
  exists pre,
    forallb is_request pre = true
    /\ ((exists e, o = Throw e /\ trace w' = trace w ++ pre)
        \/ exists rest,
             trace w' = trace w ++ pre ++ ProgressBar (countFiles dirPath items options) :: rest
             /\ match o with
                | Ok _ => balanced rest
                | Throw _ => lagging rest
                end).
Proof.
  intros H. unfold importDirectory in H. cbv zeta in H.
  destruct (bind_inv _ _ _ _ _ H) as [[b [w1 [E1 H1]]] | [e [E1 ->]]]; clear H.
  2: { destruct (getTargetBook_requests _ _ _ _ _ E1) as [pre [T F]].
       exists pre. split; [exact F|]. left. exists e. split; [reflexivity | exact T]. }
  destruct (getTargetBook_requests _ _ _ _ _ E1) as [pre1 [T1 F1]].
  assert (K2 : keeps (extends is_request)
                 (match negb (opt_dryRun options),
                        Js.truthy (meta_description (readBookMetadata items)) with
                  | true, Some description =>
                      try_catch (_ <- updateBook (book_id b) description ;; ret tt)
                                (fun _ => ret tt)
                  | _, _ => ret tt
                  end)).
  { destruct (negb (opt_dryRun options));
      destruct (Js.truthy (meta_description (readBookMetadata items)));
      unfold updateBook; request_rules. }
  destruct (bind_inv _ _ _ _ _ H1) as [[[] [w2 [E2 H2]]] | [e [E2 ->]]]; clear H1;
    destruct (K2 _ _ _ E2) as [pre2 [T2 F2]].
  2: { exists (pre1 ++ pre2). split; [rewrite forallb_app, F1, F2; reflexivity|].
       left. exists e. split; [reflexivity|]. rewrite T2, T1, app_assoc. reflexivity. }
  destruct (bind_inv _ _ _ _ _ H2) as [[[] [w3 [E3 H3]]] | [e [E3 _]]]; clear H2;
    rewrite emit_run in E3; [|discriminate].
  inversion E3; subst w3; clear E3.
  destruct (import_loops_paced dirPath items options (book_id b) _ _ _ H3)
    as [rest [T3 P3]].
  exists (pre1 ++ pre2). split; [rewrite forallb_app, F1, F2; reflexivity|].
  right. exists rest. split; [|exact P3].
  rewrite T3. cbn [trace]. rewrite T2, T1, <- !app_assoc. reflexivity.
Qed.

Lemma planned_calls dirPath items options w o w' new :
  importDirectory dirPath items options w = (o, w') ->
  trace w' = trace w ++ new ->
  match o with
  | Ok _ => page_calls new = countFiles dirPath items options
  | Throw _ => (page_calls new <= countFiles dirPath items options)%nat
  end.
Proof.
  intros Hrun Htrace.
  destruct (importDirectory_yields dirPath items options w o w' Hrun)
    as [new' [Htrace' Hpaths]].
  rewrite Htrace in Htrace'. apply app_inv_head in Htrace'. subst new'.
  unfold page_calls. rewrite countFiles_planned.
  destruct o as [[]|e].
  - rewrite Hpaths. reflexivity.
  - apply starts_length. exact Hpaths.
Qed.

(** X9. The progress bar of a directory import is created with the number
    [countFiles] returns and gets one tick per page call: it ends exactly
    full when the import completes, and a run that throws leaves it at the
    number of ticks received, never above the total, so the clamp of
    [tick] is never what stops it. *)
Theorem import_progress_ends_full :
  forall dirPath items options w o w',
    importDirectory dirPath items options w = (o, w') ->
    let total := countFiles dirPath items options in
    exists new,
      trace w' = trace w ++ new
      /\ match o with
         | Ok _ =>
             ticks new = total
             /\ bar_of_trace new = Some (mkBar (Z.of_nat total) (Z.of_nat total))
         | Throw _ =>
             (ticks new <= total)%nat
             /\ (bar_of_trace new = None
                 \/ bar_of_trace new
                    = Some (mkBar (Z.of_nat (ticks new)) (Z.of_nat total)))
         end.
Proof.
  intros dirPath items options w o w' Hrun total.
  destruct (importDirectory_paced _ _ _ _ _ _ Hrun) as [pre [Fpre Hshape]].
  destruct (requests_unpaced pre Fpre) as [Tpre [_ Ppre]].
  destruct Hshape as [[e [-> Htrace]] | [rest [Htrace Hrest]]].
  - exists pre. split; [exact Htrace|]. split; [rewrite Tpre; lia|].
    left. unfold bar_of_trace. apply fold_requests. exact Fpre.
  - exists (pre ++ ProgressBar total :: rest). split; [exact Htrace|].
    pose proof (planned_calls _ _ _ _ _ _ _ Hrun Htrace) as Hplan.
    fold total in Hplan.
    change (ProgressBar total :: rest) with ([ProgressBar total] ++ rest) in Hplan |- *.
    rewrite !page_calls_app, Ppre in Hplan.
    change (page_calls [ProgressBar total]) with 0%nat in Hplan.
    assert (Hticks : ticks (pre ++ [ProgressBar total] ++ rest) = ticks rest).
    { rewrite !ticks_app, Tpre. reflexivity. }
    assert (Hbar : forall (Hb : bars rest = 0%nat),
               bar_of_trace (pre ++ [ProgressBar total] ++ rest)
               = Some (mkBar (Z.min (Z.of_nat (ticks rest)) (Z.of_nat total))
                             (Z.of_nat total))).
    { intros Hb. unfold bar_of_trace. rewrite fold_left_app, (fold_requests pre None Fpre).
      change (fold_left bar_step ([ProgressBar total] ++ rest) None)
        with (fold_left bar_step rest (Some (mkBar 0 (Z.of_nat total)))).
      rewrite (fold_ticks rest (Z.of_nat total) Hb 0%Z) by lia. reflexivity. }
    rewrite Hticks.
    destruct o as [[]|e]; destruct Hrest as [Hpace Hb]; rewrite (Hbar Hb).
    + split; [lia|]. f_equal. f_equal. lia.
    + split; [lia|]. right. f_equal. f_equal. lia.
Qed.

(** X10. The counter of a progress bar stays between 0 and its total: after
    any sequence of [tick] and [update] on a bar created with a total that
    is not negative, as long as no tick is by a negative amount; the total
    itself never changes. *)
Theorem progress_bar_stays_in_range :
  forall total ops,
    (0 <= total)%Z ->
    Forall steady ops ->
    let b := fold_left bar_apply ops (createProgressBar total) in
    (0 <= bar_current b <= total)%Z /\ bar_total b = total.
Proof.
  intros total ops Htotal Hops b. unfold b, createProgressBar.
  assert (G : forall b0,
             (0 <= bar_current b0 <= total)%Z /\ bar_total b0 = total ->
             (0 <= bar_current (fold_left bar_apply ops b0) <= total)%Z
             /\ bar_total (fold_left bar_apply ops b0) = total).
  { induction Hops as [|op ops Hop _ IH]; intros b0 Hb0; [exact Hb0|].
    simpl. apply IH. destruct Hb0 as [Hc Ht].
    destruct op as [n|n]; simpl in Hop; unfold bar_apply, bar_tick, bar_update;
      cbn [bar_current bar_total]; rewrite Ht.
    - destruct (Z.gtb_spec (bar_current b0 + n) total); split; try reflexivity; lia.
    - split; [lia | reflexivity]. }
  apply G. simpl. split; [lia | reflexivity].
Qed.

(** ** One Book per import *)

Lemma reads_are_lookups l :
  forallb book_read l = true ->
  forallb book_lookup l = true /\ filter creates_book l = [].
Proof.
  induction l as [|e l IH]; intros H; [split; reflexivity|].
  simpl in H. apply andb_true_iff in H. destruct H as [He Hl].
  destruct (IH Hl) as [IH1 IH2].
  destruct e as [[]| | | | | |]; try discriminate; simpl; rewrite IH1, IH2; split; reflexivity.
Qed.

Ltac read_rules :=
  keeps_rules (extends_refl book_read) (extends_trans book_read);
  try (apply call_extends; reflexivity).

Lemma getTargetBook_lookup bookName dryRun w o w1 :
  getTargetBook bookName dryRun w = (o, w1) ->
  exists lookup,
    trace w1 = trace w ++ lookup
    /\ forallb book_lookup lookup = true
    /\ (length (filter creates_book lookup) <= 1)%nat.
Proof.
  unfold getTargetBook. destruct dryRun; intros H.
  { inversion H. exists []. split; [symmetry; apply app_nil_r|].
    split; [reflexivity | simpl; lia]. }
  assert (KA : keeps (extends book_read)
                 (if test false re_all_digits bookName
                  then try_catch (b <- getBook (Js.parseInt bookName) ;; ret (Some (br_book b)))
                                 (fun _ => ret None)
                  else ret None)).
  { unfold getBook. read_rules. }
  assert (KB : forall byId : option Book,
             keeps (extends book_read)
                   (match byId with
                    | Some b => ret (Some b)
                    | None => findBookByName bookName
                    end)).
  { intros byId. unfold findBookByName, getBooks. read_rules. }
  destruct (bind_inv _ _ _ _ _ H) as [[byId [wa [EA HA]]] | [e [EA ->]]]; clear H;
    destruct (KA _ _ _ EA) as [pa [Ta Fa]]; destruct (reads_are_lookups pa Fa) as [La Ca].
  2: { exists pa. split; [exact Ta|]. split; [exact La | rewrite Ca; simpl; lia]. }
  destruct (bind_inv _ _ _ _ _ HA) as [[found [wb [EB HB]]] | [e [EB ->]]]; clear HA;
    destruct (KB byId _ _ _ EB) as [pb [Tb Fb]]; destruct (reads_are_lookups pb Fb) as [Lb Cb].
  2: { exists (pa ++ pb). split; [rewrite Tb, Ta, app_assoc; reflexivity|].
       rewrite forallb_app, filter_app, La, Lb, Ca, Cb. split; [reflexivity | simpl; lia]. }
  destruct found as [b|].
  - inversion HB; subst. exists (pa ++ pb).
    split; [rewrite Tb, Ta, app_assoc; reflexivity|].
    rewrite forallb_app, filter_app, La, Lb, Ca, Cb. split; [reflexivity | simpl; lia].
  - unfold createBook in HB. apply call_trace in HB.
    exists (pa ++ pb ++ [Request (CreateBook bookName default_description)]).
    split; [rewrite HB, Tb, Ta, <- !app_assoc; reflexivity|].
    rewrite !forallb_app, !filter_app, La, Lb, Ca, Cb. split; [reflexivity | simpl; lia].
Qed.

Ltac targets_rules id :=
  keeps_rules (extends_refl (targets id)) (extends_trans (targets id));
  try (apply call_extends; cbn [targets pd_book_id page_data importFilePageData];
       apply Z.eqb_refl);
  try (apply emit_extends; first [reflexivity | cbn [targets]; apply Z.eqb_refl]).

Lemma lookup_then_targets {A} (m : Book -> M world A) bookName dryRun w o w' :
  (forall b, keeps (extends (targets (book_id b))) (m b)) ->
  (b <- getTargetBook bookName dryRun ;; m b) w = (o, w') ->
  exists bookId lookup rest,
    trace w' = trace w ++ lookup ++ rest
    /\ forallb book_lookup lookup = true
    /\ (length (filter creates_book lookup) <= 1)%nat
    /\ forallb (targets bookId) rest = true.
Proof.
  intros K H.
  destruct (bind_inv _ _ _ _ _ H) as [[b [w1 [E1 H1]]] | [e [E1 ->]]];
    destruct (getTargetBook_lookup _ _ _ _ _ E1) as [lookup [T [L C]]].
  - destruct (K b _ _ _ H1) as [rest [Tr Fr]].
    exists (book_id b), lookup, rest.
    split; [rewrite Tr, T, app_assoc; reflexivity|].
    split; [exact L|]. split; [exact C | exact Fr].
  - exists 0%Z, lookup, []. split; [rewrite app_nil_r; exact T|].
    split; [exact L|]. split; [exact C | reflexivity].
Qed.

Lemma importDirectory_one_book dirPath items options w o w' :
  importDirectory dirPath items options w = (o, w') ->
  exists bookId lookup rest,
    trace w' = trace w ++ lookup ++ rest
    /\ forallb book_lookup lookup = true
    /\ (length (filter creates_book lookup) <= 1)%nat
    /\ forallb (targets bookId) rest = true.
Proof.
  unfold importDirectory. cbv zeta. apply lookup_then_targets. intros b.
  unfold createPageInBook, createPageInChapter, getOrCreateChapter, getChapters,
    getBookContents, createChapter, createPage, updateBook.
  targets_rules (book_id b).
Qed.

Lemma importFile_one_book filePath content options w o w' :
  importFile filePath content options w = (o, w') ->
  exists bookId lookup rest,
    trace w' = trace w ++ lookup ++ rest
    /\ forallb book_lookup lookup = true
    /\ (length (filter creates_book lookup) <= 1)%nat
    /\ forallb (targets bookId) rest = true.
Proof.
  unfold importFile. cbv zeta. apply lookup_then_targets. intros b.
  unfold createPage. targets_rules (book_id b).
Qed.

(** X11. An import works on one Book.  Whatever the source, the options and
    the outcome, the trace of [execute] splits in two: first the lookup,
    which only lists and reads Books and creates at most one; then the
    rest, in which every chapter listing, update, chapter, page and page
    call names the same Book, and which neither lists Books nor creates
    one. *)
Theorem import_addresses_one_book :
  forall sourcePath src options w o w',
    execute sourcePath src options w = (o, w') ->
    exists bookId lookup rest,
      trace w' = trace w ++ lookup ++ rest
      /\ forallb book_lookup lookup = true
      /\ (length (filter creates_book lookup) <= 1)%nat
      /\ forallb (targets bookId) rest = true.
Proof.
  intros sourcePath src options w o w' H. unfold execute in H.
  assert (K0 : keeps (extends book_read)
                 (if opt_dryRun options then ret tt
                  else connected <- testConnection ;;
                       if connected then ret tt else throw ConnectFailed)).
  { unfold testConnection. read_rules. }
  assert (Hnone : forall pre (wa wb : world),
             trace wa = trace w ++ pre -> forallb book_read pre = true -> wb = wa ->
             exists bookId lookup rest,
               trace wb = trace w ++ lookup ++ rest
               /\ forallb book_lookup lookup = true
               /\ (length (filter creates_book lookup) <= 1)%nat
               /\ forallb (targets bookId) rest = true).
  { intros pre wa wb T F ->. destruct (reads_are_lookups pre F) as [L C].
    exists 0%Z, pre, []. split; [rewrite app_nil_r; exact T|].
    split; [exact L|]. split; [rewrite C; simpl; lia | reflexivity]. }
  destruct (bind_inv _ _ _ _ _ H) as [[[] [w1 [E0 H1]]] | [e [E0 ->]]]; clear H;
    destruct (K0 _ _ _ E0) as [pre [T0 F0]].
  2: { exact (Hnone pre w' w' T0 F0 eq_refl). }
  destruct (reads_are_lookups pre F0) as [L0 C0].
  assert (Hsome : (exists bookId lookup rest,
                      trace w' = trace w1 ++ lookup ++ rest
                      /\ forallb book_lookup lookup = true
                      /\ (length (filter creates_book lookup) <= 1)%nat
                      /\ forallb (targets bookId) rest = true) ->
                  exists bookId lookup rest,
                    trace w' = trace w ++ lookup ++ rest
                    /\ forallb book_lookup lookup = true
                    /\ (length (filter creates_book lookup) <= 1)%nat
                    /\ forallb (targets bookId) rest = true).
  { intros [bookId [lookup [rest [T [L [C F]]]]]].
    exists bookId, (pre ++ lookup), rest.
    split; [rewrite T, T0, <- !app_assoc; reflexivity|].
    rewrite forallb_app, filter_app, L0, L, C0. split; [reflexivity|].
    split; [exact C | exact F]. }
  destruct src as [|content|entries|].
  - inversion H1; subst. exact (Hnone pre w' w' T0 F0 eq_refl).
  - apply Hsome. exact (importFile_one_book _ _ _ _ _ _ H1).
  - apply Hsome. exact (importDirectory_one_book _ _ _ _ _ _ H1).
  - inversion H1; subst. exact (Hnone pre w' w' T0 F0 eq_refl).
Qed.

(** ** Dry run, connectivity, single file *)

(** X12. A dry run is offline: with [dryRun] set, [execute] sends no
    request at all, not even the connectivity check or a read, and leaves
    the remote store and the fault schedule as they were. *)
Theorem dry_run_is_offline :
  forall sourcePath src options w o w',
    opt_dryRun options = true ->
    execute sourcePath src options w = (o, w') ->
    remote w' = remote w
    /\ faults w' = faults w
    /\ exists new, trace w' = trace w ++ new /\ filter is_request new = [].
Proof.
  intros sourcePath src options w o w' Hdry Hrun.
  destruct (execute_dry sourcePath src options Hdry w o w' Hrun)
    as [Hremote [Hfaults [new [Htrace Hnew]]]].
  split; [exact Hremote|]. split; [exact Hfaults|].
  exists new. split; [exact Htrace|].
  clear Htrace. induction new as [|e new IH]; [reflexivity|].
  simpl in Hnew. apply andb_true_iff in Hnew. destruct Hnew as [He Hn].
  apply negb_true_iff in He. simpl. rewrite He. exact (IH Hn).
Qed.

(** X13. Which files become pages depends on the tree and on [maxDepth]
    alone: two completed directory imports of the same tree with the same
    [maxDepth] call page creation on the same files in the same order,
    whatever their other options (dry run or not, flatten or not, format,
    chapter naming) and whatever the remote stores they run against. *)
Theorem imported_files_depend_on_depth_only :
  forall dirPath items options1 options2 w1 w1' w2 w2',
    opt_maxDepth options1 = opt_maxDepth options2 ->
    importDirectory dirPath items options1 w1 = (Ok tt, w1') ->
    importDirectory dirPath items options2 w2 = (Ok tt, w2') ->
    exists new1 new2,
      trace w1' = trace w1 ++ new1
      /\ trace w2' = trace w2 ++ new2
      /\ page_call_paths new1 = page_call_paths new2.
Proof.
  intros dirPath items options1 options2 w1 w1' w2 w2' Hdepth H1 H2.
  destruct (importDirectory_yields _ _ _ _ _ _ H1) as [new1 [T1 P1]].
  destruct (importDirectory_yields _ _ _ _ _ _ H2) as [new2 [T2 P2]].
  exists new1, new2. split; [exact T1|]. split; [exact T2|].
  rewrite P1, P2. unfold effective_maxDepth. rewrite Hdepth. reflexivity.
Qed.

(** X14. [testConnection] never throws: it sends one [GET /books], leaves
    the remote store as it was, and answers [false] exactly when that
    request failed in transport. *)
Theorem testConnection_never_throws :
  forall w,
    exists connected w',
      testConnection w = (Ok connected, w')
      /\ trace w' = trace w ++ [Request GetBooks]
      /\ remote w' = remote w
      /\ connected = match faults w with
                     | true :: _ => false
                     | _ => true
                     end.
Proof.
  intros w. unfold testConnection, try_catch. rewrite bind_run. unfold call, serve_getBooks.
  destruct (faults w) as [|[|] later]; eexists; eexists;
    (split; [reflexivity|]); repeat split.
Qed.

(** X15. The connectivity check comes before anything else: when the first
    request of a run that is not a dry run fails, [execute] stops with
    [ConnectFailed] after that one [GET /books], whatever the source is,
    missing or not, and the remote store is as it was. *)
Theorem unreachable_store_stops_before_source :
  forall sourcePath src options w later,
    opt_dryRun options = false ->
    faults w = true :: later ->
    execute sourcePath src options w
    = (Throw ConnectFailed, mkWorld (remote w) later (trace w ++ [Request GetBooks])).
Proof.
  intros sourcePath src options w later Hdry Hfaults.
  unfold execute. rewrite Hdry.
  unfold testConnection, try_catch. rewrite !bind_run. unfold call. rewrite Hfaults.
  reflexivity.
Qed.

(** ** Counting what a run adds *)

Section Adds.

Variable cnt : list event -> nat.
Hypothesis cnt_app : forall a b, cnt (a ++ b) = (cnt a + cnt b)%nat.

Lemma cnt_nil : cnt [] = 0%nat.
Proof. pose proof (cnt_app [] []) as H. simpl in H. lia. Qed.

Lemma adds_ret {A} (a : A) : adds cnt 0 (ret a).
Proof.
  intros w o w' H. inversion H. exists []. split; [symmetry; apply app_nil_r | apply cnt_nil].
Qed.

Lemma adds_emit e : adds cnt (cnt [e]) (emit e).
Proof. intros w o w' H. inversion H; subst. exists [e]. split; reflexivity. Qed.

Lemma adds_bind {A B} n1 n2 n (m : M world A) (f : A -> M world B) :
  adds cnt n1 m -> (forall a, adds cnt n2 (f a)) -> n = (n1 + n2)%nat ->
  adds cnt n (x <- m ;; f x).
Proof.
  intros Hm Hf -> w o w' H.
  destruct (bind_inv _ _ _ _ _ H) as [[a [w1 [E1 E2]]] | [e [E1 ->]]].
  - destruct (Hm _ _ _ E1) as [new1 [T1 C1]]. destruct (Hf a _ _ _ E2) as [new2 [T2 C2]].
    exists (new1 ++ new2). split; [rewrite T2, T1; symmetry; apply app_assoc|].
    rewrite cnt_app. simpl in C1. destruct o; lia.
  - destruct (Hm _ _ _ E1) as [new1 [T1 C1]]. exists new1. split; [exact T1|].
    simpl in C1. lia.
Qed.

Lemma adds_for_each {A} (g : A -> nat) (body : A -> M world unit) (xs : list A) :
  (forall x, adds cnt (g x) (body x)) ->
  adds cnt (list_sum (map g xs)) (for_each body xs).
Proof.
  intros H. induction xs as [|x xs IH].
  - apply adds_ret.
  - intros w o w' E. rewrite for_each_cons in E. revert w o w' E.
    apply (adds_bind (g x) (list_sum (map g xs))); [apply H | intros _; exact IH | reflexivity].
Qed.

Lemma adds_of_keeps {A} (P : event -> bool) (m : M world A) :
  (forall new, forallb P new = true -> cnt new = 0%nat) ->
  keeps (extends P) m -> adds cnt 0 m.
Proof.
  intros HP K w o w' H. destruct (K _ _ _ H) as [new [T F]].
  exists new. split; [exact T|]. rewrite (HP new F). destruct o; lia.
Qed.

End Adds.

Lemma writes_app a b : writes (a ++ b) = (writes a + writes b)%nat.
Proof. unfold writes, written_files. rewrite flat_map_app, length_app. reflexivity. Qed.

Lemma fold_left_sum {A} (g : A -> nat) (l : list A) :
  forall a, fold_left (fun n x => (n + g x)%nat) l a = (a + list_sum (map g l))%nat.
Proof.
  induction l as [|x l IH]; intros a; simpl; [lia|]. rewrite IH. lia.
Qed.

Lemma setup_uncounted pre :
  forallb setup pre = true ->
  ticks pre = 0%nat /\ bars pre = 0%nat /\ writes pre = 0%nat
  /\ forall b, fold_left bar_step pre b = b.
Proof.
  induction pre as [|e pre IH]; intros H; [repeat split|].
  simpl in H. apply andb_true_iff in H. destruct H as [He Hn].
  destruct (IH Hn) as [T [B [W F]]].
  destruct e; try discriminate; repeat split; try assumption; intros b; simpl; apply F.
Qed.

Lemma exportPage_requests pageId format : keeps (extends is_request) (exportPage pageId format).
Proof. unfold exportPage. request_rules. Qed.

Lemma export_page_ticks dir fmt ext dryRun p :
  adds ticks 1 (export_page dir fmt ext dryRun p).
Proof.
  unfold export_page. cbv zeta.
  apply (adds_bind ticks ticks_app 0 1); [| intros _; apply (adds_emit ticks) | reflexivity].
  destruct dryRun; [apply (adds_ret ticks ticks_app)|].
  apply (adds_bind ticks ticks_app 0 0); [| intros text; apply (adds_emit ticks) | reflexivity].
  apply (adds_of_keeps ticks is_request); [|apply exportPage_requests].
  intros new H. apply (requests_unpaced new H).
Qed.

Lemma list_sum_const {A} (k : nat) (l : list A) :
  list_sum (map (fun _ => k) l) = (k * length l)%nat.
Proof. induction l as [|x l IH]; simpl; [lia | rewrite IH; lia]. Qed.

Lemma export_loops_add (cnt : list event -> nat) (k : nat) outRoot fmt ext dryRun
      pages chapters :
  (forall a b, cnt (a ++ b) = (cnt a + cnt b)%nat) ->
  (forall dir p, adds cnt k (export_page dir fmt ext dryRun p)) ->
  (forall dir, cnt [EnsureDir dir] = 0%nat) ->
  adds cnt (k * (length pages + pages_in_chapters chapters))
       (export_loops outRoot fmt ext dryRun pages chapters).
Proof.
  intros cnt_app Hpage Hdir. unfold export_loops.
  apply (adds_bind cnt cnt_app (k * length pages) (k * pages_in_chapters chapters));
    [| intros _ | lia].
  - rewrite <- list_sum_const. apply (adds_for_each cnt cnt_app). apply Hpage.
  - assert (E : (k * pages_in_chapters chapters)%nat
                = list_sum (map (fun ch => (k * length (pages_array ch))%nat) chapters)).
    { unfold pages_in_chapters. induction chapters as [|ch l IH]; simpl; [lia|].
      rewrite <- IH. lia. }
    rewrite E. apply (adds_for_each cnt cnt_app). intros ch. cbv zeta.
    apply (adds_bind cnt cnt_app 0 (k * length (pages_array ch))); [| intros _ | reflexivity].
    + destruct dryRun; [apply (adds_ret cnt cnt_app)|].
      rewrite <- (Hdir (Path.join outRoot
                          (sanitize (Js.or_else (Some (ci_slug ch)) (ci_name ch))
                           ++ "-" ++ Js.show_Z (ci_id ch))%string)).
      apply (adds_emit cnt).
    + rewrite <- list_sum_const. apply (adds_for_each cnt cnt_app). apply Hpage.
Qed.

Lemma export_loops_no_bar outRoot fmt ext dryRun pages chapters :
  keeps (extends not_bar) (export_loops outRoot fmt ext dryRun pages chapters).
Proof.
  unfold export_loops, export_page, exportPage. cbv zeta.
  keeps_rules (extends_refl not_bar) (extends_trans not_bar);
    try (apply call_extends; reflexivity);
    try (apply emit_extends; reflexivity).
Qed.

Lemma no_bar_count new : forallb not_bar new = true -> bars new = 0%nat.
Proof.
  induction new as [|e new IH]; intros H; [reflexivity|].
  simpl in H. apply andb_true_iff in H. destruct H as [He Hn].
  unfold bars. simpl. unfold not_bar in He. apply negb_true_iff in He. rewrite He.
  exact (IH Hn).
Qed.

Lemma resolveBookId_requests bookArg : keeps (extends is_request) (resolveBookId bookArg).
Proof. unfold resolveBookId, findBookByName, getBooks. request_rules. Qed.

Lemma requests_are_setup l : forallb is_request l = true -> forallb setup l = true.
Proof.
  apply forallb_impl. intros [] H; try discriminate; reflexivity.
Qed.

(** A completed export, cut where it creates its progress bar. *)
Lemma exportContents_shape bookArg opts w w' :
  exportContents bookArg opts w = (Ok tt, w') ->
  exists bookId book w1 w2 pre,
    resolveBookId bookArg w = (Ok (Some bookId), w1)
    /\ getBook bookId w1 = (Ok book, w2)
    /\ forallb setup pre = true
    /\ export_loops (export_root bookId book opts)
                    (Js.toLowerCase (opt_export_format opts))
                    (file_ext (Js.toLowerCase (opt_export_format opts)))
                    (opt_export_dryRun opts)
                    (page_items (br_contents book)) (chapter_items (br_contents book))
         (mkWorld (remote w2) (faults w2)
                  (trace w ++ pre ++ [ProgressBar (listed_pages book)]))
       = (Ok tt, w').
Proof.
  intros H. unfold exportContents in H.
  destruct (bind_inv _ _ _ _ _ H) as [[[bookId|] [w1 [E1 H1]]] | [e [_ He]]]; clear H;
    try discriminate.
  destruct (resolveBookId_requests _ _ _ _ E1) as [p1 [T1 F1]].
  destruct (bind_inv _ _ _ _ _ H1) as [[book [w2 [E2 H2]]] | [e [_ He]]]; clear H1;
    try discriminate.
  pose proof E2 as T2. unfold getBook in T2. apply call_trace in T2. cbv zeta in H2.
  destruct (negb (string_in (Js.toLowerCase (opt_export_format opts))
                            ["markdown"; "html"; "plaintext"])); [discriminate|].
  destruct (bind_inv _ _ _ _ _ H2) as [[[] [w3 [E3 H3]]] | [e [_ He]]]; clear H2;
    try discriminate.
  destruct (bind_inv _ _ _ _ _ H3) as [[[] [w4 [E4 H4]]] | [e [_ He]]]; clear H3;
    try discriminate.
  rewrite emit_run in E4. inversion E4; subst w4; clear E4.
  rewrite fold_left_sum in H4. fold (pages_in_chapters (chapter_items (br_contents book))) in H4.
  change (0 + pages_in_chapters (chapter_items (br_contents book)))%nat
    with (pages_in_chapters (chapter_items (br_contents book))) in H4.
  fold (listed_pages book) in H4. fold (export_root bookId book opts) in H4, E3.
  exists bookId, book, w1, w2.
  destruct (opt_export_dryRun opts) eqn:Hdry.
  - inversion E3; subst w3; clear E3.
    exists (p1 ++ [Request (GetBook bookId)]).
    split; [exact E1|]. split; [exact E2|].
    split; [rewrite forallb_app, (requests_are_setup p1 F1); reflexivity|].
    rewrite T2, T1, <- !app_assoc in H4. rewrite <- !app_assoc. exact H4.
  - rewrite emit_run in E3. inversion E3; subst w3; clear E3. cbn [remote faults trace] in H4.
    exists (p1 ++ [Request (GetBook bookId); EnsureDir (export_root bookId book opts)]).
    split; [exact E1|]. split; [exact E2|].
    split; [rewrite forallb_app, (requests_are_setup p1 F1); reflexivity|].
    rewrite T2, T1, <- !app_assoc in H4. rewrite <- !app_assoc. exact H4.
Qed.

(** X18. A dry run of the export touches nothing outside the remote store
    and asks it for no rendering: however the run ends, its trace holds no
    created directory, no written file and no page export request. *)
Theorem export_dry_run_writes_nothing :
  forall bookArg opts w o w',
    opt_export_dryRun opts = true ->
    exportContents bookArg opts w = (o, w') ->
    exists new, trace w' = trace w ++ new /\ filter export_effect new = [].
Proof.
  intros bookArg opts w o w' Hdry Hrun.
  assert (K : keeps (extends no_export_effect) (exportContents bookArg opts)).
  { unfold exportContents, resolveBookId, findBookByName, getBooks, getBook, export_page.
    cbv zeta. rewrite Hdry.
    keeps_rules (extends_refl no_export_effect) (extends_trans no_export_effect);
      try (apply call_extends; reflexivity);
      try (apply emit_extends; reflexivity). }
  destruct (K _ _ _ Hrun) as [new [T F]]. exists new. split; [exact T|].
  clear T. induction new as [|e new IH]; [reflexivity|].
  simpl in F. apply andb_true_iff in F. destruct F as [He Hn].
  unfold no_export_effect in He. apply negb_true_iff in He. simpl. rewrite He.
  exact (IH Hn).
Qed.

Lemma resolveBookId_reads bookArg : keeps (extends book_read) (resolveBookId bookArg).
Proof. unfold resolveBookId, findBookByName, getBooks. read_rules. Qed.

(** X19. An export asked for a format other than markdown, html or
    plaintext (up to case) never completes and leaves nothing behind: it
    throws, and all it has done by then is list or read Books.  The format
    is only looked at once the Book has been fetched. *)
Theorem export_rejects_unknown_format :
  forall bookArg opts w o w',
    string_in (Js.toLowerCase (opt_export_format opts)) ["markdown"; "html"; "plaintext"]
    = false ->
    exportContents bookArg opts w = (o, w') ->
    (exists e, o = Throw e)
    /\ exists new, trace w' = trace w ++ new /\ forallb book_read new = true.
Proof.
  intros bookArg opts w o w' Hfmt H. unfold exportContents in H.
  destruct (bind_inv _ _ _ _ _ H) as [[bookId [w1 [E1 H1]]] | [e [E1 ->]]]; clear H;
    destruct (resolveBookId_reads _ _ _ _ E1) as [p1 [T1 F1]].
  2: { split; [exists e; reflexivity|]. exists p1. split; assumption. }
  destruct bookId as [bookId|].
  2: { inversion H1; subst. split; [eexists; reflexivity|]. exists p1. split; assumption. }
  assert (K2 : keeps (extends book_read) (getBook bookId)).
  { unfold getBook. read_rules. }
  destruct (bind_inv _ _ _ _ _ H1) as [[book [w2 [E2 H2]]] | [e [E2 ->]]]; clear H1;
    destruct (K2 _ _ _ E2) as [p2 [T2 F2]].
  2: { split; [exists e; reflexivity|]. exists (p1 ++ p2).
       split; [rewrite T2, T1, app_assoc; reflexivity|].
       rewrite forallb_app, F1, F2. reflexivity. }
  cbv zeta in H2. rewrite Hfmt in H2. inversion H2; subst.
  split; [eexists; reflexivity|]. exists (p1 ++ p2).
  split; [rewrite T2, T1, app_assoc; reflexivity|].
  rewrite forallb_app, F1, F2. reflexivity.
Qed.

(** ** Identifier resolution of the command line *)

Lemma search_class multiline (p : ascii -> bool) l :
  forall prev idx,
    match search multiline (Chr p) prev l idx with
    | Some _ => true
    | None => false
    end = existsb p l.
Proof.
  induction l as [|c l IH]; intros prev idx; [reflexivity|].
  cbn [search existsb]. rewrite attempt_class.
  destruct (p c); [reflexivity|]. apply IH.
Qed.

(** X20. [escapeFilterValue] leaves a value without white space as it is,
    double quotes included, and puts any other value between double
    quotes, each double quote of its own preceded by a backslash and every
    other character kept. *)
Theorem escapeFilterValue_quotes_spaced_values :
  forall val,
    Js.chars (escapeFilterValue val)
    = if existsb Js.is_space (Js.chars val)
      then Js.chars dquote ++ flat_map escape_quote (Js.chars val) ++ Js.chars dquote
      else Js.chars val.
Proof.
  intros val. unfold escapeFilterValue, test, exec.
  rewrite (search_class false Js.is_space (Js.chars val) None 0).
  destruct (existsb Js.is_space (Js.chars val)); [|reflexivity].
  rewrite !chars_app. f_equal. f_equal.
  unfold replace_all. rewrite chars_str.
  apply (replace_from_charwise false (Lit dquote) [Text backslash; Text dquote]
           (Js.is_char "034"%char) (Js.chars backslash ++ Js.chars dquote)).
  - intros prev l. apply attempt_one_char.
  - reflexivity.
  - lia.
Qed.

Lemma call_result {A} (r : request) (serve : store -> outcome A * store) w a w' :
  call r serve w = (Ok a, w') -> exists s, serve (remote w) = (Ok a, s).
Proof.
  unfold call. intros H.
  destruct (faults w) as [|[|] later]; try discriminate;
    destruct (serve (remote w)) as [o s]; inversion H; subst; exists s; reflexivity.
Qed.

(** X22. The chapter [getOrCreateChapter] answers with belongs to the Book
    it was asked for and bears the name asked for, up to case: a chapter of
    that name in another Book is never reused. *)
Theorem chapter_stays_in_its_book :
  forall bookId name description dryRun w c w',
    getOrCreateChapter bookId name description dryRun w = (Ok c, w') ->
    chapter_book_id c = bookId /\ same_text (chapter_name c) name = true.
Proof.
  intros bookId name description dryRun w c w' H. unfold getOrCreateChapter in H.
  destruct dryRun.
  { inversion H; subst. split; [reflexivity | apply same_text_refl]. }
  destruct (bind_inv _ _ _ _ _ H) as [[existing [w1 [E1 H1]]] | [e [_ He]]]; clear H;
    [|discriminate].
  unfold getChapters, getBookContents in E1.
  destruct (bind_inv _ _ _ _ _ E1) as [[contents [w2 [E2 H2]]] | [e [_ He]]]; clear E1;
    [|discriminate].
  destruct (bind_inv _ _ _ _ _ E2) as [[b [w3 [E3 H3]]] | [e [_ He]]]; clear E2;
    [|discriminate].
  inversion H3; subst contents w3; clear H3. inversion H2; subst existing w2; clear H2.
  destruct (call_result _ _ _ _ _ E3) as [s Hs]. unfold serve_getBook in Hs.
  destruct (find_book bookId (remote w)); [|discriminate].
  inversion Hs; subst b s; clear Hs. cbn [br_contents] in H1.
  rewrite listed_chapters in H1.
  destruct (find (fun c0 => same_text (chapter_name c0) name) (chapters_of (remote w) bookId))
    as [found|] eqn:F.
  - inversion H1; subst found. apply find_some in F. destruct F as [Hin Hname].
    split; [|exact Hname]. unfold chapters_of in Hin. apply filter_In in Hin.
    destruct Hin as [_ Hb]. apply Z.eqb_eq in Hb. exact Hb.
  - unfold createChapter in H1. destruct (call_result _ _ _ _ _ H1) as [s Hs].
    unfold serve_createChapter in Hs.
    destruct (find_book bookId (remote w1)); [|discriminate].
    inversion Hs; subst. split; [reflexivity | apply same_text_refl].
Qed.

Lemma truthy_nonempty o s : Js.truthy o = Some s -> String.eqb s "" = false.
Proof.
  unfold Js.truthy. destruct o as [x|]; [|discriminate].
  destruct (String.eqb x "") eqn:E; [discriminate|]. intros H. inversion H; subst. exact E.
Qed.

Lemma or_else_nonempty o s : String.eqb s "" = false -> String.eqb (Js.or_else o s) "" = false.
Proof.
  intros Hs. unfold Js.or_else. destruct (Js.truthy o) as [x|] eqn:E; [|exact Hs].
  exact (truthy_nonempty o x E).
Qed.

(** X23. A chapter never gets an empty name: whatever the metadata, the
    README and the naming mode, the name chosen for the chapter of a
    directory with a name is not empty; and unless names are to come from
    the README, choosing it reads no file and cannot fail. *)
Theorem chapter_name_is_never_empty :
  forall item itemPath entries chapterMeta chapterFrom,
    String.eqb item "" = false ->
    (forall name,
        chapter_name_for item itemPath entries chapterMeta chapterFrom = Ok name ->
        String.eqb name "" = false)
    /\ (String.eqb chapterFrom "readme" = false ->
        exists name,
          chapter_name_for item itemPath entries chapterMeta chapterFrom = Ok name).
Proof.
  intros item itemPath entries chapterMeta chapterFrom Hitem. unfold chapter_name_for.
  destruct (Js.truthy (meta_name chapterMeta)) as [metaName|] eqn:Hmeta.
  - split.
    + intros name H. inversion H; subst. exact (truthy_nonempty _ _ Hmeta).
    + intros _. exists metaName. reflexivity.
  - destruct (String.eqb chapterFrom "readme").
    + split; [|discriminate]. intros name H.
      destruct (deriveNameFromReadme itemPath entries) as [derived|e]; [|discriminate].
      inversion H; subst. apply or_else_nonempty. exact Hitem.
    + split; [|intros _; exists item; reflexivity].
      intros name H. inversion H; subst. exact Hitem.
Qed.

Lemma find_of_type kind (q : SearchResult -> bool) results r :
  find (fun r => of_type kind r && q r) results = Some r ->
  In r results /\ sr_type r = kind /\ q r = true.
Proof.
  intros H. apply find_some in H. destruct H as [Hin Hq].
  apply andb_true_iff in Hq. destruct Hq as [Ht Hq].
  unfold of_type in Ht. apply String.eqb_eq in Ht. repeat split; assumption.
Qed.

(** ** The Book a lookup answers with *)



(** X26. An entry of a directory keeps its name under [path.join]: for a
    valid entry name, the path the walker builds has that name as base
    name and the same extension, so it is supported, and its format
    detected, exactly as the name alone would be; and the page made of it
    is named after the file name without its extension. *)
Theorem entry_path_keeps_name_and_format :
  forall dir name bookId chapterId content options,
    valid_name name = true ->
    let filePath := Path.join dir name in
    Path.basename filePath = name
    /\ Path.extname filePath = Path.extname name
    /\ isSupportedFile filePath = isSupportedFile name
    /\ detectFormat filePath = detectFormat name
    /\ pd_name (page_data bookId chapterId filePath content (Path.basename filePath) options)
       = Path.basename_ext name (Path.extname name).
Proof.
  intros dir name bookId chapterId content options Hv filePath. unfold filePath.
  split; [apply basename_join; exact Hv|].
  split; [apply extname_join; exact Hv|].
  split; [apply isSupportedFile_join; exact Hv|].
  split.
  - unfold detectFormat. rewrite (extname_join dir name Hv). reflexivity.
  - unfold page_data. cbn [pd_name]. rewrite (basename_join dir name Hv). reflexivity.
Qed.

(** * The pages an import asks for *)

Section Gives.

Context {X : Type}.
Variable proj : event -> list X.

Lemma gives_ret {A} (a : A) : gives proj [] (ret a).
Proof.
  intros w o w' H. inversion H. exists [].
  split; [symmetry; apply app_nil_r | reflexivity].
Qed.

Lemma gives_lift {A} (x : outcome A) : gives proj [] (lift x).
Proof.
  intros w o w' H. inversion H. exists [].
  split; [symmetry; apply app_nil_r|]. destruct o; [reflexivity | apply starts_refl].
Qed.

Lemma gives_emit e : gives proj (proj e) (emit e).
Proof.
  intros w o w' H. inversion H; subst. exists [e]. split; [reflexivity|].
  simpl. apply app_nil_r.
Qed.

Lemma gives_emit_nil e : proj e = [] -> gives proj [] (emit e).
Proof. intros H. rewrite <- H. apply gives_emit. Qed.

Lemma gives_of_keeps {A} (P : event -> bool) (m : M world A) :
  (forall e, P e = true -> proj e = []) ->
  keeps (extends P) m -> gives proj [] m.
Proof.
  intros HP K w o w' H. destruct (K _ _ _ H) as [new [T F]].
  exists new. split; [exact T|].
  assert (E : flat_map proj new = []).
  { clear T. induction new as [|e new IH]; [reflexivity|].
    simpl in F. apply andb_true_iff in F. destruct F as [He Hn].
    simpl. rewrite (HP e He), (IH Hn). reflexivity. }
  rewrite E. destruct o; [reflexivity | apply starts_refl].
Qed.

Lemma gives_bind {A B} p1 p2 ps (m : M world A) (f : A -> M world B) :
  gives proj p1 m -> (forall a, gives proj p2 (f a)) -> ps = p1 ++ p2 ->
  gives proj ps (x <- m ;; f x).
Proof.
  intros Hm Hf -> w o w' H.
  destruct (bind_inv _ _ _ _ _ H) as [[a [w1 [E1 E2]]] | [e [E1 ->]]].
  - destruct (Hm _ _ _ E1) as [n1 [T1 P1]]. destruct (Hf a _ _ _ E2) as [n2 [T2 P2]].
    exists (n1 ++ n2). split; [rewrite T2, T1; symmetry; apply app_assoc|].
    rewrite flat_map_app. simpl in P1. rewrite P1.
    destruct o as [b|e].
    + rewrite P2. reflexivity.
    + destruct P2 as [rest ->]. exists rest. apply app_assoc.
  - destruct (Hm _ _ _ E1) as [n1 [T1 [rest P1]]].
    exists n1. split; [exact T1|].
    exists (rest ++ p2). rewrite P1. symmetry. apply app_assoc.
Qed.

Lemma gives_for_each {A} (g : A -> list X) (body : A -> M world unit) (xs : list A) :
  (forall x, In x xs -> gives proj (g x) (body x)) ->
  gives proj (flat_map g xs) (for_each body xs).
Proof.
  induction xs as [|x xs IH]; intros H.
  - apply gives_ret.
  - intros w o w' E. rewrite for_each_cons in E. revert w o w' E.
    apply (gives_bind (g x) (flat_map g xs)).
    + apply H. left. reflexivity.
    + intros _. apply IH. intros y Hy. apply H. right. exact Hy.
    + reflexivity.
Qed.

Lemma gives_walkFiles (g : string * string -> list X)
      (onFile : string -> string -> M world unit) root depth entries :
  (forall p c, gives proj (g (p, c)) (onFile p c)) ->
  gives proj (flat_map g (emitted root (Z.max 0 depth) entries))
        (walkFiles onFile root depth entries).
Proof.
  intros H w o w' E. unfold walkFiles in E. rewrite walk_emitted in E.
  revert w o w' E. apply gives_for_each. intros [p c] _. apply H.
Qed.

End Gives.

Lemma no_page_sends_nothing e : no_page e = true -> page_sent e = [].
Proof. destruct e as [[]| | | | | |]; try reflexivity. discriminate. Qed.

Ltac no_page_rules :=
  keeps_rules (extends_refl no_page) (extends_trans no_page);
  try (apply call_extends; reflexivity);
  try (apply emit_extends; reflexivity).

Lemma getTargetBook_no_page bookName dryRun :
  keeps (extends no_page) (getTargetBook bookName dryRun).
Proof. unfold getTargetBook, findBookByName, getBook, getBooks, createBook. no_page_rules. Qed.

Lemma getOrCreateChapter_no_page bookId name description dryRun :
  keeps (extends no_page) (getOrCreateChapter bookId name description dryRun).
Proof.
  unfold getOrCreateChapter, getChapters, getBookContents, createChapter. no_page_rules.
Qed.

Lemma map_over_flat_map {A B C} (h : B -> C) (g : A -> list B) (l : list A) :
  map h (flat_map g l) = flat_map (fun x => map h (g x)) l.
Proof.
  induction l as [|x l IH]; [reflexivity|].
  simpl. rewrite map_app, IH. reflexivity.
Qed.

Lemma createPage_gives data :
  gives page_sent [(in_chapter data, detach data)] (_ <- createPage data ;; ret tt).
Proof.
  apply (gives_bind page_sent [(in_chapter data, detach data)] []);
    [| intros _; apply gives_ret | reflexivity].
  intros w o w' H. unfold createPage in H. apply call_trace in H.
  exists [Request (CreatePage data)]. split; [exact H|].
  destruct o; [reflexivity | apply starts_refl].
Qed.

Lemma createPageInBook_gives bookId filePath content displayName options :
  opt_dryRun options = false ->
  gives page_sent
        [(false, planned_page bookId options (filePath, content, displayName))]
        (createPageInBook bookId filePath content displayName options).
Proof.
  intros Hdry. unfold createPageInBook. cbv zeta. rewrite Hdry.
  apply (gives_bind page_sent []
           [(false, planned_page bookId options (filePath, content, displayName))]);
    [apply gives_emit_nil; reflexivity | | reflexivity].
  intros _. apply createPage_gives.
Qed.

Lemma createPageInChapter_gives bookId chapterId filePath content displayName options :
  opt_dryRun options = false ->
  gives page_sent
        [(true, planned_page bookId options (filePath, content, displayName))]
        (createPageInChapter bookId chapterId filePath content displayName options).
Proof.
  intros Hdry. unfold createPageInChapter. cbv zeta. rewrite Hdry.
  apply (gives_bind page_sent []
           [(true, planned_page bookId options (filePath, content, displayName))]);
    [apply gives_emit_nil; reflexivity | | reflexivity].
  intros _.
  exact (createPage_gives
           (page_data bookId (Some chapterId) filePath content displayName options)).
Qed.

Lemma walked_plan_map {X} (h : string * string * string -> X) files :
  flat_map (fun pc => if isSupportedFile (fst pc)
                      then [h (fst pc, snd pc, Path.basename (fst pc))]
                      else []) files
  = map h (walked_plan files).
Proof.
  unfold walked_plan. induction files as [|[p c] files IH]; [reflexivity|].
  simpl. destruct (isSupportedFile p); simpl; rewrite IH; reflexivity.
Qed.

Lemma page_callback_gives {X} (proj : event -> list X) (x : X)
      (create : M world unit) (p : string) :
  proj Tick = [] ->
  gives proj [x] create ->
  gives proj (if isSupportedFile p then [x] else [])
        (if isSupportedFile p then create ;; emit Tick else ret tt).
Proof.
  intros Htick H. destruct (isSupportedFile p).
  - apply (gives_bind proj [x] []); [exact H | | reflexivity].
    intros _. rewrite <- Htick. apply gives_emit.
  - apply gives_ret.
Qed.

(** What the directory import asks for once its Book is known. *)
Lemma import_loops_give dirPath items options bookId :
  opt_dryRun options = false ->
  gives page_sent (planned_pages dirPath items options bookId)
    (for_each (fun item =>
                 let itemPath := Path.join dirPath (node_name item) in
                 match item with
                 | File name content =>
                     if isSupportedFile name
                     then createPageInBook bookId itemPath content name options ;;
                          emit Tick
                     else ret tt
                 | _ => ret tt
                 end) items ;;
     for_each (fun item =>
                 let itemPath := Path.join dirPath (node_name item) in
                 match item with
                 | Dir name entries =>
                     if opt_flatten options then
                       walkFiles (fun filePath content =>
                                    if isSupportedFile filePath
                                    then createPageInBook bookId filePath content
                                                          (Path.basename filePath) options ;;
                                         emit Tick
                                    else ret tt)
                                 itemPath (effective_maxDepth options - 1) entries
                     else
                       let chapterMeta := readChapterMetadata entries in
                       chapterName <- lift (chapter_name_for name itemPath entries chapterMeta
                                              (Js.or_else (opt_chapterFrom options) "dir")) ;;
                       chapter <- getOrCreateChapter bookId chapterName
                                    (Js.or_else (meta_description chapterMeta) "")
                                    (opt_dryRun options) ;;
                       walkFiles (fun filePath content =>
                                    if isSupportedFile filePath
                                    then createPageInChapter bookId (chapter_id chapter)
                                                             filePath content
                                                             (Path.basename filePath) options ;;
                                         emit Tick
                                    else ret tt)
                                 itemPath (effective_maxDepth options - 1) entries
                 | _ => ret tt
                 end) items).
Proof.
  intros Hdry. unfold planned_pages.
  apply (gives_bind page_sent
           (map (fun f => (false, planned_page bookId options f)) (root_plan dirPath items))
           (map (fun f => (negb (opt_flatten options), planned_page bookId options f))
                (nested_plan dirPath (effective_maxDepth options - 1) items)));
    [ | intros _ | reflexivity].
  - unfold root_plan. rewrite map_over_flat_map.
    apply gives_for_each. intros item _. cbv zeta.
    destruct item as [name content | name entries | name]; try apply gives_ret.
    destruct (isSupportedFile name) eqn:Hs; [|apply gives_ret].
    cbn [map].
    apply (gives_bind page_sent
             [(false, planned_page bookId options (Path.join dirPath name, content, name))] []);
      [apply createPageInBook_gives; exact Hdry | intros _; apply gives_emit_nil; reflexivity | reflexivity].
  - unfold nested_plan. rewrite map_over_flat_map.
    apply gives_for_each. intros item _. cbv zeta.
    destruct item as [name content | name entries | name]; try apply gives_ret.
    rewrite <- walked_plan_map.
    destruct (opt_flatten options); cbn [negb].
    + apply (gives_walkFiles page_sent
               (fun pc => if isSupportedFile (fst pc)
                          then [(false, planned_page bookId options
                                          (fst pc, snd pc, Path.basename (fst pc)))]
                          else [])).
      intros p c. cbn [fst snd].
      apply page_callback_gives; [reflexivity|].
      apply createPageInBook_gives. exact Hdry.
    + apply (gives_bind page_sent []
               (flat_map (fun pc => if isSupportedFile (fst pc)
                                    then [(true, planned_page bookId options
                                                   (fst pc, snd pc, Path.basename (fst pc)))]
                                    else [])
                         (emitted (Path.join dirPath name)
                                  (Z.max 0 (effective_maxDepth options - 1)) entries)));
        [apply gives_lift | intros chapterName | reflexivity].
      apply (gives_bind page_sent []
               (flat_map (fun pc => if isSupportedFile (fst pc)
                                    then [(true, planned_page bookId options
                                                   (fst pc, snd pc, Path.basename (fst pc)))]
                                    else [])
                         (emitted (Path.join dirPath name)
                                  (Z.max 0 (effective_maxDepth options - 1)) entries)));
        [ | intros chapter | reflexivity].
      * apply (gives_of_keeps page_sent no_page);
          [apply no_page_sends_nothing | apply getOrCreateChapter_no_page].
      * apply (gives_walkFiles page_sent
                 (fun pc => if isSupportedFile (fst pc)
                            then [(true, planned_page bookId options
                                           (fst pc, snd pc, Path.basename (fst pc)))]
                            else [])).
        intros p c. cbn [fst snd].
        apply page_callback_gives; [reflexivity|].
        apply createPageInChapter_gives. exact Hdry.
Qed.

Lemma walked_plan_paths files : map plan_path (walked_plan files) = supported_paths files.
Proof.
  unfold walked_plan, supported_paths.
  induction files as [|[p c] files IH]; [reflexivity|].
  simpl. destruct (isSupportedFile p); simpl; rewrite IH; reflexivity.
Qed.

Lemma root_plan_paths dirPath items :
  map plan_path (root_plan dirPath items) = root_files dirPath items.
Proof.
  unfold root_plan, root_files. rewrite map_over_flat_map. apply flat_map_ext_in.
  intros [name content | name entries | name] _; try reflexivity.
  destruct (isSupportedFile name); reflexivity.
Qed.

Lemma nested_plan_paths dirPath depth items :
  map plan_path (nested_plan dirPath depth items) = nested_files dirPath depth items.
Proof.
  unfold nested_plan, nested_files. rewrite map_over_flat_map. apply flat_map_ext_in.
  intros [name content | name entries | name] _; try reflexivity.
  apply walked_plan_paths.
Qed.

Lemma first_level_plan_paths dirPath items :
  map plan_path (first_level_plan dirPath items) = first_level_files dirPath items.
Proof.
  unfold first_level_plan, first_level_files. rewrite map_over_flat_map.
  apply flat_map_ext_in.
  intros [name content | name entries | name] _; try reflexivity.
  apply walked_plan_paths.
Qed.

Lemma import_plan_paths dirPath items options :
  map plan_path (import_plan dirPath items options)
  = root_files dirPath items
    ++ nested_files dirPath (effective_maxDepth options - 1) items.
Proof. unfold import_plan. rewrite map_app, root_plan_paths, nested_plan_paths. reflexivity. Qed.

Lemma nested_plan_no_budget dirPath depth items :
  (depth <= 0)%Z -> nested_plan dirPath depth items = first_level_plan dirPath items.
Proof.
  intros Hd. unfold nested_plan, first_level_plan. apply flat_map_ext_in.
  intros [name content | name entries | name] _; try reflexivity.
  rewrite emitted_no_budget; [reflexivity | lia].
Qed.

Lemma pages_sent_app a b : pages_sent (a ++ b) = pages_sent a ++ pages_sent b.
Proof. apply flat_map_app. Qed.

Lemma no_page_sent new : forallb no_page new = true -> pages_sent new = [].
Proof.
  induction new as [|e new IH]; intros H; [reflexivity|].
  simpl in H. apply andb_true_iff in H. destruct H as [He Hn].
  unfold pages_sent. simpl. rewrite (no_page_sends_nothing e He). exact (IH Hn).
Qed.

(** The pages a directory import asks for, outside a dry run: none when
    the lookup of the Book fails; else those of the plan, for the Book the
    lookup returned, all of them when the run completes and an initial part
    of them when it throws. *)
Lemma importDirectory_sends dirPath items options w o w' :
  opt_dryRun options = false ->
  importDirectory dirPath items options w = (o, w') ->
  exists new,
    trace w' = trace w ++ new
    /\ ((exists e,
            getTargetBook (import_book_name dirPath items options) false w = (Throw e, w')
            /\ o = Throw e /\ pages_sent new = [])
        \/ exists b w1,
             getTargetBook (import_book_name dirPath items options) false w = (Ok b, w1)
             /\ match o with
                | Ok _ => pages_sent new = planned_pages dirPath items options (book_id b)
                | Throw _ =>
                    starts (pages_sent new) (planned_pages dirPath items options (book_id b))
                end).
Proof.
  intros Hdry H. unfold importDirectory in H. cbv zeta in H.
  fold (import_book_name dirPath items options) in H.
  destruct (bind_inv _ _ _ _ _ H) as [[b [w1 [E1 H1]]] | [e [E1 ->]]]; clear H;
    destruct (getTargetBook_no_page _ _ _ _ _ E1) as [pre [Tpre Fpre]];
    rewrite Hdry in E1.
  2: { exists pre. split; [exact Tpre|]. left. exists e.
       split; [exact E1|]. split; [reflexivity | apply no_page_sent; exact Fpre]. }
  match type of H1 with
  | ?m _ = _ =>
      assert (G : gives page_sent (planned_pages dirPath items options (book_id b)) m)
  end.
  { apply (gives_bind page_sent [] (planned_pages dirPath items options (book_id b)));
      [ | intros _ | reflexivity].
    { apply (gives_of_keeps page_sent no_page); [apply no_page_sends_nothing|].
      unfold updateBook. no_page_rules. }
    apply (gives_bind page_sent [] (planned_pages dirPath items options (book_id b)));
      [apply gives_emit_nil; reflexivity | intros _ | reflexivity].
    apply import_loops_give. exact Hdry. }
  destruct (G _ _ _ H1) as [new [Tnew Pnew]].
  exists (pre ++ new). split; [rewrite Tnew, Tpre, app_assoc; reflexivity|].
  right. exists b, w1. split; [exact E1|].
  rewrite pages_sent_app, (no_page_sent pre Fpre). exact Pnew.
Qed.

Lemma pages_sent_requests tr :
  pages_sent tr = map (fun d => (in_chapter d, detach d)) (page_requests tr).
Proof.
  unfold pages_sent, page_requests. induction tr as [|e tr IH]; [reflexivity|].
  simpl. rewrite map_app, <- IH. f_equal.
  destruct e as [[]| | | | | |]; reflexivity.
Qed.

Lemma detach_book_level d : in_chapter d = false -> detach d = d.
Proof.
  destruct d as [b c n h m]. unfold in_chapter, detach. simpl.
  destruct c; [discriminate | reflexivity].
Qed.

Lemma book_level_requests reqs ds :
  map (fun d => (in_chapter d, detach d)) reqs = map (fun d => (false, d)) ds ->
  reqs = ds.
Proof.
  revert ds. induction reqs as [|r reqs IH]; intros [|d ds] H; try discriminate;
    [reflexivity|].
  simpl in H. injection H as H1 H2 H3.
  rewrite (detach_book_level r H1) in H2. subst d. f_equal. apply IH. exact H3.
Qed.

Lemma book_level_requests_start reqs ds :
  starts (map (fun d => (in_chapter d, detach d)) reqs) (map (fun d => (false, d)) ds) ->
  starts reqs ds.
Proof.
  intros [rest H]. apply map_eq_app in H.
  destruct H as [ds1 [ds2 [Hds [H1 _]]]]. symmetry in H1.
  apply book_level_requests in H1. subst reqs ds. exists ds2. reflexivity.
Qed.

Lemma planned_pages_flatten dirPath items options bookId :
  opt_flatten options = true ->
  planned_pages dirPath items options bookId
  = map (fun d => (false, d))
        (map (planned_page bookId options) (import_plan dirPath items options)).
Proof.
  intros Hflat. unfold planned_pages, import_plan. rewrite Hflat.
  rewrite !map_app, !map_map. reflexivity.
Qed.

Lemma testConnection_no_page : keeps (extends no_page) testConnection.
Proof. unfold testConnection. no_page_rules. Qed.

(** Outside a dry run, a directory import is the connectivity check
    followed by [importDirectory]. *)
Lemma execute_directory_inv sourcePath items options w o w' :
  opt_dryRun options = false ->
  execute sourcePath (SrcDir items) options w = (o, w') ->
  (testConnection w = (Ok false, w') /\ o = Throw ConnectFailed)
  \/ exists w0,
       testConnection w = (Ok true, w0)
       /\ importDirectory sourcePath items options w0 = (o, w').
Proof.
  intros Hdry H. unfold execute in H. rewrite Hdry in H.
  destruct (bind_inv _ _ _ _ _ H) as [[[] [w0 [E0 H0]]] | [e [E0 ->]]]; clear H.
  - destruct (bind_inv _ _ _ _ _ E0) as [[connected [wc [Ec Hc]]] | [e [Ec _]]].
    + destruct connected; [|discriminate]. inversion Hc; subst wc.
      right. exists w0. split; assumption.
    + exfalso. unfold testConnection, try_catch in Ec.
      destruct ((call GetBooks serve_getBooks ;; ret true) w) as [[x|x] wx]; discriminate.
  - destruct (bind_inv _ _ _ _ _ E0) as [[connected [wc [Ec Hc]]] | [x [Ec _]]].
    + destruct connected; [discriminate|]. inversion Hc; subst. left. split; reflexivity || assumption.
    + exfalso. unfold testConnection, try_catch in Ec.
      destruct ((call GetBooks serve_getBooks ;; ret true) w) as [[y|y] wy]; discriminate.
Qed.

Lemma execute_directory_sends sourcePath items options w o w' :
  opt_dryRun options = false ->
  execute sourcePath (SrcDir items) options w = (o, w') ->
  exists new,
    trace w' = trace w ++ new
    /\ match o with
       | Ok _ =>
           exists w0 b w1,
             testConnection w = (Ok true, w0)
             /\ getTargetBook (import_book_name sourcePath items options) false w0 = (Ok b, w1)
             /\ pages_sent new = planned_pages sourcePath items options (book_id b)
       | Throw _ =>
           pages_sent new = []
           \/ exists w0 b w1,
                testConnection w = (Ok true, w0)
                /\ getTargetBook (import_book_name sourcePath items options) false w0
                   = (Ok b, w1)
                /\ starts (pages_sent new) (planned_pages sourcePath items options (book_id b))
       end.
Proof.
  intros Hdry H.
  destruct (execute_directory_inv _ _ _ _ _ _ Hdry H) as [[Ec ->] | [w0 [Ec Hi]]];
    destruct (testConnection_no_page _ _ _ Ec) as [pre [Tpre Fpre]].
  - exists pre. split; [exact Tpre|]. left. apply no_page_sent. exact Fpre.
  - destruct (importDirectory_sends _ _ _ _ _ _ Hdry Hi)
      as [new [Tnew [[e [Eg [-> Hnone]]] | [b [w1 [Eg Hsent]]]]]];
      exists (pre ++ new);
      (split; [rewrite Tnew, Tpre, app_assoc; reflexivity|]);
      rewrite pages_sent_app, (no_page_sent pre Fpre); cbn [app].
    + left. exact Hnone.
    + destruct o as [[]|e].
      * exists w0, b, w1. split; [exact Ec|]. split; [exact Eg | exact Hsent].
      * right. exists w0, b, w1. split; [exact Ec|]. split; [exact Eg | exact Hsent].
Qed.

Lemma execute_directory_yields sourcePath items options :
  yields (map plan_path (import_plan sourcePath items options))
         (execute sourcePath (SrcDir items) options).
Proof.
  rewrite import_plan_paths. unfold execute.
  apply (yields_bind [] (root_files sourcePath items
          ++ nested_files sourcePath (effective_maxDepth options - 1) items));
    [ | intros _; apply importDirectory_yields | reflexivity].
  apply yields_silent. unfold testConnection. silent_rules.
Qed.

(** C3. With [flatten] set, an import of a directory never asks the remote
    store for a chapter (no [createChapter], no page in a chapter, no call
    of [createPageInChapter]), and the files it imports all become pages of
    the Book: page creation is called on the supported files of the root
    and on those the walk reaches below the first-level directories within
    the depth budget, in that order, and outside a dry run a completed run
    has sent exactly one [createPage] for each of them, without a chapter,
    for the Book the lookup returned.  A run that throws has done an
    initial part of this. *)
Theorem flatten_sends_book_level_pages :
  forall sourcePath items options w o w',
    has_subdirectory items = true ->
    opt_flatten options = true ->
    execute sourcePath (SrcDir items) options w = (o, w') ->
    exists new,
      trace w' = trace w ++ new
      /\ filter touches_chapter new = []
      /\ match o with
         | Ok _ =>
             page_call_paths new = map plan_path (import_plan sourcePath items options)
         | Throw _ =>
             starts (page_call_paths new)
                    (map plan_path (import_plan sourcePath items options))
         end
      /\ (opt_dryRun options = false ->
          match o with
          | Ok _ =>
              exists w0 b w1,
                testConnection w = (Ok true, w0)
                /\ getTargetBook (import_book_name sourcePath items options) false w0
                   = (Ok b, w1)
                /\ page_requests new
                   = map (planned_page (book_id b) options)
                         (import_plan sourcePath items options)
          | Throw _ =>
              page_requests new = []
              \/ exists w0 b w1,
                   testConnection w = (Ok true, w0)
                   /\ getTargetBook (import_book_name sourcePath items options) false w0
                      = (Ok b, w1)
                   /\ starts (page_requests new)
                             (map (planned_page (book_id b) options)
                                  (import_plan sourcePath items options))
          end).
Proof.
  intros sourcePath items options w o w' _ Hflat Hrun.
  assert (K : keeps (extends book_level) (execute sourcePath (SrcDir items) options)).
  { unfold execute. book_level_rules.
    - apply testConnection_book_level.
    - apply importDirectory_flatten_book_level. exact Hflat. }
  destruct (K w o w' Hrun) as [new [Htrace Hnew]].
  exists new. split; [exact Htrace|]. split; [apply book_level_filter; exact Hnew|].
  split.
  - destruct (execute_directory_yields sourcePath items options w o w' Hrun)
      as [new' [Htrace' Hpaths]].
    rewrite Htrace in Htrace'. apply app_inv_head in Htrace'. subst new'. exact Hpaths.
  - intros Hdry.
    destruct (execute_directory_sends _ _ _ _ _ _ Hdry Hrun) as [new' [Htrace' Hsent]].
    rewrite Htrace in Htrace'. apply app_inv_head in Htrace'. subst new'.
    rewrite pages_sent_requests in Hsent.
    destruct o as [[]|e].
    + destruct Hsent as [w0 [b [w1 [Ec [Eg Hsent]]]]].
      exists w0, b, w1. split; [exact Ec|]. split; [exact Eg|].
      rewrite (planned_pages_flatten _ _ _ _ Hflat) in Hsent.
      apply book_level_requests. exact Hsent.
    + destruct Hsent as [Hnone | [w0 [b [w1 [Ec [Eg Hsent]]]]]].
      * left. destruct (page_requests new); [reflexivity | discriminate].
      * right. exists w0, b, w1. split; [exact Ec|]. split; [exact Eg|].
        rewrite (planned_pages_flatten _ _ _ _ Hflat) in Hsent.
        apply book_level_requests_start. exact Hsent.
Qed.

(** C4. With [maxDepth = 0], a directory import calls page creation on the
    supported files of the root and, for each first-level directory, on
    exactly the supported files lying directly inside it, in that order: on
    all of them when it completes, on an initial part of them when it
    throws, and on no file of a folder nested deeper.  Outside a dry run
    each of those calls sends its [createPage]: a completed run has asked,
    for the Book the lookup returned, for one page per such file, the files
    of the root at the level of the Book and the others in a chapter unless
    [flatten] is set.  Where the files of the first-level directories bear
    valid entry names, they are the files whose own name has a supported
    extension. *)
Theorem max_depth_zero_first_level_only :
  forall dirPath items options w o w',
    opt_maxDepth options = Some 0%Z ->
    importDirectory dirPath items options w = (o, w') ->
    exists new,
      trace w' = trace w ++ new
      /\ match o with
         | Ok _ =>
             page_call_paths new
             = root_files dirPath items ++ first_level_files dirPath items
         | Throw _ =>
             starts (page_call_paths new)
                    (root_files dirPath items ++ first_level_files dirPath items)
         end
      /\ (opt_dryRun options = false ->
          let pages bookId :=
            map (fun f => (false, planned_page bookId options f)) (root_plan dirPath items)
            ++ map (fun f => (negb (opt_flatten options), planned_page bookId options f))
                   (first_level_plan dirPath items) in
          match o with
          | Ok _ =>
              exists b w1,
                getTargetBook (import_book_name dirPath items options) false w = (Ok b, w1)
                /\ pages_sent new = pages (book_id b)
          | Throw _ =>
              pages_sent new = []
              \/ exists b w1,
                   getTargetBook (import_book_name dirPath items options) false w
                   = (Ok b, w1)
                   /\ starts (pages_sent new) (pages (book_id b))
          end)
      /\ map plan_path (root_plan dirPath items) = root_files dirPath items
      /\ map plan_path (first_level_plan dirPath items) = first_level_files dirPath items
      /\ ((forall name entries, In (Dir name entries) items -> well_named entries) ->
          first_level_files dirPath items
          = flat_map (fun item =>
                        match item with
                        | Dir name entries => root_files (Path.join dirPath name) entries
                        | _ => []
                        end) items).
Proof.
  intros dirPath items options w o w' Hdepth Hrun.
  assert (Hzero : (effective_maxDepth options - 1 <= 0)%Z).
  { unfold effective_maxDepth. rewrite Hdepth. lia. }
  destruct (importDirectory_yields dirPath items options w o w' Hrun)
    as [new [Htrace Hpaths]].
  rewrite (nested_files_no_budget _ _ _ Hzero) in Hpaths.
  exists new. split; [exact Htrace|]. split; [exact Hpaths|].
  split; [|split; [apply root_plan_paths|split; [apply first_level_plan_paths|]]].
  - intros Hdry. cbv zeta.
    destruct (importDirectory_sends _ _ _ _ _ _ Hdry Hrun)
      as [new' [Htrace' [[e [Eg [-> Hnone]]] | [b [w1 [Eg Hsent]]]]]];
      rewrite Htrace in Htrace'; apply app_inv_head in Htrace'; subst new'.
    + left. exact Hnone.
    + unfold planned_pages in Hsent. rewrite (nested_plan_no_budget _ _ _ Hzero) in Hsent.
      destruct o as [[]|e].
      * exists b, w1. split; [exact Eg | exact Hsent].
      * right. exists b, w1. split; [exact Eg | exact Hsent].
  - apply first_level_files_by_name.
Qed.

(** * The depth budget, level by level *)





(** * Lookup by numeric id *)

Example parseInt_small : Js.parseInt "42" = 42%Z.
Proof. vm_compute. reflexivity. Qed.

Example parseInt_leading_zeros : Js.parseInt "0042" = 42%Z.
Proof. vm_compute. reflexivity. Qed.

Example parseInt_largest_exact : Js.parseInt "9007199254740992" = 9007199254740992%Z.
Proof. vm_compute. reflexivity. Qed.

Example parseInt_tie_to_even : Js.parseInt "9007199254740993" = 9007199254740992%Z.
Proof. vm_compute. reflexivity. Qed.

Example parseInt_tie_to_even_up : Js.parseInt "9007199254740995" = 9007199254740996%Z.
Proof. vm_compute. reflexivity. Qed.

Example parseInt_twenty_digits :
  Js.parseInt "12345678901234567890" = 12345678901234567168%Z.
Proof. vm_compute. reflexivity. Qed.

(** The lookup by id of [getTargetBook]: a failure is caught. *)
Lemma lookup_by_id_run name w :
  test false re_all_digits name = true ->
  (if test false re_all_digits name
   then try_catch (b <- getBook (Js.parseInt name) ;; ret (Some (br_book b)))
                  (fun _ => ret None)
   else ret None) w
  = match getBook (Js.parseInt name) w with
    | (Ok br, w1) => (Ok (Some (br_book br)), w1)
    | (Throw _, w1) => (Ok None, w1)
    end.
Proof.
  intros Ht. rewrite Ht. unfold try_catch. rewrite bind_run.
  destruct (getBook (Js.parseInt name) w) as [[br|e] w1]; reflexivity.
Qed.

(** C7. For an identifier made of digits, [getTargetBook] first asks for
    the Book of that number, [GET /books/{id}], whatever else happens.  If
    that request answers, its Book is the result and nothing more is sent.
    If it fails, for whatever reason, the failure is swallowed: against a
    transport that fails no more, the Books are listed, the first one whose
    name or slug equals the identifier up to case is the result and nothing
    is created; when there is none, a Book is created with the identifier
    as name and the description "Book created by bookstack-cli import", and
    that new Book, now on the remote store, is the result.  (The
    identifier has at most 20 digits, where the language fixes the number
    [parseInt] reads.) *)
Theorem numeric_id_lookup_then_name_search :
  forall name w,
    only_digits name = true ->
    (String.length name <= 20)%nat ->
    let id := Js.parseInt name in
    let same_name (b : Book) :=
      String.eqb (Js.toLowerCase (book_name b)) (Js.toLowerCase name)
      || String.eqb (Js.toLowerCase (book_slug b)) (Js.toLowerCase name) in
    (forall o w',
        getTargetBook name false w = (o, w') ->
        exists more, trace w' = trace w ++ Request (GetBook id) :: more)
    /\ (forall br w1,
           getBook id w = (Ok br, w1) ->
           getTargetBook name false w = (Ok (br_book br), w1)
           /\ trace w1 = trace w ++ [Request (GetBook id)])
    /\ (forall e w1,
           getBook id w = (Throw e, w1) ->
           reliable w1 ->
           match find same_name (books (remote w1)) with
           | Some b =>
               exists w',
                 getTargetBook name false w = (Ok b, w')
                 /\ trace w' = trace w ++ [Request (GetBook id); Request GetBooks]
                 /\ remote w' = remote w1
           | None =>
               let created :=
                 mkBook (next_id (remote w1)) name (server_slug name)
                        (Some "Book created by bookstack-cli import") in
               exists w',
                 getTargetBook name false w = (Ok created, w')
                 /\ trace w' = trace w
                               ++ [Request (GetBook id); Request GetBooks;
                                   Request (CreateBook name
                                              "Book created by bookstack-cli import")]
                 /\ books (remote w') = books (remote w1) ++ [created]
           end).
Proof.
  intros name w Hdigits _ id same_name. subst id.
  pose proof (only_digits_test name Hdigits) as Ht.
  assert (Hstep : forall o w',
             getTargetBook name false w = (o, w') ->
             exists byId w1,
               (if test false re_all_digits name
                then try_catch (b <- getBook (Js.parseInt name) ;; ret (Some (br_book b)))
                               (fun _ => ret None)
                else ret None) w = (Ok byId, w1)
               /\ trace w1 = trace w ++ [Request (GetBook (Js.parseInt name))]).
  { intros o w' H. rewrite (lookup_by_id_run name w Ht).
    destruct (getBook (Js.parseInt name) w) as [[br|e] w1] eqn:E; unfold getBook in E;
      apply call_trace in E; eexists; eexists; (split; [reflexivity | exact E]). }
  split; [|split].
  - intros o w' H. destruct (Hstep o w' H) as [byId [w1 [E1 T1]]].
    unfold getTargetBook in H. rewrite bind_run in H. rewrite E1 in H.
    assert (K : keeps (extends is_request)
                  (found <- match byId with
                            | Some b => ret (Some b)
                            | None => findBookByName name
                            end ;;
                   match found with
                   | None => createBook name default_description
                   | Some b => ret b
                   end)).
    { unfold findBookByName, getBooks, createBook. request_rules. }
    destruct (K _ _ _ H) as [more [Tm _]].
    exists more. rewrite Tm, T1, <- app_assoc. reflexivity.
  - intros br w1 E. split; [|unfold getBook in E; apply call_trace in E; exact E].
    unfold getTargetBook. rewrite bind_run.
    rewrite (lookup_by_id_run name w Ht). rewrite E. reflexivity.
  - intros e w1 E Hrel.
    assert (T1 : trace w1 = trace w ++ [Request (GetBook (Js.parseInt name))]).
    { unfold getBook in E. apply call_trace in E. exact E. }
    assert (G : getTargetBook name false w
                = (found <- findBookByName name ;;
                   match found with
                   | None => createBook name default_description
                   | Some b => ret b
                   end) w1).
    { unfold getTargetBook. rewrite bind_run.
      rewrite (lookup_by_id_run name w Ht). rewrite E. reflexivity. }
    rewrite G. unfold findBookByName. rewrite !bind_run.
    destruct (getBooks_reliable w1 Hrel) as [w2 [E2 [R2 [L2 T2]]]].
    rewrite E2. cbn [ret].
    change (fun book => same_text (book_name book) name || same_text (book_slug book) name)
      with same_name.
    destruct (find same_name (books (remote w1))) as [b|].
    + exists w2. split; [reflexivity|]. split; [|exact R2].
      rewrite T2, T1, <- app_assoc. reflexivity.
    + cbv zeta. destruct (createBook_reliable name w2 L2) as [w3 [E3 [R3 [L3 T3]]]].
      exists w3. split; [|split].
      * rewrite E3. unfold new_book. rewrite R2. reflexivity.
      * rewrite T3, T2, T1, <- !app_assoc. reflexivity.
      * rewrite R3. unfold with_book, new_book. cbn [books]. rewrite R2. reflexivity.
Qed.

(** * Single-file import *)

Lemma importFile_run filePath content options w o w' :
  opt_dryRun options = false ->
  importFile filePath content options w = (o, w') ->
  (exists e,
      getTargetBook (file_book_name filePath options) false w = (Throw e, w')
      /\ o = Throw e)
  \/ exists b w1 r,
       getTargetBook (file_book_name filePath options) false w = (Ok b, w1)
       /\ createPage (importFilePageData filePath content (book_id b) options) w1 = (r, w')
       /\ trace w' = trace w1
                     ++ [Request (CreatePage
                                    (importFilePageData filePath content (book_id b) options))]
       /\ o = match r with
              | Ok _ => Ok tt
              | Throw e => Throw e
              end.
Proof.
  intros Hdry H. unfold importFile in H. cbv zeta in H. rewrite Hdry in H.
  fold (file_book_name filePath options) in H.
  destruct (bind_inv _ _ _ _ _ H) as [[b [w1 [E1 H1]]] | [e [E1 ->]]]; clear H.
  - right. exists b, w1. rewrite bind_run in H1.
    destruct (createPage (importFilePageData filePath content (book_id b) options) w1)
      as [r wr] eqn:E2.
    exists r.
    assert (Hw : wr = w' /\ o = match r with Ok _ => Ok tt | Throw e => Throw e end).
    { destruct r; inversion H1; split; reflexivity. }
    destruct Hw as [-> Ho].
    split; [exact E1|]. split; [reflexivity|]. split; [|exact Ho].
    unfold createPage in E2. apply call_trace in E2. exact E2.
  - left. exists e. split; [exact E1 | reflexivity].
Qed.

(** C10. A single-file import never looks at the extension of the file.
    Outside a dry run, once the Book is found or created, [importFile]
    sends one [createPage] and nothing else, whatever the path of the file:
    its html is what [convertToHtml] makes of the content for
    [options.format], or for markdown when no format is given, so that a
    [.html] or [.htm] file goes through the markdown transform like any
    other; and its markdown field holds the content exactly when
    [options.format] is the string markdown, and is empty otherwise.  When
    the lookup of the Book fails, nothing is sent. *)
Theorem importFile_ignores_extension :
  forall filePath content options w o w',
    opt_dryRun options = false ->
    importFile filePath content options w = (o, w') ->
    (exists e,
        getTargetBook (file_book_name filePath options) false w = (Throw e, w')
        /\ o = Throw e)
    \/ exists b w1 data,
         getTargetBook (file_book_name filePath options) false w = (Ok b, w1)
         /\ trace w' = trace w1 ++ [Request (CreatePage data)]
         /\ pd_book_id data = book_id b
         /\ pd_html data
            = convertToHtml content (Js.or_else (opt_format options) "markdown")
         /\ (opt_format options = None ->
             pd_html data = simpleMarkdownToHtml content /\ pd_markdown data = None)
         /\ (opt_format options = Some "markdown" -> pd_markdown data = Some content)
         /\ (opt_format options <> Some "markdown" -> pd_markdown data = None).
Proof.
  intros filePath content options w o w' Hdry Hrun.
  destruct (importFile_run _ _ _ _ _ _ Hdry Hrun)
    as [Hfail | [b [w1 [r [Eg [_ [Htrace _]]]]]]]; [left; exact Hfail|].
  right. exists b, w1, (importFilePageData filePath content (book_id b) options).
  split; [exact Eg|]. split; [exact Htrace|].
  unfold importFilePageData. cbn [pd_book_id pd_html pd_markdown].
  split; [reflexivity|]. split; [reflexivity|]. split; [|split].
  - intros Hnone. rewrite Hnone. split; reflexivity.
  - intros Hmd. rewrite Hmd. reflexivity.
  - intros Hother. destruct (opt_format options) as [f|]; [|reflexivity].
    destruct (String.eqb_spec f "markdown") as [->|_]; [|reflexivity].
    exfalso. apply Hother. reflexivity.
Qed.

Lemma page_requests_app a b : page_requests (a ++ b) = page_requests a ++ page_requests b.
Proof. apply flat_map_app. Qed.

Lemma lookups_request_no_page lookup :
  forallb book_lookup lookup = true -> page_requests lookup = [].
Proof.
  induction lookup as [|e l IH]; intros H; [reflexivity|].
  simpl in H. apply andb_true_iff in H. destruct H as [He Hl].
  destruct e as [[]| | | | | |]; try discriminate; simpl; exact (IH Hl).
Qed.

(** X16. A single-file import that completes outside a dry run has sent
    exactly one [createPage], after requests that only list, read or create
    Books: a page of the Book the lookup returned, outside any chapter,
    named after the file without its extension, with the html
    [convertToHtml] makes of the content for the forced format, or for
    markdown. *)
Theorem importFile_creates_one_page :
  forall filePath content options w w',
    opt_dryRun options = false ->
    importFile filePath content options w = (Ok tt, w') ->
    exists b w1 lookup data,
      getTargetBook (file_book_name filePath options) false w = (Ok b, w1)
      /\ trace w1 = trace w ++ lookup
      /\ forallb book_lookup lookup = true
      /\ trace w' = trace w ++ lookup ++ [Request (CreatePage data)]
      /\ page_requests (lookup ++ [Request (CreatePage data)]) = [data]
      /\ pd_book_id data = book_id b
      /\ pd_chapter_id data = None
      /\ pd_name data = Path.basename_ext filePath (Path.extname filePath)
      /\ pd_html data
         = convertToHtml content (Js.or_else (opt_format options) "markdown").
Proof.
  intros filePath content options w w' Hdry Hrun.
  destruct (importFile_run _ _ _ _ _ _ Hdry Hrun)
    as [[e [_ He]] | [b [w1 [r [Eg [_ [Htrace _]]]]]]]; [discriminate|].
  destruct (getTargetBook_lookup _ _ _ _ _ Eg) as [lookup [T [L _]]].
  exists b, w1, lookup, (importFilePageData filePath content (book_id b) options).
  split; [exact Eg|]. split; [exact T|]. split; [exact L|].
  split; [rewrite Htrace, T, app_assoc; reflexivity|].
  split; [rewrite page_requests_app, (lookups_request_no_page lookup L); reflexivity|].
  repeat split.
Qed.

(** * Format detection in the directory import *)

Lemma markdown_extension_is_not_html ext :
  string_in ext [".md"; ".markdown"] = true -> string_in ext [".html"; ".htm"] = false.
Proof.
  unfold string_in. cbn [existsb].
  destruct (String.eqb_spec ext ".md") as [->|_]; [reflexivity|].
  destruct (String.eqb_spec ext ".markdown") as [->|_]; [reflexivity|].
  discriminate.
Qed.

Lemma detected_page bookId chapterId filePath content displayName options :
  opt_format options = None ->
  let data := page_data bookId chapterId filePath content displayName options in
  pd_book_id data = bookId
  /\ pd_chapter_id data = chapterId
  /\ if html_extension filePath
     then pd_html data = content /\ pd_markdown data = None
     else pd_html data = simpleMarkdownToHtml content /\ pd_markdown data = Some content.
Proof.
  intros Hfmt data. unfold data, page_data. rewrite Hfmt.
  cbn [pd_book_id pd_chapter_id pd_html pd_markdown].
  change (Js.or_else None (detectFormat filePath)) with (detectFormat filePath).
  split; [reflexivity|]. split; [reflexivity|].
  unfold detectFormat, html_extension.
  destruct (string_in (Js.toLowerCase (Path.extname filePath)) [".md"; ".markdown"]) eqn:Emd.
  - rewrite (markdown_extension_is_not_html _ Emd). split; reflexivity.
  - destruct (string_in (Js.toLowerCase (Path.extname filePath)) [".html"; ".htm"]);
      split; reflexivity.
Qed.

(** X5. Where no format is forced, the pages of a directory import are
    never the plain-text rendering.  Outside a dry run [createPageInBook]
    and [createPageInChapter] record their call and send one [createPage],
    for the Book and the chapter they were given: for a path whose
    extension is [.html] or [.htm], whatever its case, the content goes as
    it is and the page carries no markdown; for every other path, [.txt]
    included, the html is the markdown transform of the content and the
    page carries the content as markdown. *)
Theorem detected_format_never_plain_text :
  forall bookId chapterId filePath content displayName options w o w',
    opt_dryRun options = false ->
    opt_format options = None ->
    let sent (chapter : option Z) (data : PageData) :=
      pd_book_id data = bookId
      /\ pd_chapter_id data = chapter
      /\ if html_extension filePath
         then pd_html data = content /\ pd_markdown data = None
         else pd_html data = simpleMarkdownToHtml content
              /\ pd_markdown data = Some content in
    (createPageInBook bookId filePath content displayName options w = (o, w') ->
     exists data,
       trace w' = trace w ++ [CallCreatePageInBook bookId filePath displayName;
                              Request (CreatePage data)]
       /\ sent None data)
    /\ (createPageInChapter bookId chapterId filePath content displayName options w
        = (o, w') ->
        exists data,
          trace w' = trace w ++ [CallCreatePageInChapter bookId chapterId filePath displayName;
                                 Request (CreatePage data)]
          /\ sent (Some chapterId) data).
Proof.
  intros bookId chapterId filePath content displayName options w o w' Hdry Hfmt sent.
  assert (Hsend : forall e data (x : outcome unit) (wx : world),
             (emit e ;; (_ <- createPage data ;; ret tt)) w = (x, wx) ->
             trace wx = trace w ++ [e; Request (CreatePage data)]).
  { intros e data x wx H. rewrite bind_run, emit_run in H.
    destruct (bind_inv _ _ _ _ _ H) as [[p [w2 [E2 H2]]] | [y [E2 _]]].
    - inversion H2; subst. unfold createPage in E2. apply call_trace in E2.
      rewrite E2. cbn [trace]. rewrite <- app_assoc. reflexivity.
    - unfold createPage in E2. apply call_trace in E2.
      rewrite E2. cbn [trace]. rewrite <- app_assoc. reflexivity. }
  split; intros H.
  - unfold createPageInBook in H. cbv zeta in H. rewrite Hdry in H.
    eexists. split; [exact (Hsend _ _ _ _ H)|].
    exact (detected_page bookId None filePath content displayName options Hfmt).
  - unfold createPageInChapter in H. cbv zeta in H. rewrite Hdry in H.
    eexists. split; [exact (Hsend _ _ _ _ H)|].
    exact (detected_page bookId (Some chapterId) filePath content displayName options Hfmt).
Qed.

(** * What an export writes *)

Lemma flat_map_single {A B} (f : A -> B) (l : list A) :
  flat_map (fun x => [f x]) l = map f l.
Proof. induction l as [|x l IH]; [reflexivity | simpl; rewrite IH; reflexivity]. Qed.

Lemma flat_map_none {A B} (l : list A) : flat_map (fun _ : A => @nil B) l = [].
Proof. induction l as [|x l IH]; [reflexivity | exact IH]. Qed.

Lemma request_writes_nothing e : is_request e = true -> file_written e = [].
Proof. destruct e; try discriminate. reflexivity. Qed.

Lemma export_page_writes_file dir fmt ext (dryRun : bool) p :
  gives file_written
        (if dryRun then []
         else [Path.join dir (export_filename (pi_slug p) (pi_name p) (pi_id p) ext)])
        (export_page dir fmt ext dryRun p).
Proof.
  unfold export_page. cbv zeta. destruct dryRun.
  - apply (gives_bind file_written [] []); [apply gives_ret | intros _ | reflexivity].
    apply gives_emit_nil. reflexivity.
  - apply (gives_bind file_written
             [Path.join dir (export_filename (pi_slug p) (pi_name p) (pi_id p) ext)] []);
      [ | intros _; apply gives_emit_nil; reflexivity | reflexivity].
    apply (gives_bind file_written []
             [Path.join dir (export_filename (pi_slug p) (pi_name p) (pi_id p) ext)]);
      [ | intros text | reflexivity].
    + apply (gives_of_keeps file_written is_request);
        [apply request_writes_nothing | apply exportPage_requests].
    + exact (gives_emit file_written
               (WriteFile (Path.join dir (export_filename (pi_slug p) (pi_name p)
                                                          (pi_id p) ext)) text)).
Qed.

Lemma export_loops_write outRoot fmt ext (dryRun : bool) pages chapters :
  gives file_written
        (if dryRun then [] else export_paths outRoot ext pages chapters)
        (export_loops outRoot fmt ext dryRun pages chapters).
Proof.
  unfold export_loops.
  apply (gives_bind file_written
           (flat_map (fun p =>
                        if dryRun then []
                        else [Path.join outRoot
                                (export_filename (pi_slug p) (pi_name p) (pi_id p) ext)])
                     pages)
           (flat_map (fun ch =>
                        flat_map (fun p =>
                                    if dryRun then []
                                    else [Path.join
                                            (Path.join outRoot
                                               (sanitize (Js.or_else (Some (ci_slug ch))
                                                                     (ci_name ch))
                                                ++ "-" ++ Js.show_Z (ci_id ch))%string)
                                            (export_filename (pi_slug p) (pi_name p)
                                                             (pi_id p) ext)])
                                 (pages_array ch))
                     chapters)).
  - apply gives_for_each. intros p _. apply export_page_writes_file.
  - intros _. apply gives_for_each. intros ch _. cbv zeta.
    apply (gives_bind file_written []
             (flat_map (fun p =>
                          if dryRun then []
                          else [Path.join
                                  (Path.join outRoot
                                     (sanitize (Js.or_else (Some (ci_slug ch)) (ci_name ch))
                                      ++ "-" ++ Js.show_Z (ci_id ch))%string)
                                  (export_filename (pi_slug p) (pi_name p) (pi_id p) ext)])
                       (pages_array ch)));
      [ | intros _ | reflexivity].
    + destruct dryRun; [apply gives_ret | apply gives_emit_nil; reflexivity].
    + apply gives_for_each. intros p _. apply export_page_writes_file.
  - destruct dryRun.
    + rewrite flat_map_none.
      assert (E : forall l : list ChapterItem,
                 flat_map (fun ch => flat_map (fun _ : PageItem => @nil string)
                                              (pages_array ch)) l = []).
      { induction l as [|ch l IH]; [reflexivity|].
        simpl. rewrite flat_map_none, IH. reflexivity. }
      rewrite E. reflexivity.
    + unfold export_paths. rewrite flat_map_single. apply (f_equal (app _)).
      apply flat_map_ext_in. intros ch _. cbv zeta. apply flat_map_single.
Qed.

Lemma export_paths_count outRoot ext pages chapters :
  length (export_paths outRoot ext pages chapters)
  = (length pages + pages_in_chapters chapters)%nat.
Proof.
  unfold export_paths, pages_in_chapters. rewrite length_app, length_map.
  apply (f_equal (Nat.add _)).
  induction chapters as [|ch l IH]; [reflexivity|].
  cbn [flat_map map list_sum]. cbv zeta. rewrite length_app, length_map.
  apply (f_equal (Nat.add _)). exact IH.
Qed.

Lemma setup_writes_nothing pre : forallb setup pre = true -> written_files pre = [].
Proof.
  induction pre as [|e pre IH]; intros H; [reflexivity|].
  simpl in H. apply andb_true_iff in H. destruct H as [He Hn].
  destruct e; try discriminate; simpl; exact (IH Hn).
Qed.

(** X17. A completed export does what its progress bar announces.  The
    Book is the one [resolveBookId] and [GET /books/{id}] answered with;
    the bar is created once, with the number of pages in the listing of
    that Book, top level and chapters; it gets one tick per page and ends
    exactly full; and outside a dry run the files written are, in order,
    one per top-level page in the export directory, then one per page of
    each chapter in the directory of its chapter, as many as announced.
    In a dry run no file is written. *)
Theorem export_writes_what_it_announces :
  forall bookArg opts w w',
    exportContents bookArg opts w = (Ok tt, w') ->
    exists bookId book w1 w2 new,
      resolveBookId bookArg w = (Ok (Some bookId), w1)
      /\ getBook bookId w1 = (Ok book, w2)
      /\ trace w' = trace w ++ new
      /\ filter is_bar new = [ProgressBar (listed_pages book)]
      /\ bar_of_trace new
         = Some (mkBar (Z.of_nat (listed_pages book)) (Z.of_nat (listed_pages book)))
      /\ ticks new = listed_pages book
      /\ written_files new
         = (if opt_export_dryRun opts then []
            else export_paths (export_root bookId book opts)
                              (file_ext (Js.toLowerCase (opt_export_format opts)))
                              (page_items (br_contents book))
                              (chapter_items (br_contents book)))
      /\ length (export_paths (export_root bookId book opts)
                              (file_ext (Js.toLowerCase (opt_export_format opts)))
                              (page_items (br_contents book))
                              (chapter_items (br_contents book)))
         = listed_pages book.
Proof.
  intros bookArg opts w w' H.
  destruct (exportContents_shape _ _ _ _ H)
    as [bookId [book [w1 [w2 [pre [E1 [E2 [Fpre Hloops]]]]]]]].
  set (outRoot := export_root bookId book opts) in *.
  set (fmt := Js.toLowerCase (opt_export_format opts)) in *.
  set (pages := page_items (br_contents book)) in *.
  set (chapters := chapter_items (br_contents book)) in *.
  set (dryRun := opt_export_dryRun opts) in *.
  set (total := listed_pages book) in *.
  assert (Htotal : total = (length pages + pages_in_chapters chapters)%nat) by reflexivity.
  destruct (setup_uncounted pre Fpre) as [Tpre [Bpre [_ Fold]]].
  destruct (export_loops_add ticks 1 outRoot fmt (file_ext fmt) dryRun pages chapters
              ticks_app (fun dir p => export_page_ticks dir fmt (file_ext fmt) dryRun p)
              (fun _ => eq_refl) _ _ _ Hloops) as [rest [Trest Hticks]].
  destruct (export_loops_write outRoot fmt (file_ext fmt) dryRun pages chapters _ _ _ Hloops)
    as [rest' [Trest' Hfiles]].
  destruct (export_loops_no_bar outRoot fmt (file_ext fmt) dryRun pages chapters _ _ _ Hloops)
    as [rest'' [Trest'' Hbars]].
  rewrite Trest in Trest', Trest''. apply app_inv_head in Trest', Trest''. subst rest' rest''.
  assert (Hnobar : filter is_bar rest = []).
  { clear -Hbars. induction rest as [|e rest IH]; [reflexivity|].
    simpl in Hbars. apply andb_true_iff in Hbars. destruct Hbars as [He Hn].
    unfold not_bar in He. apply negb_true_iff in He. simpl. rewrite He. exact (IH Hn). }
  assert (Hprebar : filter is_bar pre = []).
  { clear -Fpre. induction pre as [|e pre IH]; [reflexivity|].
    simpl in Fpre. apply andb_true_iff in Fpre. destruct Fpre as [He Hn].
    destruct e; try discriminate; simpl; exact (IH Hn). }
  apply no_bar_count in Hbars. rewrite <- Htotal in Hticks. cbn [trace] in Trest.
  exists bookId, book, w1, w2, (pre ++ [ProgressBar total] ++ rest).
  split; [exact E1|]. split; [exact E2|].
  split; [rewrite Trest, <- !app_assoc; reflexivity|].
  split; [rewrite !filter_app, Hprebar, Hnobar; reflexivity|].
  split; [|split; [|split]].
  - unfold bar_of_trace. rewrite fold_left_app, Fold.
    change (fold_left bar_step ([ProgressBar total] ++ rest) None)
      with (fold_left bar_step rest (Some (mkBar 0 (Z.of_nat total)))).
    rewrite (fold_ticks rest (Z.of_nat total) Hbars 0%Z) by lia.
    f_equal. f_equal. lia.
  - rewrite !ticks_app, Tpre. change (ticks [ProgressBar total]) with 0%nat. lia.
  - unfold written_files. rewrite !flat_map_app.
    change (flat_map (fun e => match e with WriteFile path _ => [path] | _ => [] end) pre)
      with (written_files pre).
    rewrite (setup_writes_nothing pre Fpre). exact Hfiles.
  - rewrite export_paths_count. reflexivity.
Qed.

(** X21. The command line trusts an identifier made of digits: for such an
    argument [resolveBookId] sends no request and answers the number it
    reads, whatever the remote store holds; so an export of a numeric id
    that no Book bears fails on [GET /books/{id}] with the store's "not
    found", after that single request and without ever listing Books.
    (The identifier has at most 20 digits, where the language fixes the
    number [parseInt] reads.) *)
Theorem numeric_book_id_is_not_looked_up :
  forall bookArg,
    only_digits bookArg = true ->
    (String.length bookArg <= 20)%nat ->
    (forall w, resolveBookId bookArg w = (Ok (Some (Js.parseInt bookArg)), w))
    /\ (forall opts w,
           reliable w ->
           find_book (Js.parseInt bookArg) (remote w) = None ->
           exists w',
             exportContents bookArg opts w = (Throw NotFound, w')
             /\ trace w' = trace w ++ [Request (GetBook (Js.parseInt bookArg))]
             /\ remote w' = remote w).
Proof.
  intros bookArg Hdigits _.
  assert (R : forall w, resolveBookId bookArg w = (Ok (Some (Js.parseInt bookArg)), w)).
  { intros w. unfold resolveBookId. rewrite (only_digits_test _ Hdigits). reflexivity. }
  split; [exact R|]. intros opts w Hrel Hmissing.
  destruct (getBook_reliable (Js.parseInt bookArg) w Hrel) as [w' [E [Hr [_ Ht]]]].
  rewrite Hmissing in E.
  exists w'. split; [|split; assumption].
  unfold exportContents. rewrite bind_run, R, bind_run, E. reflexivity.
Qed.

(** * Regular expressions read as list functions *)


Lemma run_eol multiline st k :
  run multiline Eol st k = if at_eol multiline st then k st else None.
Proof. reflexivity. Qed.

Lemma run_chr_nil multiline p prev caps k :
  run multiline (Chr p) (MState prev [] caps) k = None.
Proof. reflexivity. Qed.

Lemma star_loop_class multiline p k :
  forall l n prev caps,
    (length l < n)%nat ->
    star_loop (run multiline (Chr p)) true k n (MState prev l caps)
    = class_run p k prev l caps.
Proof.
  induction l as [|c tl IH]; intros n prev caps Hn; (destruct n as [|n]; [inversion Hn|]).
  - rewrite star_loop_step. cbv zeta. rewrite run_chr_nil. reflexivity.
  - rewrite star_loop_step. cbv zeta. rewrite run_chr.
    cbn [class_run ms_rest length]. destruct (p c); [|reflexivity].
    assert (L : (length tl <? S (length tl))%nat = true) by (apply Nat.ltb_lt; lia).
    rewrite L. rewrite IH by (simpl in Hn; lia). reflexivity.
Qed.

Lemma run_class multiline p prev l caps k :
  run multiline (Star true (Chr p)) (MState prev l caps) k = class_run p k prev l caps.
Proof. rewrite run_star. apply star_loop_class. cbn [ms_rest]. lia. Qed.
















(** ** Lines *)















(** ** A README without a name *)








Example readme_heading : readme_name "# Guide" = Some "Guide".
Proof. vm_compute. reflexivity. Qed.

(** The white space after the marks may hold line breaks: the title is
    then on a later line. *)
Example readme_title_on_a_later_line :
  readme_name (String "#" (String LF ("## Sub" ++ String LF "# Real"))) = Some "## Sub"
  /\ readme_name (String "#" (String " " (String LF (String LF "Just a paragraph"))))
     = Some "Just a paragraph".
Proof. split; vm_compute; reflexivity. Qed.

(** Marks followed by blanks only: an empty name, or no heading. *)
Example readme_bare_marks :
  readme_name "#  " = Some "" /\ readme_name "# " = Some "#".
Proof. split; vm_compute; reflexivity. Qed.

Example readme_levels :
  readme_name ("text" ++ String LF ("### Deep" ++ String LF ("## Part" ++ String LF "# Top")))
  = Some "Top"
  /\ readme_name ("text" ++ String LF ("### Deep" ++ String LF "## Part")) = Some "Part"
  /\ readme_name (String LF ("  first line  " ++ String CR (String LF "second")))
     = Some "first line".
Proof. repeat split; vm_compute; reflexivity. Qed.


(** * Identifiers made of digits *)

Lemma class_run_to_the_end p caps r :
  forall l prev,
    class_run p (fun st => run false Eol st Some) prev l caps = Some r ->
    forallb p l = true.
Proof.
  induction l as [|c tl IH]; intros prev H; [reflexivity|].
  cbn [class_run] in H. cbn [forallb]. rewrite run_eol in H.
  cbn [at_eol ms_rest andb] in H. destruct (p c); [|discriminate H].
  cbn [andb].
  destruct (class_run p _ (Some c) tl caps) as [x|] eqn:E; [|discriminate H].
  cbn [or_try] in H. inversion H; subst x. exact (IH (Some c) E).
Qed.

Lemma search_not_at_start r :
  forall l c idx, search false (Cat Bol r) (Some c) l idx = None.
Proof.
  induction l as [|x tl IH]; intros c idx; cbn [search]; unfold attempt;
    rewrite run_cat, run_bol; cbn [at_bol ms_prev andb]; [reflexivity | apply IH].
Qed.

Lemma test_only_digits name : test false re_all_digits name = only_digits name.
Proof.
  destruct (only_digits name) eqn:D; [exact (only_digits_test name D)|].
  unfold test, exec. destruct (search false re_all_digits None (Js.chars name) 0)
    as [m|] eqn:S; [|reflexivity].
  exfalso. unfold only_digits in D.
  destruct (Js.chars name) as [|c tl] eqn:C.
  { vm_compute in S. discriminate S. }
  assert (N : String.eqb name "" = false).
  { destruct name; [discriminate C | reflexivity]. }
  rewrite N in D. cbn [negb andb forallb] in D.
  cbn [search] in S.
  destruct (attempt false re_all_digits None (c :: tl)) as [st|] eqn:A.
  - unfold attempt, re_all_digits in A. cbn [Seq] in A. unfold Plus in A.
    rewrite run_cat, run_bol in A. cbn [at_bol ms_prev] in A.
    rewrite !run_cat, run_chr in A. destruct (Js.is_digit c); [|discriminate A].
    rewrite run_class in A. apply class_run_to_the_end in A.
    rewrite A in D. discriminate D.
  - unfold re_all_digits in S. cbn [Seq] in S.
    rewrite search_not_at_start in S. discriminate S.
Qed.

Lemma sole_of_type kind results r x :
  filter (of_type kind) results = [r] -> In x results -> of_type kind x = true -> x = r.
Proof.
  intros Hone Hin Ht.
  assert (I : In x (filter (of_type kind) results)) by (apply filter_In; split; assumption).
  rewrite Hone in I. destruct I as [<- | []]. reflexivity.
Qed.

Lemma of_type_eq kind r : of_type kind r = true <-> sr_type r = kind.
Proof. unfold of_type. apply String.eqb_eq. Qed.

Lemma resolve_by_search_answered searchAll kind arg w o w' :
  only_digits arg = false ->
  resolve_by_search searchAll kind arg w = (o, w') ->
  answered_by_search searchAll kind arg w o w'.
Proof.
  intros D H. unfold resolve_by_search in H. rewrite test_only_digits, D in H.
  destruct (bind_inv _ _ _ _ _ H) as [[results [w1 [E1 H1]]] | [e [E1 He]]].
  2:{ left. exists e. inversion He; subst. split; [exact E1 | reflexivity]. }
  right. inversion H1; subst o w'. exists results, (pick_result kind arg results).
  split; [exact E1|]. split; [reflexivity|].
  unfold pick_result.
  destruct (find (fun r => of_type kind r && same_text (sr_slug r) arg) results)
    as [r1|] eqn:F1.
  { destruct (find_of_type _ _ _ _ F1) as [Hin [Ht Hs]].
    split; [|split; [|split]].
    - intros id Hid. inversion Hid; subst. exists r1. repeat split; assumption.
    - intros r Hone. f_equal. f_equal.
      apply (sole_of_type kind results); [exact Hone | exact Hin | apply of_type_eq; exact Ht].
    - intros r _ _ _. exists r1. repeat split; assumption.
    - discriminate. }
  assert (NoSlug : forall r, In r results -> sr_type r = kind ->
                             same_text (sr_slug r) arg = false).
  { intros r Hin Ht. pose proof (find_none _ _ F1 r Hin) as N. cbv beta in N.
    apply of_type_eq in Ht. rewrite Ht in N. exact N. }
  destruct (find (fun r => of_type kind r && same_text (sr_name r) arg) results)
    as [r2|] eqn:F2.
  { destruct (find_of_type _ _ _ _ F2) as [Hin [Ht Hs]].
    split; [|split; [|split]].
    - intros id Hid. inversion Hid; subst. exists r2. repeat split; assumption.
    - intros r Hone. f_equal. f_equal.
      apply (sole_of_type kind results); [exact Hone | exact Hin | apply of_type_eq; exact Ht].
    - intros r Hr Hk Hslug. rewrite (NoSlug r Hr Hk) in Hslug. discriminate.
    - discriminate. }
  assert (NoName : forall r, In r results -> sr_type r = kind ->
                             same_text (sr_name r) arg = false).
  { intros r Hin Ht. pose proof (find_none _ _ F2 r Hin) as N. cbv beta in N.
    apply of_type_eq in Ht. rewrite Ht in N. exact N. }
  split; [|split; [|split]].
  - intros id Hid.
    destruct (length (filter (of_type kind) results) =? 1)%nat; [|discriminate].
    destruct (find (of_type kind) results) as [r|] eqn:F3; [|discriminate].
    inversion Hid; subst. apply find_some in F3. destruct F3 as [Hin Ht].
    exists r. split; [exact Hin|]. split; [apply of_type_eq; exact Ht | reflexivity].
  - intros r Hone. rewrite Hone. cbn [length Nat.eqb].
    destruct (find (of_type kind) results) as [x|] eqn:F3.
    + apply find_some in F3. destruct F3 as [Hin Ht].
      rewrite (sole_of_type kind results r x Hone Hin Ht). reflexivity.
    + exfalso.
      assert (I : In r (filter (of_type kind) results)) by (rewrite Hone; left; reflexivity).
      apply filter_In in I. destruct I as [Hin Ht].
      pose proof (find_none _ _ F3 r Hin) as N. rewrite Ht in N. discriminate.
  - intros r Hr Hk Hslug. rewrite (NoSlug r Hr Hk) in Hslug. discriminate.
  - intros _ r Hr Hk. split; [exact (NoSlug r Hr Hk) | exact (NoName r Hr Hk)].
Qed.

(** X24. Resolving a chapter or a page.  An argument made of digits (at
    most 20, where the language fixes the number [parseInt] reads) is
    answered as that number without any search.  Any other argument is
    searched for, once, with the type filter in the query; a failed search
    fails the resolution; otherwise the answer is the id of a search result
    of the type asked for, a sole result of that type is the answer
    whatever its name and slug, a result of that type bearing the argument
    as slug makes the answer such a result, and there is no answer only
    when no result of the type bears the argument as slug or name. *)
Theorem search_resolution_keeps_to_the_type :
  forall (searchAll : string -> M world (list SearchResult)) arg,
    (only_digits arg = true ->
     (String.length arg <= 20)%nat ->
     forall w,
       resolveChapterId searchAll arg w = (Ok (Some (Js.parseInt arg)), w)
       /\ resolvePageId searchAll arg w = (Ok (Some (Js.parseInt arg)), w))
    /\ (only_digits arg = false ->
        forall w o w',
          (resolveChapterId searchAll arg w = (o, w') ->
           answered_by_search searchAll "chapter" arg w o w')
          /\ (resolvePageId searchAll arg w = (o, w') ->
              answered_by_search searchAll "page" arg w o w')).
Proof.
  intros searchAll arg. split.
  - intros Hdigits _ w. unfold resolveChapterId, resolvePageId, resolve_by_search.
    rewrite (only_digits_test _ Hdigits). split; reflexivity.
  - intros D w o w'. split; intros H.
    + exact (resolve_by_search_answered searchAll "chapter" arg w o w' D H).
    + exact (resolve_by_search_answered searchAll "page" arg w o w' D H).
Qed.

End Program.

(** * The properties on concrete runs *)

(** The import scenario of the specification with [--book Sample]: the
    Book is created, readme.md becomes a Page of the Book, the directory
    Intro becomes the Chapter "Introduction" named by its sidecar, and its
    files become Pages of that Chapter. *)
Example import_scenario :
  let run := execute example_JSON_parse example_slug example_root (SrcDir example_tree)
                     (example_options None false false) fresh_world in
  fst run = Ok tt
  /\ map book_name (books (remote (snd run))) = ["Sample"]
  /\ map chapter_name (chapters (remote (snd run))) = ["Introduction"]
  /\ map (fun p => (page_name p, page_chapter_id p)) (pages (remote (snd run)))
     = [("readme", None); ("page1", Some 3%Z); ("x", Some 3%Z)].
Proof. vm_compute. repeat split; reflexivity. Qed.

(** An unreachable remote store stops the run at the connectivity check. *)
Example unreachable_store_aborts :
  fst (execute example_JSON_parse example_slug example_root (SrcDir example_tree)
               (example_options None false false)
               (mkWorld empty_store [true] []))
  = Throw ConnectFailed.
Proof. vm_compute. reflexivity. Qed.

(** A page creation that fails aborts the run; the Book created before it
    stays on the remote store, and fewer pages were attempted than counted. *)
Example failed_page_aborts_run :
  let run := execute example_JSON_parse example_slug example_root (SrcDir example_tree)
                     (example_options None false false)
                     (mkWorld empty_store [false; false; false; true] []) in
  fst run = Throw TransportError
  /\ map book_name (books (remote (snd run))) = ["Sample"]
  /\ pages (remote (snd run)) = []
  /\ page_calls (trace (snd run)) = 1%nat
  /\ countFiles example_root example_tree (example_options None false false) = 3%nat.
Proof. vm_compute. repeat split; reflexivity. Qed.

Lemma count_execute_parity_witness :
  let run := importDirectory example_JSON_parse example_slug example_root example_tree
                             (example_options None false false) fresh_world in
  run = (Ok tt, snd run)
  /\ countFiles example_root example_tree (example_options None false false) = 3%nat
  /\ exists new,
       trace (snd run) = trace fresh_world ++ new
       /\ (Ok tt = Ok tt -> page_calls new = 3%nat)
       /\ (page_calls new <= 3)%nat.
Proof.
  cbv zeta. split; [vm_compute; reflexivity|]. split; [vm_compute; reflexivity|].
  apply (count_execute_parity example_JSON_parse example_slug example_root example_tree
                              (example_options None false false) fresh_world (Ok tt)).
  vm_compute. reflexivity.
Defined.

Lemma dry_run_issues_no_write_witness :
  let options := example_options None false true in
  let run := execute example_JSON_parse example_slug example_root (SrcDir example_tree)
                     options fresh_world in
  opt_dryRun options = true
  /\ run = (Ok tt, snd run)
  /\ remote (snd run) = remote fresh_world
  /\ exists new, trace (snd run) = trace fresh_world ++ new /\ filter is_write new = [].
Proof.
  cbv zeta. split; [reflexivity|]. split; [vm_compute; reflexivity|].
  apply (dry_run_issues_no_write example_JSON_parse example_slug example_root
                                 (SrcDir example_tree) (example_options None false true)
                                 fresh_world (Ok tt)).
  - reflexivity.
  - vm_compute. reflexivity.
Defined.

Lemma reconcile_idempotent_witness :
  let first := getOrCreateChapter example_slug 1 "Intro" "" false sample_world in
  reliable sample_world
  /\ first = (Ok (mkChapter 2 1 "Intro" "intro" (Some "")), snd first)
  /\ (exists b w1 b' w2,
         getTargetBook example_slug "Sample" false sample_world = (Ok b, w1)
         /\ getTargetBook example_slug "Sample" false w1 = (Ok b', w2)
         /\ book_id b' = book_id b
         /\ remote w2 = remote w1
         /\ exists new, trace w2 = trace w1 ++ new /\ filter is_write new = [])
  /\ (exists c' w2,
         getOrCreateChapter example_slug 1 "Intro" "" false (snd first) = (Ok c', w2)
         /\ chapter_id c' = 2%Z
         /\ remote w2 = remote (snd first)
         /\ exists new, trace w2 = trace (snd first) ++ new /\ filter is_write new = []).
Proof.
  cbv zeta. split; [reflexivity|]. split; [vm_compute; reflexivity|].
  destruct (reconcile_idempotent example_slug false "Intro" sample_world eq_refl)
    as [_ Hchapter].
  destruct (reconcile_idempotent example_slug false "Sample" sample_world eq_refl)
    as [Hbook _].
  split; [exact Hbook|].
  apply (Hchapter 1%Z "" (mkChapter 2 1 "Intro" "intro" (Some ""))).
  vm_compute. reflexivity.
Defined.

Lemma export_scenario_files_witness :
  let run := exportContents example_export ascii_NFKD "docbook"
                            (mkExportOptions None "markdown" false)
                            (mkWorld docbook_store [] []) in
  (forall t, is_ascii t = true -> ascii_NFKD t = t)
  /\ fst run = Ok tt
  /\ written_files (trace (snd run))
     = ["docbook/intro-101.md"; "docbook/ch-one-201/pg-a-301.md"].
Proof.
  cbv zeta. split; [intros t _; reflexivity|].
  destruct (export_scenario_files example_export ascii_NFKD docbook_store []
              (mkBook 7 "Doc Book" "docbook" None)
              (mkPage 101 7 None "Intro" "intro" "<p>i</p>" (Some "i"))
              (mkPage 301 7 (Some 201%Z) "Page A" "pg-a" "<p>a</p>" (Some "a"))
              "Intro" "Page A" "Chapter One" (Some 7%Z) None
              (fun t _ => eq_refl) eq_refl eq_refl eq_refl eq_refl eq_refl eq_refl)
    as [w' [Hrun [_ [Hfiles _]]]].
  rewrite Hrun. split; [reflexivity | exact Hfiles].
Defined.


(** * More of the program on concrete runs *)

Lemma escapeHtml_leaves_no_markup_witness :
  String.eqb "text" "html" = false
  /\ String.eqb "text" "markdown" = false
  /\ convertToHtml "a<b" "text" = "<pre>a&lt;b</pre>".
Proof.
  split; [reflexivity|]. split; [reflexivity|].
  destruct (escapeHtml_leaves_no_markup "a<b" "text") as [_ [_ H]].
  rewrite (H eq_refl eq_refl). vm_compute. reflexivity.
Defined.

Lemma markdown_plain_paragraph_witness :
  forallb plain_text_char (Js.chars "Hello world") = true
  /\ simpleMarkdownToHtml "Hello world" = "<p>Hello world</p>"
  /\ convertToHtml "Hello world" "markdown" = "<p>Hello world</p>".
Proof.
  split; [reflexivity|].
  exact (markdown_plain_paragraph "Hello world" eq_refl).
Defined.

Lemma deep_enough_budget_imports_everything_witness :
  let options := example_options None false false in
  let run := importDirectory example_JSON_parse example_slug example_root example_tree
                             options fresh_world in
  (forall name entries,
      In (Dir name entries) example_tree ->
      (nesting_of entries <= effective_maxDepth options - 1)%Z)
  /\ run = (Ok tt, snd run)
  /\ exists new,
       trace (snd run) = trace fresh_world ++ new
       /\ page_call_paths new
          = ["/srv/examples/readme.md"; "/srv/examples/Intro/page1.md";
             "/srv/examples/Intro/deep/x.md"].
Proof.
  cbv zeta.
  assert (Hdeep : forall name entries,
             In (Dir name entries) example_tree ->
             (nesting_of entries
              <= effective_maxDepth (example_options None false false) - 1)%Z).
  { intros name entries Hin. simpl in Hin.
    destruct Hin as [H | [H | [H | []]]]; try discriminate H.
    inversion H; subst. vm_compute. discriminate. }
  split; [exact Hdeep|]. split; [vm_compute; reflexivity|].
  destruct (deep_enough_budget_imports_everything
              example_JSON_parse example_slug example_root example_tree
              (example_options None false false) fresh_world
              (snd (importDirectory example_JSON_parse example_slug example_root
                                    example_tree (example_options None false false)
                                    fresh_world)) Hdeep)
    as [new [Htrace Hpaths]].
  - vm_compute. reflexivity.
  - exists new. split; [exact Htrace|]. rewrite Hpaths. vm_compute. reflexivity.
Defined.

Lemma import_calls_only_files_of_the_tree_witness :
  let options := example_options (Some 0%Z) false false in
  let w := mkWorld empty_store [false; false; false; true] [] in
  let run := importDirectory example_JSON_parse example_slug example_root example_tree
                             options w in
  run = (Throw TransportError, snd run)
  /\ exists new,
       trace (snd run) = trace w ++ new
       /\ incl (page_call_paths new)
               (root_files example_root example_tree
                ++ all_nested_files example_root example_tree).
Proof.
  cbv zeta. split; [vm_compute; reflexivity|].
  apply (import_calls_only_files_of_the_tree
           example_JSON_parse example_slug example_root example_tree
           (example_options (Some 0%Z) false false)
           (mkWorld empty_store [false; false; false; true] [])
           (Throw TransportError)).
  vm_compute. reflexivity.
Defined.

Lemma max_depth_below_two_is_zero_witness :
  let options := example_options None false false in
  (-3 <= 1)%Z
  /\ importDirectory example_JSON_parse example_slug example_root example_tree
                     (with_maxDepth (Some (-3)%Z) options) fresh_world
     = importDirectory example_JSON_parse example_slug example_root example_tree
                       (with_maxDepth (Some 0%Z) options) fresh_world.
Proof.
  cbv zeta. split; [lia|].
  apply (max_depth_below_two_is_zero example_JSON_parse example_slug example_root
                                     example_tree (example_options None false false)
                                     (-3)%Z fresh_world).
  lia.
Defined.

Lemma import_progress_ends_full_witness :
  let options := example_options None false false in
  let run := importDirectory example_JSON_parse example_slug example_root example_tree
                             options fresh_world in
  run = (Ok tt, snd run)
  /\ exists new,
       trace (snd run) = trace fresh_world ++ new
       /\ ticks new = 3%nat
       /\ bar_of_trace new = Some (mkBar 3 3).
Proof.
  cbv zeta. split; [vm_compute; reflexivity|].
  destruct (import_progress_ends_full
              example_JSON_parse example_slug example_root example_tree
              (example_options None false false) fresh_world (Ok tt)
              (snd (importDirectory example_JSON_parse example_slug example_root
                                    example_tree (example_options None false false)
                                    fresh_world)))
    as [new [Htrace [Hticks Hbar]]].
  - vm_compute. reflexivity.
  - exists new. split; [exact Htrace|].
    split; [rewrite Hticks | rewrite Hbar]; vm_compute; reflexivity.
Defined.

Lemma progress_bar_stays_in_range_witness :
  let ops := [BarTick 1; BarTick 5; BarUpdate (-2); BarTick 0] in
  let b := fold_left bar_apply ops (createProgressBar 3) in
  (0 <= 3)%Z
  /\ Forall steady ops
  /\ (0 <= bar_current b <= 3)%Z
  /\ bar_total b = 3%Z.
Proof.
  cbv zeta.
  assert (Hops : Forall steady [BarTick 1; BarTick 5; BarUpdate (-2); BarTick 0]).
  { repeat first [apply Forall_cons | apply Forall_nil]; simpl; try lia; exact I. }
  split; [lia|]. split; [exact Hops|].
  apply (progress_bar_stays_in_range 3 [BarTick 1; BarTick 5; BarUpdate (-2); BarTick 0]);
    [lia | exact Hops].
Defined.

Lemma import_addresses_one_book_witness :
  let options := example_options None false false in
  let run := execute example_JSON_parse example_slug example_root (SrcDir example_tree)
                     options fresh_world in
  run = (Ok tt, snd run)
  /\ exists bookId lookup rest,
       trace (snd run) = trace fresh_world ++ lookup ++ rest
       /\ forallb book_lookup lookup = true
       /\ (length (filter creates_book lookup) <= 1)%nat
       /\ forallb (targets bookId) rest = true.
Proof.
  cbv zeta. split; [vm_compute; reflexivity|].
  apply (import_addresses_one_book example_JSON_parse example_slug example_root
                                   (SrcDir example_tree)
                                   (example_options None false false) fresh_world (Ok tt)).
  vm_compute. reflexivity.
Defined.

Lemma dry_run_is_offline_witness :
  let options := example_options None false true in
  let w := mkWorld empty_store [true; true] [] in
  let run := execute example_JSON_parse example_slug example_root (SrcDir example_tree)
                     options w in
  opt_dryRun options = true
  /\ run = (Ok tt, snd run)
  /\ remote (snd run) = remote w
  /\ faults (snd run) = faults w
  /\ exists new, trace (snd run) = trace w ++ new /\ filter is_request new = [].
Proof.
  cbv zeta. split; [reflexivity|]. split; [vm_compute; reflexivity|].
  apply (dry_run_is_offline example_JSON_parse example_slug example_root
                            (SrcDir example_tree) (example_options None false true)
                            (mkWorld empty_store [true; true] []) (Ok tt)).
  - reflexivity.
  - vm_compute. reflexivity.
Defined.

Lemma imported_files_depend_on_depth_only_witness :
  let preview := example_options None false true in
  let flat := example_options None true false in
  let run1 := importDirectory example_JSON_parse example_slug example_root example_tree
                              preview fresh_world in
  let run2 := importDirectory example_JSON_parse example_slug example_root example_tree
                              flat sample_world in
  opt_maxDepth preview = opt_maxDepth flat
  /\ run1 = (Ok tt, snd run1)
  /\ run2 = (Ok tt, snd run2)
  /\ exists new1 new2,
       trace (snd run1) = trace fresh_world ++ new1
       /\ trace (snd run2) = trace sample_world ++ new2
       /\ page_call_paths new1 = page_call_paths new2.
Proof.
  cbv zeta. split; [reflexivity|]. split; [vm_compute; reflexivity|].
  split; [vm_compute; reflexivity|].
  apply (imported_files_depend_on_depth_only
           example_JSON_parse example_slug example_root example_tree
           (example_options None false true) (example_options None true false)).
  - reflexivity.
  - vm_compute. reflexivity.
  - vm_compute. reflexivity.
Defined.

Lemma unreachable_store_stops_before_source_witness :
  let options := example_options None false false in
  let w := mkWorld sample_store [true] [] in
  opt_dryRun options = false
  /\ faults w = [true]
  /\ execute example_JSON_parse example_slug "/srv/nowhere" SrcMissing options w
     = (Throw ConnectFailed, mkWorld sample_store [] [Request GetBooks]).
Proof.
  cbv zeta. split; [reflexivity|]. split; [reflexivity|].
  exact (unreachable_store_stops_before_source
           example_JSON_parse example_slug "/srv/nowhere" SrcMissing
           (example_options None false false) (mkWorld sample_store [true] []) []
           eq_refl eq_refl).
Defined.

Lemma export_dry_run_writes_nothing_witness :
  let opts := mkExportOptions None "markdown" true in
  let w := mkWorld docbook_store [] [] in
  let run := exportContents example_export ascii_NFKD "docbook" opts w in
  opt_export_dryRun opts = true
  /\ run = (Ok tt, snd run)
  /\ exists new, trace (snd run) = trace w ++ new /\ filter export_effect new = [].
Proof.
  cbv zeta. split; [reflexivity|]. split; [vm_compute; reflexivity|].
  apply (export_dry_run_writes_nothing example_export ascii_NFKD "docbook"
                                       (mkExportOptions None "markdown" true)
                                       (mkWorld docbook_store [] []) (Ok tt)).
  - reflexivity.
  - vm_compute. reflexivity.
Defined.

Lemma export_rejects_unknown_format_witness :
  let opts := mkExportOptions None "PDF" false in
  let w := mkWorld docbook_store [] [] in
  let run := exportContents example_export ascii_NFKD "docbook" opts w in
  string_in (Js.toLowerCase (opt_export_format opts)) ["markdown"; "html"; "plaintext"]
  = false
  /\ run = (Throw InvalidFormat, snd run)
  /\ (exists e, Throw InvalidFormat = @Throw unit e)
  /\ exists new, trace (snd run) = trace w ++ new /\ forallb book_read new = true.
Proof.
  cbv zeta. split; [reflexivity|]. split; [vm_compute; reflexivity|].
  apply (export_rejects_unknown_format example_export ascii_NFKD "docbook"
                                       (mkExportOptions None "PDF" false)
                                       (mkWorld docbook_store [] [])
                                       (Throw InvalidFormat)).
  - reflexivity.
  - vm_compute. reflexivity.
Defined.

Lemma chapter_stays_in_its_book_witness :
  let run := getOrCreateChapter example_slug 1 "Intro" "" false sample_world in
  run = (Ok (mkChapter 2 1 "Intro" "intro" (Some "")), snd run)
  /\ chapter_book_id (mkChapter 2 1 "Intro" "intro" (Some "")) = 1%Z
  /\ same_text (chapter_name (mkChapter 2 1 "Intro" "intro" (Some ""))) "Intro" = true.
Proof.
  cbv zeta. split; [vm_compute; reflexivity|].
  apply (chapter_stays_in_its_book example_slug 1%Z "Intro" "" false sample_world
           (mkChapter 2 1 "Intro" "intro" (Some ""))
           (snd (getOrCreateChapter example_slug 1 "Intro" "" false sample_world))).
  vm_compute. reflexivity.
Defined.

Lemma chapter_name_is_never_empty_witness :
  let chapterMeta := readChapterMetadata example_JSON_parse example_chapter_entries in
  String.eqb "Intro" "" = false
  /\ chapter_name_for "Intro" "/srv/examples/Intro" example_chapter_entries
                      chapterMeta "dir" = Ok "Introduction"
  /\ String.eqb "Introduction" "" = false.
Proof.
  cbv zeta. split; [reflexivity|]. split; [vm_compute; reflexivity|].
  destruct (chapter_name_is_never_empty
              "Intro" "/srv/examples/Intro" example_chapter_entries
              (readChapterMetadata example_JSON_parse example_chapter_entries) "dir"
              eq_refl) as [Hname _].
  apply (Hname "Introduction"). vm_compute. reflexivity.
Defined.

Lemma entry_path_keeps_name_and_format_witness :
  let options := example_options None false false in
  let filePath := Path.join "/srv/examples/Intro" "page1.md" in
  valid_name "page1.md" = true
  /\ Path.basename filePath = "page1.md"
  /\ Path.extname filePath = Path.extname "page1.md"
  /\ isSupportedFile filePath = isSupportedFile "page1.md"
  /\ detectFormat filePath = detectFormat "page1.md"
  /\ pd_name (page_data 1 (Some 3%Z) filePath "text" (Path.basename filePath) options)
     = Path.basename_ext "page1.md" (Path.extname "page1.md").
Proof.
  cbv zeta. split; [reflexivity|].
  exact (entry_path_keeps_name_and_format "/srv/examples/Intro" "page1.md" 1%Z (Some 3%Z)
           "text" (example_options None false false) eq_refl).
Defined.

(** * Further runs of the examples *)

(** The import scenario with [flatten] and no depth limit. *)
Lemma flatten_sends_book_level_pages_witness :
  let options := example_options None true false in
  let run := execute example_JSON_parse example_slug example_root (SrcDir example_tree)
                     options fresh_world in
  has_subdirectory example_tree = true
  /\ opt_flatten options = true
  /\ run = (Ok tt, snd run)
  /\ exists new,
       trace (snd run) = trace fresh_world ++ new
       /\ filter touches_chapter new = []
       /\ page_call_paths new
          = ["/srv/examples/readme.md"; "/srv/examples/Intro/page1.md";
             "/srv/examples/Intro/deep/x.md"]
       /\ exists w0 b w1,
            testConnection fresh_world = (Ok true, w0)
            /\ getTargetBook example_slug
                             (import_book_name example_JSON_parse example_root example_tree
                                               options)
                             false w0
               = (Ok b, w1)
            /\ page_requests new
               = map (planned_page (book_id b) options)
                     (import_plan example_root example_tree options).
Proof.
  cbv zeta. split; [reflexivity|]. split; [reflexivity|].
  split; [vm_compute; reflexivity|].
  destruct (flatten_sends_book_level_pages
              example_JSON_parse example_slug example_root example_tree
              (example_options None true false) fresh_world (Ok tt)
              (snd (execute example_JSON_parse example_slug example_root
                            (SrcDir example_tree) (example_options None true false)
                            fresh_world)))
    as [new [Htrace [Hnone [Hpaths Hsent]]]].
  - reflexivity.
  - reflexivity.
  - vm_compute. reflexivity.
  - exists new. split; [exact Htrace|]. split; [exact Hnone|].
    split; [rewrite Hpaths; vm_compute; reflexivity|].
    exact (Hsent eq_refl).
Defined.

(** C3 as the specification states it fails: with [flatten] set and
    [maxDepth = 0] the run completes, and the file of the folder nested
    below the first-level directory has become no page at all. *)
Lemma flatten_drops_files_beyond_budget :
  ~ (forall sourcePath items options w w',
        has_subdirectory items = true ->
        opt_flatten options = true ->
        execute example_JSON_parse example_slug sourcePath (SrcDir items) options w
        = (Ok tt, w') ->
        forall f,
          In f (all_files sourcePath items) ->
          isSupportedFile (fst f) = true ->
          In (fst f) (page_call_paths (trace w'))).
Proof.
  intros H.
  specialize (H example_root example_tree (example_options (Some 0%Z) true false)
                fresh_world
                (snd (execute example_JSON_parse example_slug example_root
                              (SrcDir example_tree)
                              (example_options (Some 0%Z) true false) fresh_world))
                eq_refl eq_refl).
  assert (R : execute example_JSON_parse example_slug example_root (SrcDir example_tree)
                      (example_options (Some 0%Z) true false) fresh_world
              = (Ok tt,
                 snd (execute example_JSON_parse example_slug example_root
                              (SrcDir example_tree)
                              (example_options (Some 0%Z) true false) fresh_world)))
    by (vm_compute; reflexivity).
  specialize (H R ("/srv/examples/Intro/deep/x.md", "deep")).
  assert (P : page_call_paths
                (trace (snd (execute example_JSON_parse example_slug example_root
                                     (SrcDir example_tree)
                                     (example_options (Some 0%Z) true false) fresh_world)))
              = ["/srv/examples/readme.md"; "/srv/examples/Intro/page1.md"])
    by (vm_compute; reflexivity).
  rewrite P in H.
  assert (A : In ("/srv/examples/Intro/deep/x.md", "deep")
                 (all_files example_root example_tree)).
  { vm_compute. right. right. right. left. reflexivity. }
  specialize (H A eq_refl). cbn [fst In] in H.
  destruct H as [H | [H | []]]; discriminate H.
Qed.

Lemma max_depth_zero_first_level_only_witness :
  let options := example_options (Some 0%Z) false false in
  let run := importDirectory example_JSON_parse example_slug example_root example_tree
                             options fresh_world in
  opt_maxDepth options = Some 0%Z
  /\ run = (Ok tt, snd run)
  /\ exists new,
       trace (snd run) = trace fresh_world ++ new
       /\ page_call_paths new
          = ["/srv/examples/readme.md"; "/srv/examples/Intro/page1.md"]
       /\ exists b w1,
            getTargetBook example_slug
                          (import_book_name example_JSON_parse example_root example_tree
                                            options)
                          false fresh_world
            = (Ok b, w1)
            /\ pages_sent new
               = map (fun f => (false, planned_page (book_id b) options f))
                     (root_plan example_root example_tree)
                 ++ map (fun f => (true, planned_page (book_id b) options f))
                        (first_level_plan example_root example_tree).
Proof.
  cbv zeta. split; [reflexivity|]. split; [vm_compute; reflexivity|].
  destruct (max_depth_zero_first_level_only
              example_JSON_parse example_slug example_root example_tree
              (example_options (Some 0%Z) false false) fresh_world (Ok tt)
              (snd (importDirectory example_JSON_parse example_slug example_root
                                    example_tree (example_options (Some 0%Z) false false)
                                    fresh_world)))
    as [new [Htrace [Hpaths [Hsent _]]]].
  - reflexivity.
  - vm_compute. reflexivity.
  - exists new. split; [exact Htrace|].
    split; [rewrite Hpaths; vm_compute; reflexivity|].
    exact (Hsent eq_refl).
Defined.



(** The identifier 42 on an empty store: the lookup by id misses, the
    listing is empty, the Book is created. *)
Lemma numeric_id_lookup_then_name_search_witness :
  let miss := getBook 42 fresh_world in
  let created := mkBook 1 "42" "42" (Some "Book created by bookstack-cli import") in
  only_digits "42" = true
  /\ (String.length "42" <= 20)%nat
  /\ miss = (Throw NotFound, snd miss)
  /\ reliable (snd miss)
  /\ exists w',
       getTargetBook example_slug "42" false fresh_world = (Ok created, w')
       /\ trace w' = trace fresh_world
                     ++ [Request (GetBook 42); Request GetBooks;
                         Request (CreateBook "42" "Book created by bookstack-cli import")]
       /\ books (remote w') = books (remote (snd miss)) ++ [created].
Proof.
  cbv zeta. split; [reflexivity|].
  assert (L : (String.length "42" <= 20)%nat) by (simpl; lia).
  split; [exact L|]. split; [vm_compute; reflexivity|]. split; [reflexivity|].
  destruct (numeric_id_lookup_then_name_search example_slug "42" fresh_world eq_refl L)
    as [_ [_ Hmiss]].
  exact (Hmiss NotFound (snd (getBook 42 fresh_world)) eq_refl eq_refl).
Defined.

(** A single [.html] file imported without a forced format. *)
Lemma importFile_ignores_extension_witness :
  let options := mkImportOptions (Some "Sample") None false None None false in
  let run := importFile example_slug "/srv/page.html" "<b>x</b>" options sample_world in
  opt_dryRun options = false
  /\ detectFormat "/srv/page.html" = "html"
  /\ exists b w1 data,
       getTargetBook example_slug (file_book_name "/srv/page.html" options) false
                     sample_world
       = (Ok b, w1)
       /\ trace (snd run) = trace w1 ++ [Request (CreatePage data)]
       /\ pd_book_id data = book_id b
       /\ pd_html data = "<p><b>x</b></p>"
       /\ pd_markdown data = None.
Proof.
  cbv zeta. split; [reflexivity|]. split; [reflexivity|].
  destruct (importFile_ignores_extension
              example_slug "/srv/page.html" "<b>x</b>"
              (mkImportOptions (Some "Sample") None false None None false) sample_world
              (fst (importFile example_slug "/srv/page.html" "<b>x</b>"
                               (mkImportOptions (Some "Sample") None false None None false)
                               sample_world))
              (snd (importFile example_slug "/srv/page.html" "<b>x</b>"
                               (mkImportOptions (Some "Sample") None false None None false)
                               sample_world)))
    as [[e [_ He]] | [b [w1 [data [Eg [Ht [Hb [_ [Hnone _]]]]]]]]].
  - reflexivity.
  - vm_compute. reflexivity.
  - vm_compute in He. discriminate He.
  - exists b, w1, data. split; [exact Eg|]. split; [exact Ht|]. split; [exact Hb|].
    destruct (Hnone eq_refl) as [Hhtml Hmd].
    split; [rewrite Hhtml; vm_compute; reflexivity | exact Hmd].
Defined.



(** A [.txt] file at the level of the Book, an [.HTML] file in a chapter. *)
Lemma detected_format_never_plain_text_witness :
  let options := mkImportOptions (Some "Sample") None false None None false in
  let run1 := createPageInBook example_slug 1 "/srv/examples/notes.txt" "plain" "notes.txt"
                               options sample_world in
  let run2 := createPageInChapter example_slug 1 5 "/srv/examples/Intro/a.HTML" "<i>a</i>"
                                  "a.HTML" options sample_world in
  opt_dryRun options = false
  /\ opt_format options = None
  /\ (exists data,
         trace (snd run1)
         = trace sample_world
           ++ [CallCreatePageInBook 1 "/srv/examples/notes.txt" "notes.txt";
               Request (CreatePage data)]
         /\ pd_book_id data = 1%Z
         /\ pd_chapter_id data = None
         /\ pd_html data = "<p>plain</p>"
         /\ pd_markdown data = Some "plain")
  /\ (exists data,
         trace (snd run2)
         = trace sample_world
           ++ [CallCreatePageInChapter 1 5 "/srv/examples/Intro/a.HTML" "a.HTML";
               Request (CreatePage data)]
         /\ pd_book_id data = 1%Z
         /\ pd_chapter_id data = Some 5%Z
         /\ pd_html data = "<i>a</i>"
         /\ pd_markdown data = None).
Proof.
  cbv zeta. split; [reflexivity|]. split; [reflexivity|]. split.
  - destruct (detected_format_never_plain_text
                example_slug 1%Z 5%Z "/srv/examples/notes.txt" "plain" "notes.txt"
                (mkImportOptions (Some "Sample") None false None None false) sample_world
                (fst (createPageInBook example_slug 1 "/srv/examples/notes.txt" "plain"
                        "notes.txt"
                        (mkImportOptions (Some "Sample") None false None None false)
                        sample_world))
                (snd (createPageInBook example_slug 1 "/srv/examples/notes.txt" "plain"
                        "notes.txt"
                        (mkImportOptions (Some "Sample") None false None None false)
                        sample_world))
                eq_refl eq_refl)
      as [Hbook _].
    destruct Hbook as [data [Ht [Hb [Hc Hfmt]]]]; [vm_compute; reflexivity|].
    exists data. split; [exact Ht|]. split; [exact Hb|]. split; [exact Hc|].
    destruct Hfmt as [Hhtml Hmd].
    split; [rewrite Hhtml; vm_compute; reflexivity | exact Hmd].
  - destruct (detected_format_never_plain_text
                example_slug 1%Z 5%Z "/srv/examples/Intro/a.HTML" "<i>a</i>" "a.HTML"
                (mkImportOptions (Some "Sample") None false None None false) sample_world
                (fst (createPageInChapter example_slug 1 5 "/srv/examples/Intro/a.HTML"
                        "<i>a</i>" "a.HTML"
                        (mkImportOptions (Some "Sample") None false None None false)
                        sample_world))
                (snd (createPageInChapter example_slug 1 5 "/srv/examples/Intro/a.HTML"
                        "<i>a</i>" "a.HTML"
                        (mkImportOptions (Some "Sample") None false None None false)
                        sample_world))
                eq_refl eq_refl)
      as [_ Hchapter].
    destruct Hchapter as [data [Ht [Hb [Hc Hfmt]]]]; [vm_compute; reflexivity|].
    exists data. split; [exact Ht|]. split; [exact Hb|]. split; [exact Hc|].
    exact Hfmt.
Defined.

Lemma importFile_creates_one_page_witness :
  let options := example_options None false false in
  let run := importFile example_slug "/srv/examples/readme.md" "# Hello" options
                        sample_world in
  opt_dryRun options = false
  /\ run = (Ok tt, snd run)
  /\ exists b w1 lookup data,
       getTargetBook example_slug (file_book_name "/srv/examples/readme.md" options) false
                     sample_world
       = (Ok b, w1)
       /\ trace w1 = trace sample_world ++ lookup
       /\ forallb book_lookup lookup = true
       /\ trace (snd run) = trace sample_world ++ lookup ++ [Request (CreatePage data)]
       /\ page_requests (lookup ++ [Request (CreatePage data)]) = [data]
       /\ pd_book_id data = book_id b
       /\ pd_chapter_id data = None
       /\ pd_name data = Path.basename_ext "/srv/examples/readme.md"
                                           (Path.extname "/srv/examples/readme.md")
       /\ pd_html data
          = convertToHtml "# Hello" (Js.or_else (opt_format options) "markdown").
Proof.
  cbv zeta. split; [reflexivity|]. split; [vm_compute; reflexivity|].
  apply (importFile_creates_one_page example_slug "/srv/examples/readme.md" "# Hello"
                                     (example_options None false false) sample_world).
  - reflexivity.
  - vm_compute. reflexivity.
Defined.

(** The export scenario: two pages announced, two ticks, two files. *)
Lemma export_writes_what_it_announces_witness :
  let opts := mkExportOptions None "markdown" false in
  let w := mkWorld docbook_store [] [] in
  let run := exportContents example_export ascii_NFKD "docbook" opts w in
  run = (Ok tt, snd run)
  /\ exists bookId book w1 w2 new,
       resolveBookId "docbook" w = (Ok (Some bookId), w1)
       /\ getBook bookId w1 = (Ok book, w2)
       /\ trace (snd run) = trace w ++ new
       /\ filter is_bar new = [ProgressBar (listed_pages book)]
       /\ bar_of_trace new
          = Some (mkBar (Z.of_nat (listed_pages book)) (Z.of_nat (listed_pages book)))
       /\ ticks new = listed_pages book
       /\ written_files new
          = export_paths ascii_NFKD (export_root bookId book opts) (file_ext "markdown")
                         (page_items (br_contents book)) (chapter_items (br_contents book))
       /\ length (export_paths ascii_NFKD (export_root bookId book opts) (file_ext "markdown")
                               (page_items (br_contents book))
                               (chapter_items (br_contents book)))
          = listed_pages book.
Proof.
  cbv zeta. split; [vm_compute; reflexivity|].
  apply (export_writes_what_it_announces example_export ascii_NFKD "docbook"
                                         (mkExportOptions None "markdown" false)
                                         (mkWorld docbook_store [] [])).
  vm_compute. reflexivity.
Defined.

Lemma numeric_book_id_is_not_looked_up_witness :
  let opts := mkExportOptions None "markdown" false in
  let w := mkWorld docbook_store [] [] in
  only_digits "999" = true
  /\ (String.length "999" <= 20)%nat
  /\ reliable w
  /\ find_book (Js.parseInt "999") (remote w) = None
  /\ resolveBookId "999" w = (Ok (Some 999%Z), w)
  /\ exists w',
       exportContents example_export ascii_NFKD "999" opts w = (Throw NotFound, w')
       /\ trace w' = trace w ++ [Request (GetBook 999)]
       /\ remote w' = remote w.
Proof.
  cbv zeta. split; [reflexivity|].
  assert (L : (String.length "999" <= 20)%nat) by (simpl; lia).
  split; [exact L|]. split; [reflexivity|]. split; [reflexivity|].
  destruct (numeric_book_id_is_not_looked_up example_export ascii_NFKD "999" eq_refl L)
    as [Hid Hexport].
  split; [exact (Hid (mkWorld docbook_store [] []))|].
  exact (Hexport (mkExportOptions None "markdown" false) (mkWorld docbook_store [] [])
                 eq_refl eq_refl).
Defined.

(** A number is answered as it is; the name "intro" is searched for, and
    the sole chapter among the results is the answer, whatever its name. *)
Lemma search_resolution_keeps_to_the_type_witness :
  let results := [mkSearchResult 9 "Intro" "intro" "page";
                  mkSearchResult 5 "Other" "other" "chapter"] in
  let searchAll := fun _ : string => @ret world (list SearchResult) results in
  only_digits "12" = true
  /\ (String.length "12" <= 20)%nat
  /\ resolveChapterId searchAll "12" fresh_world = (Ok (Some 12%Z), fresh_world)
  /\ resolvePageId searchAll "12" fresh_world = (Ok (Some 12%Z), fresh_world)
  /\ only_digits "intro" = false
  /\ resolveChapterId searchAll "intro" fresh_world = (Ok (Some 5%Z), fresh_world)
  /\ answered_by_search searchAll "chapter" "intro" fresh_world (Ok (Some 5%Z)) fresh_world
  /\ resolvePageId searchAll "intro" fresh_world = (Ok (Some 9%Z), fresh_world)
  /\ answered_by_search searchAll "page" "intro" fresh_world (Ok (Some 9%Z)) fresh_world.
Proof.
  cbv zeta.
  assert (L : (String.length "12" <= 20)%nat) by (simpl; lia).
  destruct (search_resolution_keeps_to_the_type
              (fun _ : string =>
                 @ret world (list SearchResult)
                      [mkSearchResult 9 "Intro" "intro" "page";
                       mkSearchResult 5 "Other" "other" "chapter"])
              "12")
    as [Hdigits _].
  destruct (search_resolution_keeps_to_the_type
              (fun _ : string =>
                 @ret world (list SearchResult)
                      [mkSearchResult 9 "Intro" "intro" "page";
                       mkSearchResult 5 "Other" "other" "chapter"])
              "intro")
    as [_ Hsearch].
  destruct (Hdigits eq_refl L fresh_world) as [Hc Hp].
  destruct (Hsearch eq_refl fresh_world (Ok (Some 5%Z)) fresh_world) as [Hchapter _].
  destruct (Hsearch eq_refl fresh_world (Ok (Some 9%Z)) fresh_world) as [_ Hpage].
  split; [reflexivity|]. split; [exact L|]. split; [exact Hc|]. split; [exact Hp|].
  split; [reflexivity|]. split; [reflexivity|].
  split; [apply Hchapter; reflexivity|]. split; [reflexivity|].
  apply Hpage. reflexivity.
Defined.

